(** * SX Bet scripts: order hashing, fill arithmetic, payload construction

    A shallow embedding of the JavaScript modules of the repository
    (orderPoster.js, orderFiller.js, orderCanceller.js, oddsUtils.js,
    orderFetcher.js and the fetch-orders utils.js) together with the
    properties of their arithmetic and payload-building core.

    Conventions of the embedding.
    - A JavaScript [BigInt] is a [Z]; [/] and [%] on BigInts truncate toward
      zero ([Z.quot], [Z.rem]) and throw a RangeError on a zero divisor.
    - A JavaScript [Number] is an IEEE 754 binary64 value: a primitive
      [float].
    - A field that travels as the decimal string of an integer (the API's
      totalBetSize, percentageOdds, fillAmount, ...) is kept as the integer
      it denotes; [ethers.getBigInt] and [BigInt.prototype.toString] are the
      two directions of that reading.
    - A function that can throw returns a [result]; a function that talks to
      the outside world (clock, entropy, environment, signer, network) is a
      [Prog], a tree of requests interpreted against a [World]. *)

From Stdlib Require Import ZArith Lia List String Ascii Bool.
From Stdlib Require Strings.Byte.
From Stdlib Require Import Floats DecimalString.
From stdpp Require Import base option list strings gmap.

Set Warnings "-inexact-float".

Local Open Scope string_scope.
Local Open Scope list_scope.
Local Open Scope Z_scope.

(** ** Errors and results *)

Inductive Error : Type :=
| INVALID_ARGUMENT (msg : string)   (* ethers: assertArgument *)
| NUMERIC_FAULT (msg : string)      (* ethers: assert(..., "NUMERIC_FAULT") *)
| BUFFER_OVERRUN (msg : string)     (* ethers: assert(..., "BUFFER_OVERRUN") *)
| RangeError (msg : string)         (* the engine: BigInt division by zero *)
| JsError (msg : string).           (* throw new Error(msg) *)

Inductive result (A : Type) : Type :=
| Ok (a : A)
| Err (e : Error).
Arguments Ok {A} a.
Arguments Err {A} e.

#[export] Instance result_ret : MRet result := fun _ a => Ok a.
#[export] Instance result_bind : MBind result := fun _ _ f m =>
  match m with
  | Ok a => f a
  | Err e => Err e
  end.

Definition is_ok {A} (r : result A) : bool :=
  match r with Ok _ => true | Err _ => false end.

(** ** Decimal strings *)

Definition is_digit (c : ascii) : bool :=
  let n := nat_of_ascii c in (48 <=? n)%nat && (n <=? 57)%nat.

Definition digit_value (c : ascii) : Z := Z.of_nat (nat_of_ascii c) - 48.

(** The longest prefix of decimal digits, and what follows it. *)
Fixpoint span_digits (s : string) : string * string :=
  match s with
  | String c r =>
      if is_digit c then let '(d, t) := span_digits r in (String c d, t)
      else (EmptyString, s)
  | EmptyString => (EmptyString, EmptyString)
  end.

(** [BigInt(digits)] for a string of decimal digits (the empty string reads
    as zero, as in the engine). *)
Definition Z_of_digits (s : string) : Z :=
  fold_left (fun acc c => 10 * acc + digit_value c) (list_ascii_of_string s) 0.

Fixpoint all_zeros (s : string) : bool :=
  match s with
  | String c r => Ascii.eqb c "0" && all_zeros r
  | EmptyString => true
  end.

Fixpoint take_str (n : nat) (s : string) : string :=
  match n, s with
  | S n', String c r => String c (take_str n' r)
  | _, _ => EmptyString
  end.

Fixpoint drop_str (n : nat) (s : string) : string :=
  match n, s with
  | S n', String _ r => drop_str n' r
  | _, _ => s
  end.

Fixpoint zeros (n : nat) : string :=
  match n with
  | O => EmptyString
  | S n' => String "0" (zeros n')
  end.

(** The match of the pattern of FixedNumber.fromString: an optional minus
    sign, a run of digits, an optional point, a run of digits, and nothing
    else. The three captures are the sign, the whole digits and the fraction
    digits. *)
Definition match_decimal (s : string) : option (bool * string * string) :=
  let '(neg, s1) := match s with
                    | String "-" r => (true, r)
                    | _ => (false, s)
                    end in
  let '(whole, s2) := span_digits s1 in
  let s3 := match s2 with
            | String "." r => r
            | _ => s2
            end in
  let '(frac, s4) := span_digits s3 in
  match s4 with
  | EmptyString => Some (neg, whole, frac)
  | _ => None
  end.

(** ** ethers: parseUnits, getBigInt *)

(** [FixedNumber.fromString(value, { decimals, width: 512 }).value]. *)
Definition parseUnits (value : string) (decimals : nat) : result Z :=
  match match_decimal value with
  | Some (neg, whole, frac) =>
      if (0 <? String.length whole + String.length frac)%nat then
        (* pad the fraction to [decimals] digits; what exceeds them must be
           zeros *)
        let decimal := frac +:+ zeros (decimals - String.length frac) in
        if all_zeros (drop_str decimals decimal) then
          let digits := whole +:+ take_str decimals decimal in
          let value := if neg then - Z_of_digits digits else Z_of_digits digits in
          (* checkValue: signed, 512 bits wide *)
          if (- 2 ^ 511 <=? value) && (value <? 2 ^ 511) then Ok value
          else Err (NUMERIC_FAULT "overflow")
        else Err (NUMERIC_FAULT "too many decimals for format")
      else Err (INVALID_ARGUMENT "invalid FixedNumber string value")
  | None => Err (INVALID_ARGUMENT "invalid FixedNumber string value")
  end.

(** An integer that arrives as its decimal string. *)
Definition decStr : Type := Z.

Definition getBigInt (value : decStr) : Z := value.
Definition BigInt_toString (value : Z) : decStr := value.

(** BigInt [/]. *)
Definition BigInt_div (a b : Z) : result Z :=
  if b =? 0 then Err (RangeError "Division by zero") else Ok (Z.quot a b).

(** BigInt [%]. *)
Definition BigInt_rem (a b : Z) : result Z :=
  if b =? 0 then Err (RangeError "Division by zero") else Ok (Z.rem a b).

(** ** orderFiller.js: calculateFillAmount *)

Definition calculateFillAmount (takerBetAmount : string) (percentageOdds : decStr)
  : result decStr :=
  takerBetAmountBN ← parseUnits takerBetAmount 6;  (* USDC has 6 decimals *)
  let percentageOddsBN := getBigInt percentageOdds in
  let base := getBigInt 100000000000000000000 in   (* 10^20 *)
  (* Formula: fillAmount = takerBetAmount * percentageOdds / (10^20 - percentageOdds) *)
  let denominator := base - percentageOddsBN in
  fillAmount ← BigInt_div (takerBetAmountBN * percentageOddsBN) denominator;
  mret (BigInt_toString fillAmount).

(** ** oddsUtils.js: the odds ladder *)

(** Step size for odds ladder (0.25%). *)
Definition ODDS_LADDER_STEP_SIZE : Z := 25.

Definition toBigInt (value : decStr) : Z := getBigInt value.

Definition checkOddsLadderValid (odds : decStr) : result bool :=
  let oddsBI := toBigInt odds in
  stepSize1 ← parseUnits "1" 16;
  let stepSize := stepSize1 * ODDS_LADDER_STEP_SIZE in
  (* Check if odds fall on the ladder (modulo equals zero) *)
  r ← BigInt_rem oddsBI stepSize;
  mret (r =? 0).

(** ** Bytes and hexadecimal strings *)

Abbreviation byte := Byte.byte.

Definition byte_of_N (n : N) : byte :=
  match Byte.of_N (n mod 256) with
  | Some b => b
  | None => Byte.x00
  end.

Definition hex_value (c : ascii) : option N :=
  let n := N_of_ascii c in
  if (48 <=? n)%N && (n <=? 57)%N then Some (n - 48)%N
  else if (97 <=? n)%N && (n <=? 102)%N then Some (n - 87)%N
  else if (65 <=? n)%N && (n <=? 70)%N then Some (n - 55)%N
  else None.

Definition hex_char (n : N) : ascii :=
  if (n <? 10)%N then ascii_of_N (48 + n) else ascii_of_N (87 + n).

Fixpoint hex_pairs (s : string) : option (list byte) :=
  match s with
  | EmptyString => Some []
  | String a (String b r) =>
      match hex_value a, hex_value b, hex_pairs r with
      | Some h, Some l, Some bs => Some (byte_of_N (16 * h + l) :: bs)
      | _, _, _ => None
      end
  | String _ EmptyString => None
  end.

(** ethers.getBytes on a string: [0x] followed by pairs of hex digits (the
    pattern is case-insensitive, prefix included). *)
Definition getBytes (value : string) : result (list byte) :=
  match value with
  | String "0" (String x r) =>
      if Ascii.eqb x "x" || Ascii.eqb x "X" then
        match hex_pairs r with
        | Some bs => Ok bs
        | None => Err (INVALID_ARGUMENT "invalid BytesLike value")
        end
      else Err (INVALID_ARGUMENT "invalid BytesLike value")
  | _ => Err (INVALID_ARGUMENT "invalid BytesLike value")
  end.

Fixpoint hex_of_bytes (bs : list byte) : string :=
  match bs with
  | [] => EmptyString
  | b :: r =>
      let n := Byte.to_N b in
      String (hex_char (n / 16)) (String (hex_char (n mod 16)) (hex_of_bytes r))
  end.

(** ethers.hexlify on bytes. *)
Definition hexlify (bs : list byte) : string := "0x" +:+ hex_of_bytes bs.

(** The big-endian reading of bytes, and the big-endian bytes of a number on
    [n] bytes. *)
Definition Z_of_be (bs : list byte) : Z :=
  fold_left (fun acc b => 256 * acc + Z.of_N (Byte.to_N b)) bs 0.

Fixpoint be_bytes (n : nat) (z : Z) : list byte :=
  match n with
  | O => []
  | S n' => be_bytes n' (z / 256) ++ [byte_of_N (Z.to_N (z mod 256))]
  end.

Definition ascii_bytes (s : string) : list byte :=
  map byte_of_ascii (list_ascii_of_string s).

(** ** Keccak-256 (the hash behind ethers.keccak256)

    Keccak-f[1600] on 25 lanes of 64 bits, lane (x, y) at index x + 5 y;
    rate 136 bytes, padding 0x01 .. 0x80, 32 bytes of output. *)
Module Keccak.

Definition mask64 : N := (2 ^ 64 - 1)%N.

Definition rotl64 (x : N) (n : N) : N :=
  N.land (N.lor (N.shiftl x n) (N.shiftr x (64 - n))) mask64.

Definition lane (st : list N) (x y : nat) : N := nth (x + 5 * y) st 0%N.

Definition rotation_offsets : list (list N) :=
  [ [0; 36; 3; 41; 18];
    [1; 44; 10; 45; 2];
    [62; 6; 43; 15; 61];
    [28; 55; 25; 21; 56];
    [27; 20; 39; 8; 14] ]%N.

Definition offset (x y : nat) : N := nth y (nth x rotation_offsets []) 0%N.

Definition round_constants : list N :=
  [ 0x0000000000000001; 0x0000000000008082; 0x800000000000808A;
    0x8000000080008000; 0x000000000000808B; 0x0000000080000001;
    0x8000000080008081; 0x8000000000008009; 0x000000000000008A;
    0x0000000000000088; 0x0000000080008009; 0x000000008000000A;
    0x000000008000808B; 0x800000000000008B; 0x8000000000008089;
    0x8000000000008003; 0x8000000000008002; 0x8000000000000080;
    0x000000000000800A; 0x800000008000000A; 0x8000000080008081;
    0x8000000000008080; 0x0000000080000001; 0x8000000080008008 ]%N.

Definition theta (st : list N) : list N :=
  let C x := N.lxor (lane st x 0) (N.lxor (lane st x 1) (N.lxor (lane st x 2)
               (N.lxor (lane st x 3) (lane st x 4)))) in
  let D x := N.lxor (C ((x + 4) mod 5)%nat) (rotl64 (C ((x + 1) mod 5)%nat) 1) in
  map (fun i => N.lxor (nth i st 0%N) (D (i mod 5)%nat)) (seq 0 25).

Definition rho_pi (st : list N) : list N :=
  map (fun i =>
         let x' := (i mod 5)%nat in
         let y' := (i / 5)%nat in
         let x := ((x' + 3 * y') mod 5)%nat in
         let y := x' in
         rotl64 (lane st x y) (offset x y)) (seq 0 25).

Definition chi (st : list N) : list N :=
  map (fun i =>
         let x := (i mod 5)%nat in
         let y := (i / 5)%nat in
         N.lxor (lane st x y)
           (N.land (N.lxor (lane st ((x + 1) mod 5)%nat y) mask64)
                   (lane st ((x + 2) mod 5)%nat y))) (seq 0 25).

Definition iota (rc : N) (st : list N) : list N :=
  match st with
  | a :: r => N.lxor a rc :: r
  | [] => []
  end.

Definition round (st : list N) (rc : N) : list N :=
  iota rc (chi (rho_pi (theta st))).

Definition keccak_f (st : list N) : list N := fold_left round round_constants st.

Definition rate : nat := 136.

(** pad10*1 with the Keccak domain byte. *)
Definition pad (data : list byte) : list N :=
  let n := (rate - (length data mod rate))%nat in   (* 1 .. rate *)
  let body := map Byte.to_N data in
  if (n =? 1)%nat then body ++ [0x81%N]
  else body ++ [0x01%N] ++ repeat 0%N (n - 2) ++ [0x80%N].

Definition lane_of_le (bs : list N) : N :=
  fold_right (fun b acc => (b + 256 * acc)%N) 0%N bs.

Fixpoint le_of_lane (n : nat) (l : N) : list N :=
  match n with
  | O => []
  | S n' => (l mod 256)%N :: le_of_lane n' (l / 256)%N
  end.

Fixpoint lanes_of_block (n : nat) (bs : list N) : list N :=
  match n with
  | O => []
  | S n' => lane_of_le (firstn 8 bs) :: lanes_of_block n' (skipn 8 bs)
  end.

Fixpoint xor_into (st blk : list N) : list N :=
  match st, blk with
  | a :: st', b :: blk' => N.lxor a b :: xor_into st' blk'
  | _, _ => st
  end.

(** Absorb [blocks] blocks of [rate] bytes. *)
Fixpoint absorb (blocks : nat) (bs : list N) (st : list N) : list N :=
  match blocks with
  | O => st
  | S blocks' =>
      absorb blocks' (skipn rate bs)
        (keccak_f (xor_into st (lanes_of_block 17 (firstn rate bs))))
  end.

Definition keccak256 (data : list byte) : list byte :=
  let padded := pad data in
  let st := absorb (length padded / rate)%nat padded (repeat 0%N 25) in
  map byte_of_N (concat (map (le_of_lane 8) (firstn 4 st))).

End Keccak.

(** ethers.keccak256: the digest of the bytes, as a hex string. *)
Definition keccak256 (data : list byte) : string := hexlify (Keccak.keccak256 data).

(** ** JavaScript Numbers

    A Number is a binary64 float. Arithmetic is the primitive one; the
    functions of the runtime that the scripts use (Math.round, Math.floor,
    Number.prototype.toString, toFixed, parseFloat) are defined on the
    specification view [Prim2SF] of a float: sign, mantissa and exponent. *)

Abbreviation Number := float.

(** The double nearest to an integer (ties to even): what parseFloat or a
    numeric literal makes of the decimal digits of [z]. *)
Definition Number_of_Z (z : Z) : Number := SF2Prim (binary_normalize prec emax z 0 false).

(** A string known by what it prints: the decimal digits of an integer (an
    API field) or a Number ([x.toString()]). *)
Inductive numStr : Type :=
| OfBigInt (z : decStr)
| OfNumber (x : Number).

(** parseFloat on such a string: the double nearest to the integer, and the
    Number that was printed (its zero printed without a sign). *)
Definition parseFloat (s : numStr) : Number :=
  match s with
  | OfBigInt z => Number_of_Z z
  | OfNumber x => if is_zero x then zero else x
  end.

(** Math.pow(10, n) for a small natural [n]: the power is a double. *)
Definition Math_pow10 (n : Z) : Number := Number_of_Z (10 ^ n).

(** The signed mantissa and the exponent of a finite Number: its value is
    [fst * 2 ^ snd]. *)
Definition finite_parts (x : spec_float) : option (Z * Z) :=
  match x with
  | S754_zero _ => Some (0, 0)
  | S754_finite s m e => Some (if s then Z.neg m else Z.pos m, e)
  | _ => None
  end.

(** Math.floor. *)
Definition Math_floor (x : Number) : Number :=
  match Prim2SF x with
  | S754_finite s m e =>
      let v := if s then Z.neg m else Z.pos m in
      if 0 <=? e then x else Number_of_Z (v / 2 ^ (- e))
  | _ => x
  end.

(** Math.round: the nearest integer, a tie going toward +Infinity; -0 for
    -0 and for every x with -0.5 <= x < 0. *)
Definition Math_round (x : Number) : Number :=
  match Prim2SF x with
  | S754_finite s m e =>
      let v := if s then Z.neg m else Z.pos m in
      if 0 <=? e then x
      else
        (* floor (v * 2^e + 1/2) *)
        let n := (2 * v + 2 ^ (- e)) / 2 ^ (1 - e) in
        if n =? 0 then (if s then neg_zero else zero) else Number_of_Z n
  | _ => x
  end.

Definition spec_float_eqb (x y : spec_float) : bool :=
  match x, y with
  | S754_zero a, S754_zero b => Bool.eqb a b
  | S754_infinity a, S754_infinity b => Bool.eqb a b
  | S754_nan, S754_nan => true
  | S754_finite a m e, S754_finite b n f => Bool.eqb a b && (m =? n)%positive && (e =? f)
  | _, _ => false
  end.

(** The double nearest to the non-negative fraction [a / b]. *)
Definition RN_frac (a b : Z) : spec_float :=
  match a, b with
  | Z.pos _, Z.pos _ =>
      let '(q, e, l) := SFdiv_core_binary prec emax a 0 b 0 in
      binary_round_aux prec emax false q e l
  | Z0, Z.pos _ => S754_zero false
  | _, _ => S754_nan
  end.

(** The double nearest to the decimal [c * 10 ^ t], for [c >= 0]. *)
Definition RN_dec (c t : Z) : spec_float :=
  if 0 <=? t then RN_frac (c * 10 ^ t) 1 else RN_frac c (10 ^ (- t)).

(** The decimal exponent of the positive fraction [num / den]: the [n] with
    [10 ^ (n - 1) <= num / den < 10 ^ n], searched upward from [n]. *)
Fixpoint decimal_exponent (fuel : nat) (n : Z) (num den : Z) : Z :=
  match fuel with
  | O => n
  | S fuel' =>
      let below := if 0 <=? n then num <? den * 10 ^ n
                   else num * 10 ^ (- n) <? den in
      if below then n else decimal_exponent fuel' (n + 1) num den
  end.

(** The shortest decimal [c * 10 ^ t] that reads back as [x], the digit
    count going up from [k]; of two decimals of one length, the one nearer
    to the value [num / den]. *)
Fixpoint shortest_decimal (fuel : nat) (k : Z) (x : spec_float) (num den n : Z)
  : Z * Z :=
  match fuel with
  | O => (0, 0)
  | S fuel' =>
      let t := n - k in
      let '(a, b) := if 0 <=? t then (num, den * 10 ^ t)
                     else (num * 10 ^ (- t), den) in
      let lo := a / b in
      let hi := lo + 1 in
      let reads_back c := (0 <? c) && spec_float_eqb (RN_dec c t) x in
      match reads_back lo, reads_back hi with
      | true, true =>
          match 2 * a ?= (2 * lo + 1) * b with
          | Lt => (lo, t)
          | Gt => (hi, t)
          | Eq => if Z.even lo then (lo, t) else (hi, t)
          end
      | true, false => (lo, t)
      | false, true => (hi, t)
      | false, false => shortest_decimal fuel' (k + 1) x num den n
      end
  end.

Fixpoint strip_zeros (fuel : nat) (c t : Z) : Z * Z :=
  match fuel with
  | O => (c, t)
  | S fuel' => if (c mod 10 =? 0) && (0 <? c) then strip_zeros fuel' (c / 10) (t + 1)
               else (c, t)
  end.

Definition digits_of_Z (z : Z) : string := NilZero.string_of_uint (N.to_uint (Z.to_N z)).

(** The digits of a positive finite Number as ECMAScript's Number::toString
    lays them out: plain for a decimal exponent [n] from -5 to 21,
    scientific otherwise. *)
Definition layout_digits (digits : string) (n : Z) : string :=
  let k := Z.of_nat (String.length digits) in
  if (-5 <=? n) && (n <=? 21) then
    if k <=? n then digits +:+ zeros (Z.to_nat (n - k))
    else if 0 <? n then
      take_str (Z.to_nat n) digits +:+ "." +:+ drop_str (Z.to_nat n) digits
    else "0." +:+ zeros (Z.to_nat (- n)) +:+ digits
  else
    let e := n - 1 in
    let exponent := (if e <? 0 then "-" else "+") +:+ digits_of_Z (Z.abs e) in
    if k =? 1 then digits +:+ "e" +:+ exponent
    else take_str 1 digits +:+ "." +:+ drop_str 1 digits +:+ "e" +:+ exponent.

Definition positive_toString (m : positive) (e : Z) : string :=
  let '(num, den) := if 0 <=? e then (Z.pos m * 2 ^ e, 1) else (Z.pos m, 2 ^ (- e)) in
  (* a first guess below the exponent, from the binary logarithms *)
  let guess := (Z.log2 num - Z.log2 den - 1) * 30103 / 100000 - 1 in
  let n := decimal_exponent 8 guess num den in
  let '(c, t) := shortest_decimal 17 1 (S754_finite false m e) num den n in
  let '(c', t') := strip_zeros 400 c t in
  let digits := digits_of_Z c' in
  layout_digits digits (t' + Z.of_nat (String.length digits)).

(** Number.prototype.toString(), radix 10. *)
Definition Number_toString (x : Number) : string :=
  match Prim2SF x with
  | S754_nan => "NaN"
  | S754_zero _ => "0"
  | S754_infinity s => if s then "-Infinity" else "Infinity"
  | S754_finite s m e => (if s then "-" else "") +:+ positive_toString m e
  end.

(** Number.prototype.toFixed(2): the integer [n] with [n / 100] nearest to
    the value (the larger one on a tie), printed with two decimals. *)
Definition toFixed2 (x : Number) : string :=
  match Prim2SF x with
  | S754_nan => "NaN"
  | S754_zero _ => "0.00"
  | S754_infinity s => if s then "-Infinity" else "Infinity"
  | S754_finite s m e =>
      if (1e21 <=? abs x)%float then Number_toString x
      else
        let '(num, den) := if 0 <=? e then (Z.pos m * 2 ^ e, 1) else (Z.pos m, 2 ^ (- e)) in
        let n := (2 * 100 * num + den) / (2 * den) in
        let digits := digits_of_Z n in
        let digits := zeros (3 - String.length digits) +:+ digits in
        let k := (String.length digits - 2)%nat in
        (if s then "-" else "") +:+ take_str k digits +:+ "." +:+ drop_str k digits
  end.

(** ** The order object of the API *)

Record Order : Type := {
  orderHash : string;
  marketHash : string;
  baseToken : string;
  totalBetSize : decStr;
  fillAmount : decStr;
  percentageOdds : decStr;
  expiry : decStr;
  salt : decStr;
  maker : string;
  executor : string;
  isMakerBettingOutcomeOne : bool;
  signature : string;
  createdAt : string
}.

(** ** orderFetcher.js: groupOrdersByOutcome *)

(** The reducer: [grouped] is the accumulator object, keyed by outcome. *)
Definition groupOrdersByOutcome_step (grouped : gmap nat (list Order)) (order : Order)
  : gmap nat (list Order) :=
  let outcome := if isMakerBettingOutcomeOne order then 2%nat else 1%nat in
  let grouped := match grouped !! outcome with
                 | None => <[outcome := []]> grouped
                 | Some _ => grouped
                 end in
  alter (fun l => l ++ [order]) outcome grouped.

Definition groupOrdersByOutcome (orders : list Order) : gmap nat (list Order) :=
  fold_left groupOrdersByOutcome_step orders ∅.

(** ** fetch-orders/utils.js *)

Definition toNominalAmount (ethereumAmount : numStr) : Number :=
  (parseFloat ethereumAmount / Math_pow10 6)%float.

Definition toImpliedOdds (percentageOdds : decStr) : Number :=
  (parseFloat (OfBigInt percentageOdds) / Math_pow10 20)%float.

Definition calculateTakerImpliedOdds (percentageOdds : decStr) : Number :=
  let makerOdds := toImpliedOdds percentageOdds in
  (1 - makerOdds)%float.

Definition toDecimalOdds (impliedOdds : Number) : result Number :=
  Ok (1 / impliedOdds)%float.

Definition calculateRemainingTakerSpace (totalBetSize fillAmount percentageOdds : decStr)
  : Number :=
  let totalBetSizeBN := parseFloat (OfBigInt totalBetSize) in
  let fillAmountBN := parseFloat (OfBigInt fillAmount) in
  let remainingMakerAmount := (totalBetSizeBN - fillAmountBN)%float in
  if (remainingMakerAmount <=? 0)%float then 0%float
  else
    (* Formula: remainingTakerSpace = (totalBetSize - fillAmount) * 10^20 / percentageOdds - (totalBetSize - fillAmount) *)
    let percentageOddsBN := parseFloat (OfBigInt percentageOdds) in
    (remainingMakerAmount * Math_pow10 20 / percentageOddsBN - remainingMakerAmount)%float.

Record FormattedOrder : Type := {
  fo_orderHash : string;
  fo_outcome : nat;
  fo_impliedOdds : Number;
  fo_impliedOddsFormatted : string;
  fo_decimalOdds : string;
  fo_availableBetSize : string;
  fo_createdAt : string
}.

Section FormatOrder.

(** [new Date(s).toLocaleString()]: the rendering depends on the host's
    locale and time zone. *)
Variable Date_toLocaleString : string -> string.

Definition formatOrderForTaker (order : Order) : result FormattedOrder :=
  (* Calculate taker's implied odds *)
  let takerImpliedOdds := calculateTakerImpliedOdds (percentageOdds order) in
  takerDecimalOdds ← toDecimalOdds takerImpliedOdds;
  (* Calculate remaining bet size for taker *)
  let remainingTakerSpaceEth :=
    calculateRemainingTakerSpace (totalBetSize order) (fillAmount order) (percentageOdds order) in
  let remainingTakerSpaceNominal := toNominalAmount (OfNumber remainingTakerSpaceEth) in
  mret {|
    fo_orderHash := orderHash order;
    fo_outcome := if isMakerBettingOutcomeOne order then 2%nat else 1%nat; (* Taker bets opposite of maker *)
    fo_impliedOdds := takerImpliedOdds;
    fo_impliedOddsFormatted := toFixed2 (takerImpliedOdds * 100)%float +:+ "%";
    fo_decimalOdds := toFixed2 takerDecimalOdds;
    fo_availableBetSize := toFixed2 remainingTakerSpaceNominal;
    fo_createdAt := Date_toLocaleString (createdAt order)
  |}.

End FormatOrder.

(** ** oddsUtils.js: rounding to the ladder *)

Definition roundToNearestStep (impliedOdds : Number) : result decStr :=
  (* Convert to percentage with 2 decimal places (e.g., 50.25) *)
  let percentage := (impliedOdds * 100)%float in
  (* Round to nearest step (0.25%) *)
  let roundedPercentage := (Math_round (percentage / 0.25) * 0.25)%float in
  (* Convert back to implied odds *)
  let roundedImplied := (roundedPercentage / 100)%float in
  (* Return as string in API format (20 decimals) *)
  v ← parseUnits (Number_toString roundedImplied) 20;
  mret (BigInt_toString v).

Definition impliedToDecimalOdds (impliedOdds : Number) : result Number :=
  Ok (1 / impliedOdds)%float.

(** ** ethers: addresses and packed encoding *)

Definition is_hex_digit (c : ascii) : bool :=
  match hex_value c with Some _ => true | None => false end.

Definition is_upper_hex (c : ascii) : bool :=
  let n := N_of_ascii c in (65 <=? n)%N && (n <=? 70)%N.

Definition is_lower_hex (c : ascii) : bool :=
  let n := N_of_ascii c in (97 <=? n)%N && (n <=? 102)%N.

Definition toLowerCase_char (c : ascii) : ascii :=
  let n := N_of_ascii c in
  if (65 <=? n)%N && (n <=? 90)%N then ascii_of_N (n + 32) else c.

Definition toUpperCase_char (c : ascii) : ascii :=
  let n := N_of_ascii c in
  if (97 <=? n)%N && (n <=? 122)%N then ascii_of_N (n - 32) else c.

Definition forall_chars (f : ascii -> bool) (s : string) : bool :=
  forallb f (list_ascii_of_string s).

Definition exists_char (f : ascii -> bool) (s : string) : bool :=
  existsb f (list_ascii_of_string s).

(** The EIP-55 spelling of the 40 hex digits [body]: a letter is upper-case
    when the matching nibble of the hash of the lower-case digits is 8 or
    more. *)
Definition getChecksumAddress (body : string) : string :=
  let chars := map toLowerCase_char (list_ascii_of_string body) in
  let hashed := map Byte.to_N (Keccak.keccak256 (map byte_of_ascii chars)) in
  let nibble i := let b := nth (i / 2) hashed 0%N in
                  if Nat.even i then (b / 16)%N else (b mod 16)%N in
  "0x" +:+ string_of_list_ascii
    (imap (fun i c => if (8 <=? nibble i)%N then toUpperCase_char c else c) chars).

(** ethers.getAddress on the hexadecimal form of an address (the ICAP form
    XE.. is outside the embedding: the scripts only hold hexadecimal
    addresses). *)
Definition getAddress (address : string) : result string :=
  let body := match address with
              | String "0" (String "x" r) => r
              | _ => address
              end in
  if (String.length body =? 40)%nat && forall_chars is_hex_digit body then
    let address := "0x" +:+ body in
    let result := getChecksumAddress body in
    (* a mixed-case address carries a checksum, which must be the right one *)
    if exists_char is_upper_hex body && exists_char is_lower_hex body
       && negb (String.eqb result address)
    then Err (INVALID_ARGUMENT "bad address checksum")
    else Ok result
  else Err (INVALID_ARGUMENT "invalid address").

(** A BigNumberish value: an integer (a bigint, an integral number or a
    decimal string) or a 0x-prefixed hexadecimal string. *)
Inductive BigNumberish : Type :=
| BN (z : Z)
| BNhex (s : string).

Definition Z_of_hex_digits (s : string) : option Z :=
  fold_left (fun acc c => a ← acc; h ← hex_value c; Some (16 * a + Z.of_N h))
            (list_ascii_of_string s) (Some 0).

Definition getUint (value : BigNumberish) : result Z :=
  v ← match value with
      | BN z => Ok z
      | BNhex (String "0" (String x (String c r))) =>
          if Ascii.eqb x "x" || Ascii.eqb x "X" then
            match Z_of_hex_digits (String c r) with
            | Some z => Ok z
            | None => Err (INVALID_ARGUMENT "invalid BigNumberish string")
            end
          else Err (INVALID_ARGUMENT "invalid BigNumberish string")
      | BNhex _ => Err (INVALID_ARGUMENT "invalid BigNumberish string")
      end;
  if v <? 0 then Err (NUMERIC_FAULT "unsigned value cannot be negative") else Ok v.

(** A value to pack together with its Solidity type. *)
Inductive Field : Type :=
| bytes32 (value : string)
| address (value : string)
| uint256 (value : BigNumberish)
| bool_ (value : bool).

(** The tight encoding of one value (ethers' _pack). *)
Definition _pack (f : Field) : result (list byte) :=
  match f with
  | address value => a ← getAddress value; getBytes a
  | bool_ value => Ok [if value then Byte.x01 else Byte.x00]
  | uint256 value =>
      v ← getUint value;
      if 2 ^ 256 <=? v then Err (BUFFER_OVERRUN "padding exceeds data length")
      else Ok (be_bytes 32 v)
  | bytes32 value =>
      bs ← getBytes value;
      if (length bs =? 32)%nat then Ok bs
      else Err (INVALID_ARGUMENT "invalid value for bytes32")
  end.

Fixpoint mapM_result {A B} (f : A -> result B) (l : list A) : result (list B) :=
  match l with
  | [] => Ok []
  | a :: r => b ← f a; bs ← mapM_result f r; mret (b :: bs)
  end.

Definition solidityPacked (fields : list Field) : result (list byte) :=
  tight ← mapM_result _pack fields;
  mret (concat tight).

Definition solidityPackedKeccak256 (fields : list Field) : result string :=
  packed ← solidityPacked fields;
  mret (keccak256 packed).

(** Node's Buffer.from(s, 'hex'): the bytes of the leading pairs of hex
    digits. *)
Fixpoint Buffer_from_hex (s : string) : list byte :=
  match s with
  | String a (String b r) =>
      match hex_value a, hex_value b with
      | Some h, Some l => byte_of_N (16 * h + l) :: Buffer_from_hex r
      | _, _ => []
      end
  | _ => []
  end.

(** ** The payloads of the three scripts *)

(** orderPoster.js: the order object, and the order with its signature. *)
Record NewOrder : Type := {
  no_marketHash : string;
  no_maker : string;
  no_totalBetSize : decStr;
  no_percentageOdds : decStr;
  no_baseToken : string;
  no_apiExpiry : Number;
  no_expiry : Z;
  no_executor : string;
  no_isMakerBettingOutcomeOne : bool;
  no_salt : string
}.

Record SignedOrder : Type := {
  so_order : NewOrder;
  so_signature : string
}.

(** A member of an EIP-712 type: [{ name, type }]. *)
Record Member : Type := { m_name : string; m_type : string }.

(** orderFiller.js: the typed data that the taker signs. *)
Record FillDomain : Type := {
  fd_name : string;
  fd_version : string;
  fd_chainId : Z;
  fd_verifyingContract : string
}.

Record FillOrderMessage : Type := {
  fm_marketHash : string;
  fm_baseToken : string;
  fm_totalBetSize : decStr;
  fm_percentageOdds : decStr;
  fm_expiry : decStr;
  fm_salt : decStr;
  fm_maker : string;
  fm_executor : string;
  fm_isMakerBettingOutcomeOne : bool
}.

Record FillObject : Type := {
  makerSigs : list string;
  orders : list FillOrderMessage;
  takerAmounts : list decStr;
  fillSalt : decStr;
  beneficiary : string;
  beneficiaryType : Z;
  cashOutTarget : string
}.

Record FillMessage : Type := {
  action : string;
  market : string;
  betting : string;
  stake : string;
  odds : string;
  returning : string;
  fills : FillObject
}.

Record FillPayload : Type := {
  fp_types : list (string * list Member);
  fp_primaryType : string;
  fp_domain : FillDomain;
  fp_message : FillMessage
}.

(** orderFiller.js: the body posted to /orders/fill. *)
Record FillApiPayload : Type := {
  api_orderHashes : list string;
  api_takerAmounts : list decStr;
  api_taker : string;
  api_takerSig : string;
  api_fillSalt : decStr;
  api_action : string;
  api_market : string;
  api_betting : string;
  api_stake : string;
  api_odds : string;
  api_returning : string
}.

(** orderCanceller.js: the typed data that the maker signs, and the body
    posted to /orders/cancel/v2. *)
Record CancelDomain : Type := {
  cd_name : string;
  cd_version : string;
  cd_chainId : Z;
  cd_salt : string
}.

Record CancelMessage : Type := {
  cm_orderHashes : list string;
  cm_timestamp : Number
}.

Record CancelPayload : Type := {
  cp_types : list (string * list Member);
  cp_primaryType : string;
  cp_domain : CancelDomain;
  cp_message : CancelMessage
}.

Record CancelApiPayload : Type := {
  ca_signature : string;
  ca_orderHashes : list string;
  ca_salt : string;
  ca_maker : string;
  ca_timestamp : Number
}.

(** The JSON body of a request, and the parsed JSON of a response: its text,
    its [status] and its [data]. *)
Inductive Body : Type :=
| NewOrdersBody (orders : list SignedOrder)      (* { orders: [...] } *)
| FillBody (payload : FillApiPayload)
| CancelBody (payload : CancelApiPayload).

Record ApiResponse : Type := {
  text : string;
  status : string;
  data : string
}.

Definition JSON_stringify (r : ApiResponse) : string := text r.

(** ** Programs over the outside world

    What a script asks of its surroundings, in the order it asks: the
    clock, the entropy source, the environment, the signing library, the
    network and the console. *)
Inductive Effect : Type :=
| DateNow                                                      (* Date.now() *)
| RandomBytes (n : nat)                                        (* randomBytes(n) *)
| GetEnv (name : string)                                       (* process.env[name] *)
| NewWallet (privateKey : string)                              (* new ethers.Wallet(key) *)
| SignMessage (privateKey : string) (message : list byte)      (* wallet.signMessage *)
| SignTypedData (privateKey : string) (payload : FillPayload)  (* wallet.signTypedData *)
| SignTypedDataV4 (privateKey : list byte) (payload : CancelPayload) (* eth-sig-util signTypedData *)
| Fetch (url : string) (body : Body)                           (* fetch + response.json() *)
| ConsoleError (label : string) (e : Error).                   (* console.error *)

Definition Response (ef : Effect) : Type :=
  match ef with
  | DateNow => Z
  | RandomBytes _ => list byte
  | GetEnv _ => option string
  | NewWallet _ => result unit
  | SignMessage _ _ => result string
  | SignTypedData _ _ => result string
  | SignTypedDataV4 _ _ => result string
  | Fetch _ _ => result ApiResponse
  | ConsoleError _ _ => unit
  end.

Inductive Prog (A : Type) : Type :=
| Ret (a : A)
| Throw (e : Error)
| Do (ef : Effect) (k : Response ef -> Prog A).
Arguments Ret {A} a.
Arguments Throw {A} e.
Arguments Do {A} ef k.

Fixpoint Prog_bind {A B} (f : A -> Prog B) (p : Prog A) : Prog B :=
  match p with
  | Ret a => f a
  | Throw e => Throw e
  | Do ef k => Do ef (fun x => Prog_bind f (k x))
  end.

#[export] Instance Prog_ret : MRet Prog := fun _ a => Ret a.
#[export] Instance Prog_mbind : MBind Prog := fun _ _ f p => Prog_bind f p.

(** [try { p } catch (error) { handler error }]. *)
Fixpoint try_catch {A} (p : Prog A) (handler : Error -> Prog A) : Prog A :=
  match p with
  | Ret a => Ret a
  | Throw e => handler e
  | Do ef k => Do ef (fun x => try_catch (k x) handler)
  end.

Definition perform (ef : Effect) : Prog (Response ef) := Do ef Ret.

(** A pure step that can throw. *)
Definition lift {A} (r : result A) : Prog A :=
  match r with
  | Ok a => Ret a
  | Err e => Throw e
  end.

(** A call of the signing library or of the network that can throw. *)
Definition attempt {A} (ef : Effect) (unwrap : Response ef -> result A) : Prog A :=
  Do ef (fun x => lift (unwrap x)).

(** The surroundings of a run: the clock by reading, the entropy by byte
    position, the environment, and the answers of the signing library and
    of the API. *)
Record World : Type := {
  w_now : nat -> Z;
  w_entropy : nat -> byte;
  w_env : string -> option string;
  w_newWallet : string -> result unit;
  w_signMessage : string -> list byte -> result string;
  w_signTypedData : string -> FillPayload -> result string;
  w_signTypedDataV4 : list byte -> CancelPayload -> result string;
  w_fetch : string -> Body -> result ApiResponse
}.

(** What has been consumed: clock readings and entropy bytes. *)
Record Consumed : Type := { clock_reads : nat; entropy_used : nat }.

Definition answer (w : World) (ef : Effect) (c : Consumed) : Response ef * Consumed :=
  match ef with
  | DateNow =>
      (w_now w (clock_reads c),
       {| clock_reads := S (clock_reads c); entropy_used := entropy_used c |})
  | RandomBytes n =>
      (map (w_entropy w) (seq (entropy_used c) n),
       {| clock_reads := clock_reads c; entropy_used := (entropy_used c + n)%nat |})
  | GetEnv name => (w_env w name, c)
  | NewWallet key => (w_newWallet w key, c)
  | SignMessage key message => (w_signMessage w key message, c)
  | SignTypedData key payload => (w_signTypedData w key payload, c)
  | SignTypedDataV4 key payload => (w_signTypedDataV4 w key payload, c)
  | Fetch url body => (w_fetch w url body, c)
  | ConsoleError _ _ => (tt, c)
  end.

(** A run: the requests made, in order, and how the program ends. *)
Fixpoint run {A} (w : World) (p : Prog A) (c : Consumed) : list Effect * result A :=
  match p with
  | Ret a => ([], Ok a)
  | Throw e => ([], Err e)
  | Do ef k =>
      let '(x, c') := answer w ef c in
      let '(trace, r) := run w (k x) c' in
      (ef :: trace, r)
  end.

Definition at_start : Consumed := {| clock_reads := 0; entropy_used := 0 |}.

Definition trace_of {A} (w : World) (p : Prog A) : list Effect := fst (run w p at_start).
Definition outcome_of {A} (w : World) (p : Prog A) : result A := snd (run w p at_start).

Definition is_signing (ef : Effect) : bool :=
  match ef with
  | SignMessage _ _ | SignTypedData _ _ | SignTypedDataV4 _ _ => true
  | _ => false
  end.

Definition is_RandomBytes (ef : Effect) : bool :=
  match ef with
  | RandomBytes _ => true
  | _ => false
  end.

(** [process.env.PRIVATE_KEY], with the test [!privateKey]: an unset or
    empty variable throws. *)
Definition require_private_key (message : string) : Prog string :=
  privateKey ← perform (GetEnv "PRIVATE_KEY");
  match privateKey with
  | None | Some EmptyString => Throw (JsError message)
  | Some key => Ret key
  end.

(** ** orderPoster.js *)
Module orderPoster.

Definition MAKER : string := "0xa6fa134f76496300419E6dbee487239F09d247aE".
Definition EXECUTOR : string := "0x52adf738AAD93c31f798a30b2C74D658e1E9a562".
Definition BASE_TOKEN : string := "0x6629Ce1Cf35Cc1329ebB4F63202F3f197b3F050B".
Definition API_ENDPOINT : string := "https://api.sx.bet/orders/new".

(** The types and the values handed to ethers.solidityPackedKeccak256. *)
Definition hash_fields (order : NewOrder) : list Field :=
  [ bytes32 (no_marketHash order);
    address (no_baseToken order);
    uint256 (BN (no_totalBetSize order));
    uint256 (BN (no_percentageOdds order));
    uint256 (BN (no_expiry order));
    uint256 (BNhex (no_salt order));
    address (no_maker order);
    address (no_executor order);
    bool_ (no_isMakerBettingOutcomeOne order) ].

Definition postOrder (marketHash : string) (isMakerBettingOutcomeOne : bool)
    (betSizeUSDC impliedOdds : Number) : Prog ApiResponse :=
  try_catch
    ((* Convert USDC amount to correct units (6 decimals for USDC) *)
     totalBetSize ← lift (parseUnits (Number_toString betSizeUSDC) 6);
     (* Implied odds are represented with 20 decimals (10^20) *)
     percentageOdds ← lift (parseUnits (Number_toString impliedOdds) 20);
     (* Current time + 1 hour for API expiry *)
     now ← perform DateNow;
     let apiExpiry := (Math_floor (Number_of_Z now / 1000) + 3600)%float in
     saltBytes ← perform (RandomBytes 32);
     (* Create order object *)
     let order := {|
       no_marketHash := marketHash;
       no_maker := MAKER;
       no_totalBetSize := BigInt_toString totalBetSize;
       no_percentageOdds := BigInt_toString percentageOdds;
       no_baseToken := BASE_TOKEN;
       no_apiExpiry := apiExpiry;
       no_expiry := 2209006800; (* Deprecated but required *)
       no_executor := EXECUTOR;
       no_isMakerBettingOutcomeOne := isMakerBettingOutcomeOne;
       no_salt := hexlify saltBytes
     |} in
     (* Generate order hash *)
     orderHash ← lift (solidityPackedKeccak256 (hash_fields order));
     (* Sign the order hash *)
     privateKey ← require_private_key "PRIVATE_KEY not found in .env file";
     _ ← attempt (NewWallet privateKey) id;
     message ← lift (getBytes orderHash);
     signature ← attempt (SignMessage privateKey message) id;
     (* Combine order with signature *)
     let signedOrder := {| so_order := order; so_signature := signature |} in
     (* Post to API *)
     attempt (Fetch API_ENDPOINT (NewOrdersBody [signedOrder])) id)
    (fun error =>
       _ ← perform (ConsoleError "Error posting order:" error);
       Throw error).

End orderPoster.

(** ** orderFiller.js *)
Module orderFiller.

Definition SX_BET_API_URL : string := "https://api.sx.bet".
Definition EIP712_FILL_HASHER : string := "0x845a2Da2D70fEDe8474b1C8518200798c60aC364".
Definition CHAIN_ID : Z := 4162.
Definition DOMAIN_VERSION : string := "6.0".

Definition ZeroAddress : string := "0x0000000000000000000000000000000000000000".
Definition ZeroHash : string :=
  "0x0000000000000000000000000000000000000000000000000000000000000000".

Definition member (name type : string) : Member := {| m_name := name; m_type := type |}.

Definition fill_types : list (string * list Member) :=
  [ ("Details",
     [ member "action" "string"; member "market" "string";
       member "betting" "string"; member "stake" "string";
       member "odds" "string"; member "returning" "string";
       member "fills" "FillObject" ]);
    ("FillObject",
     [ member "orders" "Order[]"; member "makerSigs" "bytes[]";
       member "takerAmounts" "uint256[]"; member "fillSalt" "uint256";
       member "beneficiary" "address"; member "beneficiaryType" "uint8";
       member "cashOutTarget" "bytes32" ]);
    ("Order",
     [ member "marketHash" "bytes32"; member "baseToken" "address";
       member "totalBetSize" "uint256"; member "percentageOdds" "uint256";
       member "expiry" "uint256"; member "salt" "uint256";
       member "maker" "address"; member "executor" "address";
       member "isMakerBettingOutcomeOne" "bool" ]) ].

Definition order_message (order : Order) : FillOrderMessage := {|
  fm_marketHash := marketHash order;
  fm_baseToken := baseToken order;
  fm_totalBetSize := totalBetSize order;
  fm_percentageOdds := percentageOdds order;
  fm_expiry := expiry order;
  fm_salt := salt order;
  fm_maker := maker order;
  fm_executor := executor order;
  fm_isMakerBettingOutcomeOne := isMakerBettingOutcomeOne order
|}.

(** Creates the EIP712 payload for filling orders. *)
Definition createFillOrderPayload (orders : list Order) (takerAmounts : list decStr)
    (taker : string) : Prog (FillPayload * decStr) :=
  saltBytes ← perform (RandomBytes 32);
  let fillSalt := BigInt_toString (Z_of_be saltBytes) in
  let payload := {|
    fp_types := fill_types;
    fp_primaryType := "Details";
    fp_domain := {|
      fd_name := "SX Bet";
      fd_version := DOMAIN_VERSION;
      fd_chainId := CHAIN_ID;
      fd_verifyingContract := EIP712_FILL_HASHER
    |};
    fp_message := {|
      action := "N/A";
      market := "N/A";
      betting := "N/A";
      stake := "N/A";
      odds := "N/A";
      returning := "N/A";
      fills := {|
        makerSigs := map signature orders;
        orders := map order_message orders;
        takerAmounts := takerAmounts;
        fillSalt := fillSalt;
        beneficiary := ZeroAddress;
        beneficiaryType := 0;
        cashOutTarget := ZeroHash
      |}
    |}
  |} in
  mret (payload, fillSalt).

(** Fills an order on SX Bet. *)
Definition fillOrder (orders : list Order) (takerAmounts : list decStr) : Prog string :=
  try_catch
    (privateKey ← require_private_key "Private key is not set in .env file";
     let taker := "0xa6fa134f76496300419E6dbee487239F09d247aE" in
     _ ← attempt (NewWallet privateKey) id;
     (* Create EIP712 payload *)
     '(payload, fillSalt) ← createFillOrderPayload orders takerAmounts taker;
     (* Sign the payload *)
     signature ← attempt (SignTypedData privateKey payload) id;
     (* Create API payload *)
     let apiPayload := {|
       api_orderHashes := map orderHash orders;
       api_takerAmounts := takerAmounts;
       api_taker := taker;
       api_takerSig := signature;
       api_fillSalt := fillSalt;
       api_action := "N/A";
       api_market := "N/A";
       api_betting := "N/A";
       api_stake := "N/A";
       api_odds := "N/A";
       api_returning := "N/A"
     |} in
     (* Send request to SX Bet API *)
     result ← attempt (Fetch (SX_BET_API_URL +:+ "/orders/fill") (FillBody apiPayload)) id;
     if negb (String.eqb (status result) "success") then
       Throw (JsError ("Fill failed: " +:+ JSON_stringify result))
     else Ret (data result))
    (fun error =>
       _ ← perform (ConsoleError "Error filling order:" error);
       Throw error).

End orderFiller.

(** ** orderCanceller.js *)
Module orderCanceller.

Definition MAKER : string := "0xa6fa134f76496300419E6dbee487239F09d247aE".
Definition CHAIN_ID : Z := 4162.
Definition DOMAIN_NAME : string := "CancelOrderV2SportX".
Definition DOMAIN_VERSION : string := "1.0".
Definition CHAIN_VERSION : string := "SXR".
Definition API_ENDPOINT : string := "https://api.sx.bet/orders/cancel/v2".

Definition member (name type : string) : Member := {| m_name := name; m_type := type |}.

(** Creates EIP712 payload for order cancellation. *)
Definition getCancelOrderEIP712Payload (orderHashes : list string) (salt : string)
    (timestamp : Number) : CancelPayload := {|
  cp_types :=
    [ ("EIP712Domain",
       [ member "name" "string"; member "version" "string";
         member "chainId" "uint256"; member "salt" "bytes32" ]);
      ("Details",
       [ member "orderHashes" "string[]"; member "timestamp" "uint256" ]) ];
  cp_primaryType := "Details";
  cp_domain := {|
    cd_name := DOMAIN_NAME;
    cd_version := DOMAIN_VERSION;
    cd_chainId := CHAIN_ID;
    cd_salt := salt
  |};
  cp_message := {| cm_orderHashes := orderHashes; cm_timestamp := timestamp |}
|}.

(** Cancels orders on the SX Bet exchange. *)
Definition cancelOrders (orderHashes : list string) : Prog ApiResponse :=
  try_catch
    (privateKey ← require_private_key "PRIVATE_KEY not found in .env file";
     (* Strip '0x' prefix if present for @metamask/eth-sig-util *)
     let bufferPrivateKey :=
       Buffer_from_hex (match privateKey with
                        | String "0" (String "x" r) => r
                        | _ => privateKey
                        end) in
     (* Generate random salt *)
     saltBytes ← perform (RandomBytes 32);
     let salt := "0x" +:+ hex_of_bytes saltBytes in
     (* Current timestamp in seconds *)
     now ← perform DateNow;
     let timestamp := Math_floor (Number_of_Z now / 1000)%float in
     (* Create payload for signing *)
     let payload := getCancelOrderEIP712Payload orderHashes salt timestamp in
     (* Sign the payload *)
     signature ← attempt (SignTypedDataV4 bufferPrivateKey payload) id;
     (* Create API payload *)
     let apiPayload := {|
       ca_signature := signature;
       ca_orderHashes := orderHashes;
       ca_salt := salt;
       ca_maker := MAKER;
       ca_timestamp := timestamp
     |} in
     (* Add chain version query parameter if not default *)
     let queryParams := if String.eqb CHAIN_VERSION "" then ""
                        else "?chainVersion=" +:+ CHAIN_VERSION in
     (* Send request to API *)
     attempt (Fetch (API_ENDPOINT +:+ queryParams) (CancelBody apiPayload)) id)
    (fun error =>
       _ ← perform (ConsoleError "Error cancelling orders:" error);
       Throw error).

End orderCanceller.

(** ** The standard encoding, for comparison

    Solidity's abi.encode of the nine static values: every value on its own
    32-byte word, addresses and the boolean padded on the left. *)
Definition pad_left_32 (bs : list byte) : list byte :=
  repeat Byte.x00 (32 - length bs) ++ bs.

Definition abi_encode_word (f : Field) : result (list byte) :=
  bs ← _pack f;
  mret (pad_left_32 bs).

Definition abi_encode (fields : list Field) : result (list byte) :=
  words ← mapM_result abi_encode_word fields;
  mret (concat words).

(** ** A concrete world and concrete orders, for running the scripts *)

Definition example_world : World := {|
  w_now := fun _ => 1730000000123;
  w_entropy := fun i => byte_of_N (N.of_nat i);
  w_env := fun name => if String.eqb name "PRIVATE_KEY" then Some "0x0123" else None;
  w_newWallet := fun _ => Ok tt;
  w_signMessage := fun _ _ => Ok "0x5197";
  w_signTypedData := fun _ _ => Ok "0x5197";
  w_signTypedDataV4 := fun _ _ => Ok "0x5197";
  w_fetch := fun _ _ => Ok {| text := "{}"; status := "success"; data := "ok" |}
|}.

Definition example_marketHash : string :=
  "0xabababababababababababababababababababababababababababababababab".

Definition example_order (hash : string) (makerOnOne : bool) : Order := {|
  orderHash := hash;
  marketHash := example_marketHash;
  baseToken := "0x6629Ce1Cf35Cc1329ebB4F63202F3f197b3F050B";
  totalBetSize := 100000000;
  fillAmount := 40000000;
  percentageOdds := 25 * 10 ^ 18;
  expiry := 2209006800;
  salt := 12345;
  maker := "0xa6fa134f76496300419E6dbee487239F09d247aE";
  executor := "0x52adf738AAD93c31f798a30b2C74D658e1E9a562";
  isMakerBettingOutcomeOne := makerOnOne;
  signature := "0x5197";
  createdAt := "2025-01-01T00:00:00.000Z"
|}.

Definition order_a : Order := example_order "0x0a" true.
Definition order_b : Order := example_order "0x0b" false.
Definition order_c : Order := example_order "0x0c" true.

(** The order that postOrder builds in [example_world] for a bet of 10 at
    implied odds 0.5025 on outcome one. *)
Definition example_new_order : NewOrder := {|
  no_marketHash := example_marketHash;
  no_maker := "0xa6fa134f76496300419E6dbee487239F09d247aE";
  no_totalBetSize := 10000000;
  no_percentageOdds := 50250000000000000000;
  no_baseToken := "0x6629Ce1Cf35Cc1329ebB4F63202F3f197b3F050B";
  no_apiExpiry := 1730003600%float;
  no_expiry := 2209006800;
  no_executor := "0x52adf738AAD93c31f798a30b2C74D658e1E9a562";
  no_isMakerBettingOutcomeOne := true;
  no_salt := "0x000102030405060708090a0b0c0d0e0f101112131415161718191a1b1c1d1e1f"
|}.

(** The hash that the specification's words describe: Keccak-256 over abi.encode. *)
Definition abi_encode_keccak256 (fields : list Field) : result string :=
  encoded ← abi_encode fields;
  mret (keccak256 encoded).

Definition signs_digest (digest : string) (ef : Effect) : bool :=
  match ef with
  | SignMessage _ message => String.eqb (hexlify message) digest
  | _ => false
  end.

(** The remaining taker space as the specification words it, in exact
    integer arithmetic with a truncating division. *)
Definition remainingTakerSpace_exact (totalBetSize fillAmount percentageOdds : Z) : Z :=
  let remainingMaker := totalBetSize - fillAmount in
  if remainingMaker <=? 0 then 0
  else Z.quot (remainingMaker * 10 ^ 20) percentageOdds - remainingMaker.

(** ** Rounding, on the specification side *)

(** Positions: where the fraction [num / den] lies from the mantissa of a
    shift record, as its round and sticky bits tell. *)
Definition located (num den : Z) (mrs : shr_record) : Prop :=
  let m := shr_m mrs in
  0 <= m /\
  match shr_r mrs, shr_s mrs with
  | false, false => num = m * den
  | false, true => m * den < num /\ 2 * num < (2 * m + 1) * den
  | true, false => 2 * num = (2 * m + 1) * den
  | true, true => (2 * m + 1) * den < 2 * num /\ num < (m + 1) * den
  end.

(** The doubles 1, 100 and 0.25 on the specification side. *)
Definition SF_one : spec_float := S754_finite false 4503599627370496 (-52).
Definition SF_100 : spec_float := S754_finite false 7036874417766400 (-46).
Definition SF_quarter : spec_float := S754_finite false 4503599627370496 (-54).

(** [k] is the integer nearest to the finite Number [x], the larger one on
    a tie. *)
Definition nearest_tie_up (x : Number) (k : Z) : Prop :=
  match finite_parts (Prim2SF x) with
  | Some (m, e) =>
      if 0 <=? e then k = m * 2 ^ e
      else (2 * k - 1) * 2 ^ (- e) <= 2 * m < (2 * k + 1) * 2 ^ (- e)
  | None => False
  end.

(** The tail of roundToNearestStep, from the rounded quotient on. *)
Definition snap_to_step (rounded : Number) : result decStr :=
  let roundedPercentage := (rounded * 0.25)%float in
  let roundedImplied := (roundedPercentage / 100)%float in
  v ← parseUnits (Number_toString roundedImplied) 20;
  mret (BigInt_toString v).

(** Every index of the ladder gives its step: a check by evaluation. *)
Definition snaps_to_own_step (k : Z) : bool :=
  match snap_to_step (Number_of_Z k) with
  | Ok v => v =? k * 25 * 10 ^ 16
  | Err _ => false
  end.

(** ** Predicates of the statements *)

(** The value of a property that holds an array once something was pushed. *)
Definition group_of (l : list Order) : option (list Order) :=
  match l with
  | [] => None
  | _ => Some l
  end.

Definition maker_on_one (o : Order) : bool := isMakerBettingOutcomeOne o.

Definition maker_on_two (o : Order) : bool := negb (isMakerBettingOutcomeOne o).

Definition grouped_as (g : gmap nat (list Order)) (l : list Order) : Prop :=
  g !! 2%nat = group_of (List.filter maker_on_one l) /\
  g !! 1%nat = group_of (List.filter maker_on_two l) /\
  forall k : nat, k <> 1%nat -> k <> 2%nat -> g !! k = None.

(** Every request that a program can make, whatever the answers. *)
Fixpoint all_effects {A} (P : Effect -> Prop) (p : Prog A) : Prop :=
  match p with
  | Ret _ | Throw _ => True
  | Do ef k => P ef /\ forall x, all_effects P (k x)
  end.

(** What the specification asks of a request of fillOrder: the typed data handed to
    the signer and the body posted to the API carry the placeholders. *)
Definition fill_placeholders (ef : Effect) : Prop :=
  match ef with
  | SignTypedData _ payload =>
      let m := fp_message payload in
      action m = "N/A" /\ market m = "N/A" /\ betting m = "N/A" /\
      stake m = "N/A" /\ odds m = "N/A" /\ returning m = "N/A" /\
      beneficiary (fills m) = "0x0000000000000000000000000000000000000000" /\
      beneficiaryType (fills m) = 0 /\
      cashOutTarget (fills m)
      = "0x0000000000000000000000000000000000000000000000000000000000000000"
  | Fetch _ (FillBody p) =>
      api_action p = "N/A" /\ api_market p = "N/A" /\ api_betting p = "N/A" /\
      api_stake p = "N/A" /\ api_odds p = "N/A" /\ api_returning p = "N/A"
  | Fetch _ _ => False
  | SignMessage _ _ | SignTypedDataV4 _ _ => False
  | _ => True
  end.

(** The tight packing of the nine values: 32 + 20 + 4 * 32 + 20 + 20 + 1
    bytes. *)
Definition order_preimage (marketHash baseToken : list byte)
    (totalBetSize percentageOdds expiry salt : Z) (maker executor : list byte)
    (isMakerBettingOutcomeOne : bool) : list byte :=
  marketHash ++ baseToken ++ be_bytes 32 totalBetSize ++ be_bytes 32 percentageOdds
  ++ be_bytes 32 expiry ++ be_bytes 32 salt ++ maker ++ executor
  ++ [if isMakerBettingOutcomeOne then Byte.x01 else Byte.x00].

(** [pre] is the packing of [order]: each field read at its Solidity type,
    then laid out as above. *)
Definition packed_order (order : NewOrder) (pre : list byte) : Prop :=
  exists marketHash baseToken maker executor salt,
    getBytes (no_marketHash order) = Ok marketHash /\ length marketHash = 32%nat /\
    (a ← getAddress (no_baseToken order); getBytes a) = Ok baseToken /\
    length baseToken = 20%nat /\
    (a ← getAddress (no_maker order); getBytes a) = Ok maker /\
    length maker = 20%nat /\
    (a ← getAddress (no_executor order); getBytes a) = Ok executor /\
    length executor = 20%nat /\
    getUint (BNhex (no_salt order)) = Ok salt /\
    0 <= no_totalBetSize order < 2 ^ 256 /\
    0 <= no_percentageOdds order < 2 ^ 256 /\
    0 <= no_expiry order < 2 ^ 256 /\
    0 <= salt < 2 ^ 256 /\
    pre = order_preimage marketHash baseToken (no_totalBetSize order)
            (no_percentageOdds order) (no_expiry order) salt maker executor
            (no_isMakerBettingOutcomeOne order).

(** [order] is the order object that postOrder builds from its arguments. *)
Definition built_by_postOrder (marketHash : string) (isMakerBettingOutcomeOne : bool)
    (betSizeUSDC impliedOdds : Number) (order : NewOrder) : Prop :=
  no_marketHash order = marketHash /\
  no_baseToken order = orderPoster.BASE_TOKEN /\
  parseUnits (Number_toString betSizeUSDC) 6 = Ok (no_totalBetSize order) /\
  parseUnits (Number_toString impliedOdds) 20 = Ok (no_percentageOdds order) /\
  no_expiry order = 2209006800 /\
  no_maker order = orderPoster.MAKER /\
  no_executor order = orderPoster.EXECUTOR /\
  no_isMakerBettingOutcomeOne order = isMakerBettingOutcomeOne.

(** What postOrder signs and posts: the message handed to the signer is the
    Keccak-256 digest of the packing of the order it built, and the body
    posted holds that one order. *)
Definition signs_packed_hash (marketHash : string) (isMakerBettingOutcomeOne : bool)
    (betSizeUSDC impliedOdds : Number) (ef : Effect) : Prop :=
  match ef with
  | SignMessage _ message =>
      exists order pre,
        built_by_postOrder marketHash isMakerBettingOutcomeOne betSizeUSDC impliedOdds order /\
        packed_order order pre /\ length pre = 221%nat /\
        message = Keccak.keccak256 pre
  | Fetch _ (NewOrdersBody posted) =>
      exists order sig pre,
        posted = [{| so_order := order; so_signature := sig |}] /\
        built_by_postOrder marketHash isMakerBettingOutcomeOne betSizeUSDC impliedOdds order /\
        packed_order order pre /\
        solidityPackedKeccak256 (orderPoster.hash_fields order) = Ok (keccak256 pre)
  | Fetch _ _ | SignTypedData _ _ | SignTypedDataV4 _ _ => False
  | _ => True
  end.

(** Two orders with the same nine hashed fields. *)
Definition same_hashed_fields (o1 o2 : NewOrder) : Prop :=
  no_marketHash o1 = no_marketHash o2 /\
  no_baseToken o1 = no_baseToken o2 /\
  no_totalBetSize o1 = no_totalBetSize o2 /\
  no_percentageOdds o1 = no_percentageOdds o2 /\
  no_expiry o1 = no_expiry o2 /\
  no_salt o1 = no_salt o2 /\
  no_maker o1 = no_maker o2 /\
  no_executor o1 = no_executor o2 /\
  no_isMakerBettingOutcomeOne o1 = no_isMakerBettingOutcomeOne o2.

(** ** Integers that are doubles, on the specification side *)

(** The 53-bit mantissa of the double of a positive integer below 2^53. *)
Definition normal_mantissa (p : positive) : positive :=
  Z.to_pos (Z.pos p * 2 ^ (53 - Z.pos (digits2_pos p))).

(** The double whose value is the integer [z], for an integer of at most 53
    bits. *)
Definition int_double (z : Z) : spec_float :=
  match z with
  | 0 => S754_zero false
  | Z.pos p => S754_finite false (normal_mantissa p) (Z.pos (digits2_pos p) - 53)
  | Z.neg p => S754_finite true (normal_mantissa p) (Z.pos (digits2_pos p) - 53)
  end.

(** The Number [x] is the fraction [num / den] exactly, for [0 < den]. *)
Definition Number_eq_ratio (x : Number) (num den : Z) : bool :=
  match finite_parts (Prim2SF x) with
  | Some (m, e) =>
      if 0 <=? e then m * 2 ^ e * den =? num else m * den =? num * 2 ^ (- e)
  | None => false
  end.

(** ** oddsUtils.js: apiOddsToReadable *)

(** [Number(ethers.formatUnits(value, decimals))]: formatUnits prints the
    decimal expansion of [value / 10 ^ decimals] in full, and Number reads a
    decimal as the nearest double (ties to even). *)
Definition Number_of_units (value : Z) (decimals : Z) : Number :=
  match value with
  | 0 => zero
  | Z.pos _ => SF2Prim (RN_frac value (10 ^ decimals))
  | Z.neg p => SF2Prim (SFopp (RN_frac (Z.pos p) (10 ^ decimals)))
  end.

Definition apiOddsToReadable (apiOdds : decStr) : Number :=
  Number_of_units (getBigInt apiOdds) 20.

(** ** orderFiller.js: formatOdds *)

Record FormattedOdds : Type := {
  odds_impliedPercentage : string;
  odds_decimalOdds : string
}.

(** [Number(percentageOdds)] of the decimal digits of an integer is the
    double nearest to it. *)
Definition formatOdds (percentageOdds : decStr) : FormattedOdds :=
  let impliedOdds := (Number_of_Z percentageOdds / 1e20)%float in
  let decimalOdds := (1 / impliedOdds)%float in
  {| odds_impliedPercentage := toFixed2 (impliedOdds * 100)%float +:+ "%";
     odds_decimalOdds := toFixed2 decimalOdds |}.

(** ** Decimals with two places, on the specification side *)

(** [h] hundredths in decimal: the digits of [h], at least three of them,
    with the point before the last two. *)
Definition hundredths (h : Z) : string :=
  let digits := digits_of_Z h in
  let digits := zeros (3 - String.length digits) +:+ digits in
  let k := (String.length digits - 2)%nat in
  take_str k digits +:+ "." +:+ drop_str k digits.

(** The fraction [num / den] rounded to two decimals, a tie going up. *)
Definition rounded_hundredths (num den : Z) : string :=
  hundredths ((2 * 100 * num + den) / (2 * den)).

(** [f] holds of the [n] integers from [lo] on. *)
Fixpoint holds_from (f : Z -> bool) (lo : Z) (n : nat) : bool :=
  match n with
  | O => true
  | S n' => f lo && holds_from f (lo + 1) n'
  end.

(** The checks by evaluation, over the odds [h * 10 ^ 16] with [h] from 0 to
    10000 and over the steps of the ladder. *)
Definition formatOdds_shows_percentage (h : Z) : bool :=
  String.eqb (odds_impliedPercentage (formatOdds (h * 10 ^ 16))) (hundredths h +:+ "%").

Definition formatOdds_shows_decimal (h : Z) : bool :=
  (h =? 0) ||
  String.eqb (odds_decimalOdds (formatOdds (h * 10 ^ 16))) (rounded_hundredths 10000 h).

Definition taker_percentage_shown (h : Z) : bool :=
  String.eqb (toFixed2 (calculateTakerImpliedOdds (h * 10 ^ 16)%Z * 100)%float +:+ "%")
             (hundredths (10000 - h) +:+ "%").

Definition taker_decimal_shown (k : Z) : bool :=
  (k =? 400) ||
  match toDecimalOdds (calculateTakerImpliedOdds (k * 25 * 10 ^ 16)) with
  | Ok d => String.eqb (toFixed2 d) (rounded_hundredths 400 (400 - k))
  | Err _ => false
  end.

Definition readable_reads_back (k : Z) : bool :=
  let v := k * 25 * 10 ^ 16 in
  match parseUnits (Number_toString (apiOddsToReadable v)) 20,
        roundToNearestStep (apiOddsToReadable v) with
  | Ok a, Ok b => (a =? v) && (b =? v)
  | _, _ => false
  end.

(** ** Runs of the scripts, on the specification side *)

(** The first [n] bytes of the entropy of a world. *)
Definition first_bytes (w : World) (n : nat) : list byte := map (w_entropy w) (seq 0 n).

(** The order object that postOrder builds from the scaled amounts, the
    clock reading and the 32 bytes drawn. *)
Definition order_of_postOrder (marketHash : string) (isMakerBettingOutcomeOne : bool)
    (totalBetSize percentageOdds now : Z) (saltBytes : list byte) : NewOrder := {|
  no_marketHash := marketHash;
  no_maker := orderPoster.MAKER;
  no_totalBetSize := totalBetSize;
  no_percentageOdds := percentageOdds;
  no_baseToken := orderPoster.BASE_TOKEN;
  no_apiExpiry := (Math_floor (Number_of_Z now / 1000) + 3600)%float;
  no_expiry := 2209006800;
  no_executor := orderPoster.EXECUTOR;
  no_isMakerBettingOutcomeOne := isMakerBettingOutcomeOne;
  no_salt := hexlify saltBytes
|}.

(** A run of postOrder, stage by stage: the requests made and the outcome,
    from the answers of the world. *)
Definition postOrder_stages (w : World) (marketHash : string)
    (isMakerBettingOutcomeOne : bool) (betSizeUSDC impliedOdds : Number)
  : list Effect * result ApiResponse :=
  let failed (trace : list Effect) (e : Error) : list Effect * result ApiResponse :=
    (trace ++ [ConsoleError "Error posting order:" e], Err e) in
  match parseUnits (Number_toString betSizeUSDC) 6 with
  | Err e => failed [] e
  | Ok totalBetSize =>
  match parseUnits (Number_toString impliedOdds) 20 with
  | Err e => failed [] e
  | Ok percentageOdds =>
  let order := order_of_postOrder marketHash isMakerBettingOutcomeOne
                 totalBetSize percentageOdds (w_now w 0) (first_bytes w 32) in
  match solidityPacked (orderPoster.hash_fields order) with
  | Err e => failed [DateNow; RandomBytes 32] e
  | Ok packed =>
  match w_env w "PRIVATE_KEY" with
  | None | Some EmptyString =>
      failed [DateNow; RandomBytes 32; GetEnv "PRIVATE_KEY"]
        (JsError "PRIVATE_KEY not found in .env file")
  | Some key =>
  match w_newWallet w key with
  | Err e => failed [DateNow; RandomBytes 32; GetEnv "PRIVATE_KEY"; NewWallet key] e
  | Ok _ =>
  let digest := Keccak.keccak256 packed in
  match w_signMessage w key digest with
  | Err e =>
      failed [DateNow; RandomBytes 32; GetEnv "PRIVATE_KEY"; NewWallet key;
              SignMessage key digest] e
  | Ok sig =>
  let body := NewOrdersBody [{| so_order := order; so_signature := sig |}] in
  let trace := [DateNow; RandomBytes 32; GetEnv "PRIVATE_KEY"; NewWallet key;
                SignMessage key digest; Fetch "https://api.sx.bet/orders/new" body] in
  match w_fetch w "https://api.sx.bet/orders/new" body with
  | Err e => failed trace e
  | Ok response => (trace, Ok response)
  end end end end end end end.

(** What a request of postOrder to the API carries as expiries, for a clock
    reading [now] in milliseconds. *)
Definition posts_expiry (now : Z) (ef : Effect) : Prop :=
  match ef with
  | Fetch _ (NewOrdersBody posted) =>
      exists order sig,
        posted = [{| so_order := order; so_signature := sig |}] /\
        no_apiExpiry order = Number_of_Z (now / 1000 + 3600) /\
        no_expiry order = 2209006800
  | Fetch _ _ => False
  | _ => True
  end.

(** What cancelOrders signs and posts as timestamp, for a clock reading
    [now] in milliseconds. *)
Definition cancels_at (now : Z) (ef : Effect) : Prop :=
  match ef with
  | SignTypedDataV4 _ payload =>
      cm_timestamp (cp_message payload) = Number_of_Z (now / 1000)
  | Fetch _ (CancelBody posted) => ca_timestamp posted = Number_of_Z (now / 1000)
  | Fetch _ _ => False
  | _ => True
  end.

Definition startsWith_0x (s : string) : bool :=
  match s with
  | String "0" (String "x" _) => true
  | _ => false
  end.

(** A world whose environment holds [key] as PRIVATE_KEY. *)
Definition with_private_key (w : World) (key : string) : World := {|
  w_now := w_now w;
  w_entropy := w_entropy w;
  w_env := fun name => if String.eqb name "PRIVATE_KEY" then Some key else w_env w name;
  w_newWallet := w_newWallet w;
  w_signMessage := w_signMessage w;
  w_signTypedData := w_signTypedData w;
  w_signTypedDataV4 := w_signTypedDataV4 w;
  w_fetch := w_fetch w
|}.

(** The example world with an API that answers with a failure status. *)
Definition refusing_world : World := {|
  w_now := w_now example_world;
  w_entropy := w_entropy example_world;
  w_env := w_env example_world;
  w_newWallet := w_newWallet example_world;
  w_signMessage := w_signMessage example_world;
  w_signTypedData := w_signTypedData example_world;
  w_signTypedDataV4 := w_signTypedDataV4 example_world;
  w_fetch := fun _ _ => Ok {| text := "{status:failure}"; status := "failure"; data := "" |}
|}.

(** The example world without a private key. *)
Definition keyless_world : World := {|
  w_now := w_now example_world;
  w_entropy := w_entropy example_world;
  w_env := fun _ => None;
  w_newWallet := w_newWallet example_world;
  w_signMessage := w_signMessage example_world;
  w_signTypedData := w_signTypedData example_world;
  w_signTypedDataV4 := w_signTypedDataV4 example_world;
  w_fetch := w_fetch example_world
|}.

(** ** fetch-trades/index.js: formatTrade *)

(** A trade of the API: stake and odds arrive as the decimal digits of
    integers, betTime as a number of seconds; chainVersion may be absent. *)
Record Trade : Type := {
  tr_bettor : string;
  tr_marketHash : string;
  tr_stake : decStr;
  tr_odds : decStr;
  tr_betTime : Number;
  tr_maker : bool;
  tr_settled : bool;
  tr_bettingOutcomeOne : bool;
  tr_chainVersion : option string;
  tr_baseToken : string
}.

Record FormattedTrade : Type := {
  ft_bettor : string;
  ft_marketHash : string;
  ft_stake : string;
  ft_impliedOdds : string;
  ft_decimalOdds : string;
  ft_betTime : string;
  ft_maker : bool;
  ft_settled : bool;
  ft_bettingOutcomeOne : bool;
  ft_chainVersion : string;
  ft_baseToken : string
}.

Section FormatTrade.

(** [new Date(ms).toLocaleString()]: the rendering depends on the host's
    locale and time zone. *)
Variable Date_of_ms_toLocaleString : Number -> string.

(** Function to format trade data for display; toImpliedOdds, toDecimalOdds
    and toNominalAmount are those of utils.js. *)
Definition formatTrade (trade : Trade) : result FormattedTrade :=
  let betTime := Date_of_ms_toLocaleString (tr_betTime trade * 1000)%float in
  let impliedOdds := toImpliedOdds (tr_odds trade) in
  decimalOdds ← toDecimalOdds impliedOdds;
  let stake := toNominalAmount (OfBigInt (tr_stake trade)) in
  mret {|
    ft_bettor := tr_bettor trade;
    ft_marketHash := tr_marketHash trade;
    ft_stake := toFixed2 stake;
    ft_impliedOdds := toFixed2 (impliedOdds * 100)%float +:+ "%";
    ft_decimalOdds := toFixed2 decimalOdds;
    ft_betTime := betTime;
    ft_maker := tr_maker trade;
    ft_settled := tr_settled trade;
    ft_bettingOutcomeOne := tr_bettingOutcomeOne trade;
    ft_chainVersion := match tr_chainVersion trade with
                       | None | Some EmptyString => "N/A"
                       | Some version => version
                       end;
    ft_baseToken := tr_baseToken trade
  |}.

End FormatTrade.

Definition example_trade : Trade := {|
  tr_bettor := "0x5aC843EecBf67669d4003aa49aE5e0136dc73365";
  tr_marketHash := example_marketHash;
  tr_stake := 12345678;
  tr_odds := 5025 * 10 ^ 16;
  tr_betTime := 1730000000;
  tr_maker := false;
  tr_settled := true;
  tr_bettingOutcomeOne := true;
  tr_chainVersion := None;
  tr_baseToken := "0x6629Ce1Cf35Cc1329ebB4F63202F3f197b3F050B"
|}.

(** ** fetchSportsLeaguesFixturesMarkets.js: the fixtures of the next 48 hours *)

From Stdlib Require Sorting.Sorted.

(** Array.prototype.sort with a comparator, on a copy: a stable sort. The
    comparator's result is read by its sign only (a NaN counts as 0). For a
    comparator that is a consistent ordering of the elements the result is
    the one ECMAScript prescribes, whatever the algorithm of the engine; the
    insertion below is one such algorithm. *)
Fixpoint Array_sort_insert {A} (comparefn : A -> A -> Z) (x : A) (sorted : list A)
  : list A :=
  match sorted with
  | [] => [x]
  | y :: rest =>
      if comparefn x y <=? 0 then x :: y :: rest
      else y :: Array_sort_insert comparefn x rest
  end.

Definition Array_sort {A} (comparefn : A -> A -> Z) (l : list A) : list A :=
  foldr (Array_sort_insert comparefn) [] l.

(** A comparator that is the difference of keys on the elements at hand. *)
Definition by_key {A} (comparefn : A -> A -> Z) (key : A -> Z) (l : list A) : Prop :=
  forall a b, In a l -> In b l -> comparefn a b = key a - key b.

(** A fixture of the API, with the fields the script reads. *)
Record Fixture : Type := {
  fx_eventId : string;
  fx_startDate : string;
  fx_participantOneName : option string;
  fx_participantTwoName : option string;
  fx_participants : option (list string);
  fx_leagueLabel : string;
  fx_leagueId : Z;
  fx_sportId : Z;
  fx_status : Z
}.

(** TimeClip: a time value is at most 8.64e15 milliseconds from the epoch. *)
Definition TimeClip (time : Z) : option Z :=
  if Z.abs time <=? 8640000000000000 then Some time else None.

Section Fixtures.

(** The time value of [new Date(s)], in milliseconds; [None] for an
    Invalid Date, whose time value is NaN. *)
Variable Date_parse : string -> option Z.

(** Filters fixtures to only include those starting in the next 48 hours;
    [now] is the time value of [new Date()]. A comparison with an Invalid
    Date is false. *)
Definition filterFixturesForNext48Hours (now : Z) (fixtures : list Fixture)
  : list Fixture :=
  let in48Hours := TimeClip (now + 48 * 60 * 60 * 1000) in
  List.filter
    (fun fixture =>
       let startDate := Date_parse (fx_startDate fixture) in
       match startDate, in48Hours with
       | Some start, Some limit => (now <=? start) && (start <=? limit)
       | _, _ => false
       end)
    fixtures.

(** Sorts fixtures chronologically by start date: the comparator is the
    difference of the two time values, NaN (read as 0) when one of the dates
    is invalid. *)
Definition sortFixturesChronologically (fixtures : list Fixture) : list Fixture :=
  Array_sort
    (fun a b =>
       match Date_parse (fx_startDate a), Date_parse (fx_startDate b) with
       | Some ta, Some tb => ta - tb
       | _, _ => 0
       end)
    fixtures.

(** The start of a fixture whose date is valid. *)
Definition start_of (fixture : Fixture) : Z := default 0 (Date_parse (fx_startDate fixture)).

Definition starts_at (time : Z) (fixture : Fixture) : bool :=
  match Date_parse (fx_startDate fixture) with
  | Some start => start =? time
  | None => false
  end.

End Fixtures.

Definition example_fixture (event date : string) : Fixture := {|
  fx_eventId := event;
  fx_startDate := date;
  fx_participantOneName := Some "A";
  fx_participantTwoName := Some "B";
  fx_participants := None;
  fx_leagueLabel := "League";
  fx_leagueId := 1;
  fx_sportId := 1;
  fx_status := 1
|}.

(** A parser for the examples: the date is its time value in decimal
    digits; anything else is an Invalid Date. *)
Definition example_Date_parse (s : string) : option Z :=
  match span_digits s with
  | (EmptyString, _) => None
  | (digits, EmptyString) => Some (Z_of_digits digits)
  | _ => None
  end.

(** ** websocket.js: the subscription to an order book channel *)

Module websocket.

Definition BASE_TOKEN : string := "0x6629Ce1Cf35Cc1329ebB4F63202F3f197b3F050B".

(** The calls the module makes on the Ably library. A client is named by the
    number of calls made before its creation, a channel by its client and its
    name. *)
Inductive AblyCall : Type :=
| NewRealtime                                            (* new ably.Realtime(...) *)
| ConnectionOnce (client : nat)                          (* 'connected' or 'failed' *)
| ChannelsGet (client : nat) (channelName : string)      (* realtime.channels.get *)
| ChannelSubscribe (client : nat) (channelName : string) (* channel.subscribe *)
| ChannelUnsubscribe (client : nat) (channelName : string)
| RealtimeClose (client : nat).

(** How an awaited call ends: the promise is fulfilled, it is rejected (or
    the call throws) with an error of this message, or it never settles. *)
Inductive Settled : Type :=
| Fulfilled
| Rejected (message : string)
| Pending.

(** The library, as the module sees it: what a call does, given the calls
    made before it. [ably_throws] is for the calls that are not awaited
    ([None]: the call returns). *)
Record Ably : Type := {
  ably_throws : list AblyCall -> AblyCall -> option string;
  ably_settles : list AblyCall -> AblyCall -> Settled
}.

(** How a function of the module ends. *)
Inductive Completion (A : Type) : Type :=
| Returns (value : A)
| Throws (message : string)
| Hangs.
Arguments Returns {A} value.
Arguments Throws {A} message.
Arguments Hangs {A}.

(** The variables of the module, with the calls made and the lines written
    to the console so far. *)
Record State : Type := {
  realtime : option nat;
  activeChannel : option (nat * string);
  isSubscribed : bool;
  calls : list AblyCall;
  console : list string
}.

Definition loaded : State := {|
  realtime := None;
  activeChannel := None;
  isSubscribed := false;
  calls := [];
  console := []
|}.

Definition call (c : AblyCall) (st : State) : State := {|
  realtime := realtime st;
  activeChannel := activeChannel st;
  isSubscribed := isSubscribed st;
  calls := calls st ++ [c];
  console := console st
|}.

Definition log (line : string) (st : State) : State := {|
  realtime := realtime st;
  activeChannel := activeChannel st;
  isSubscribed := isSubscribed st;
  calls := calls st;
  console := console st ++ [line]
|}.

Definition set_realtime (client : option nat) (st : State) : State := {|
  realtime := client;
  activeChannel := activeChannel st;
  isSubscribed := isSubscribed st;
  calls := calls st;
  console := console st
|}.

Definition set_activeChannel (channel : option (nat * string)) (st : State) : State := {|
  realtime := realtime st;
  activeChannel := channel;
  isSubscribed := isSubscribed st;
  calls := calls st;
  console := console st
|}.

Definition set_isSubscribed (b : bool) (st : State) : State := {|
  realtime := realtime st;
  activeChannel := activeChannel st;
  isSubscribed := b;
  calls := calls st;
  console := console st
|}.

(** Initializes the Ably client. The variable is assigned before the
    connection is awaited. *)
Definition initialize (ably : Ably) (st : State) : Completion unit * State :=
  match ably_throws ably (calls st) NewRealtime with
  | Some message =>
      (Throws message,
       log ("Failed to initialize Ably client: " +:+ message) (call NewRealtime st))
  | None =>
      let client := length (calls st) in
      let st := set_realtime (Some client) (call NewRealtime st) in
      match ably_settles ably (calls st) (ConnectionOnce client) with
      | Fulfilled =>
          (Returns tt,
           log "Connected to Ably successfully" (call (ConnectionOnce client) st))
      | Rejected err_message =>
          let message := "Connection failed: " +:+ err_message in
          (Throws message,
           log ("Failed to initialize Ably client: " +:+ message)
             (call (ConnectionOnce client) st))
      | Pending => (Hangs, call (ConnectionOnce client) st)
      end
  end.

(** Unsubscribe from the current order book channel. *)
Definition unsubscribeFromOrderBook (ably : Ably) (st : State)
  : Completion bool * State :=
  match activeChannel st with
  | None => (Returns false, log "No active subscription to unsubscribe from" st)
  | Some (client, channelName) =>
      let unsubscribe := ChannelUnsubscribe client channelName in
      match ably_settles ably (calls st) unsubscribe with
      | Fulfilled =>
          (Returns true,
           set_isSubscribed false
             (set_activeChannel None
                (log "Unsubscribed from order book channel" (call unsubscribe st))))
      | Rejected message =>
          (Returns false,
           log ("Error unsubscribing from order book channel: " +:+ message)
             (call unsubscribe st))
      | Pending => (Hangs, call unsubscribe st)
      end
  end.

(** The [try] block of subscribeToOrderBook. *)
Definition subscribe_channel (ably : Ably) (marketHash : string) (st : State)
  : Completion bool * State :=
  let failed message st :=
    (Returns false,
     log ("Error subscribing to order book channel: " +:+ message) st) in
  let channelName := "order_book:" +:+ BASE_TOKEN +:+ ":" +:+ marketHash in
  match realtime st with
  | None => failed "Cannot read properties of null (reading 'channels')" st
  | Some client =>
      let get := ChannelsGet client channelName in
      match ably_throws ably (calls st) get with
      | Some message => failed message (call get st)
      | None =>
          let st := set_activeChannel (Some (client, channelName)) (call get st) in
          let subscribe := ChannelSubscribe client channelName in
          match ably_throws ably (calls st) subscribe with
          | Some message => failed message (call subscribe st)
          | None =>
              (Returns true,
               log ("Subscribed to order book channel for market: " +:+ marketHash)
                 (set_isSubscribed true (call subscribe st)))
          end
      end
  end.

(** Subscribe to order book channel for a specific market. An error of
    initialize is not caught; the result of unsubscribing is not looked
    at. *)
Definition subscribeToOrderBook (ably : Ably) (marketHash : string) (st : State)
  : Completion bool * State :=
  let initialized :=
    match realtime st with
    | None => initialize ably st
    | Some _ => (Returns tt, st)
    end in
  match initialized with
  | (Throws message, st) => (Throws message, st)
  | (Hangs, st) => (Hangs, st)
  | (Returns _, st) =>
      let unsubscribed :=
        match activeChannel st with
        | Some _ => unsubscribeFromOrderBook ably st
        | None => (Returns false, st)
        end in
      match unsubscribed with
      | (Throws message, st) => (Throws message, st)
      | (Hangs, st) => (Hangs, st)
      | (Returns _, st) => subscribe_channel ably marketHash st
      end
  end.

(** Check if currently subscribed to an order book channel. *)
Definition isSubscribedToChannel (st : State) : bool := isSubscribed st.

(** Close the connection. *)
Definition closeConnection (ably : Ably) (st : State) : Completion unit * State :=
  match realtime st with
  | Some client =>
      match ably_settles ably (calls st) (RealtimeClose client) with
      | Fulfilled =>
          (Returns tt,
           log "Connection closed"
             (set_isSubscribed false
                (set_activeChannel None
                   (set_realtime None (call (RealtimeClose client) st)))))
      | Rejected message => (Throws message, call (RealtimeClose client) st)
      | Pending => (Hangs, call (RealtimeClose client) st)
      end
  | None => (Returns tt, st)
  end.

(** The functions the module exports that change its variables, called one
    after the other. *)
Inductive Exported : Type :=
| call_initialize
| call_subscribeToOrderBook (marketHash : string)
| call_unsubscribeFromOrderBook
| call_closeConnection.

Definition after_call (ably : Ably) (st : State) (f : Exported) : State :=
  match f with
  | call_initialize => snd (initialize ably st)
  | call_subscribeToOrderBook marketHash => snd (subscribeToOrderBook ably marketHash st)
  | call_unsubscribeFromOrderBook => snd (unsubscribeFromOrderBook ably st)
  | call_closeConnection => snd (closeConnection ably st)
  end.

Definition after_calls (ably : Ably) (fs : list Exported) : State :=
  fold_left (after_call ably) fs loaded.

(** What holds of the variables of the module between two calls. *)
Definition coherent (st : State) : Prop :=
  (isSubscribed st = true -> activeChannel st <> None) /\
  (activeChannel st <> None -> realtime st <> None) /\
  (forall client channelName,
      activeChannel st = Some (client, channelName) ->
      exists marketHash,
        channelName = "order_book:" +:+ BASE_TOKEN +:+ ":" +:+ marketHash).

(** The calls that open a connection. *)
Definition connects (c : AblyCall) : bool :=
  match c with
  | NewRealtime | ConnectionOnce _ => true
  | _ => false
  end.

(** A library whose connection fails, and that works otherwise. *)
Definition failing_connection : Ably := {|
  ably_throws := fun _ _ => None;
  ably_settles := fun _ c =>
    match c with
    | ConnectionOnce _ => Rejected "no network"
    | _ => Fulfilled
    end
|}.

(** A library that works, but for unsubscribing. *)
Definition failing_unsubscribe : Ably := {|
  ably_throws := fun _ _ => None;
  ably_settles := fun _ c =>
    match c with
    | ChannelUnsubscribe _ _ => Rejected "channel failed"
    | _ => Fulfilled
    end
|}.

End websocket.

(** ** Strings typed at the terminal

    The text a user types, as a string of ASCII characters. *)

Module JsString.

(** The white space and the line terminators of ECMAScript that are ASCII:
    tab, line feed, vertical tab, form feed, carriage return and space. *)
Definition is_whitespace (c : ascii) : bool :=
  let n := nat_of_ascii c in ((9 <=? n)%nat && (n <=? 13)%nat) || (n =? 32)%nat.

Fixpoint trimStart (s : string) : string :=
  match s with
  | String c r => if is_whitespace c then trimStart r else s
  | EmptyString => EmptyString
  end.

(** The string without its trailing white space. *)
Fixpoint trimEnd (s : string) : string :=
  match s with
  | String c r =>
      match trimEnd r with
      | EmptyString => if is_whitespace c then EmptyString else String c EmptyString
      | kept => String c kept
      end
  | EmptyString => EmptyString
  end.

(** String.prototype.trim. *)
Definition trim (s : string) : string := trimEnd (trimStart s).

(** String.prototype.toLowerCase, on ASCII letters. *)
Definition lower (c : ascii) : ascii :=
  let n := nat_of_ascii c in
  if (65 <=? n)%nat && (n <=? 90)%nat then ascii_of_nat (n + 32) else c.

Fixpoint toLowerCase (s : string) : string :=
  match s with
  | String c r => String (lower c) (toLowerCase r)
  | EmptyString => EmptyString
  end.

(** An optional sign: whether it is a minus, and what follows. *)
Definition read_sign (s : string) : bool * string :=
  match s with
  | String "-" r => (true, r)
  | String "+" r => (false, r)
  | _ => (false, s)
  end.

(** The exponent part at the head of [s], when there is a whole one: [e] or
    [E], an optional sign, and at least one digit. *)
Definition read_exponent (s : string) : Z :=
  match s with
  | String c r =>
      if Ascii.eqb c "e" || Ascii.eqb c "E" then
        let '(negative, r) := read_sign r in
        match span_digits r with
        | (EmptyString, _) => 0
        | (digits, _) => if negative then - Z_of_digits digits else Z_of_digits digits
        end
      else 0
  | EmptyString => 0
  end.

(** The value of the longest prefix of [s] that is an unsigned decimal
    literal (digits with an optional point and fraction, or a point and a
    fraction, then an optional exponent; or Infinity), rounded to a double;
    [None] when no prefix is one. *)
Definition read_unsigned (s : string) : option spec_float :=
  if String.prefix "Infinity" s then Some (S754_infinity false)
  else
    let '(whole, rest) := span_digits s in
    let '(fraction, rest) :=
      match rest with
      | String "." r =>
          match span_digits r, whole with
          | (EmptyString, _), EmptyString => (EmptyString, rest)
          | (digits, r'), _ => (digits, r')
          end
      | _ => (EmptyString, rest)
      end in
    match whole, fraction with
    | EmptyString, EmptyString => None
    | _, _ =>
        Some (RN_dec (Z_of_digits (whole +:+ fraction))
                (read_exponent rest - Z.of_nat (String.length fraction)))
    end.

(** parseFloat: leading white space is skipped, what follows the number is
    ignored, and a string that does not start with a number gives NaN. *)
Definition parseFloat (s : string) : Number :=
  let '(negative, s) := read_sign (trimStart s) in
  match read_unsigned s with
  | Some magnitude => SF2Prim (if negative then SFopp magnitude else magnitude)
  | None => nan
  end.

End JsString.

(** ** index.js of the order scripts: post or cancel from the terminal *)

Module orderManagement.

(** What a session shows, asks and requests, in order. *)
Inductive Event : Type :=
| Question (query : string)                            (* rl.question(query, ...) *)
| ConsoleLog (line : string)                           (* console.log(line) *)
| ConsoleLogJSON (response : ApiResponse)              (* JSON.stringify(response, null, 2) *)
| ConsoleErrorMessage (label : string) (error : Error) (* console.error(label + error.message) *)
| Request (ef : Effect)                                (* made by postOrder or cancelOrders *)
| RlClose.                                             (* rl.close() *)

Definition LF : string := String (ascii_of_nat 10) EmptyString.

(** The requests of a session. *)
Definition requests (events : list Event) : list Effect :=
  omap (fun event => match event with Request ef => Some ef | _ => None end) events.

(** [answer n] is what the user types at the question number [n] of the
    function, counted from 0. *)
Definition postNewOrder (w : World) (answer : nat -> string) : list Event :=
  let failed (events : list Event) (error : Error) : list Event :=
    events ++ [ConsoleErrorMessage "Error posting order: " error] in
  (* Gather input from user *)
  let marketHash := answer 0%nat in
  let outcomeChoice := answer 1%nat in
  let isMakerBettingOutcomeOne := String.eqb (JsString.toLowerCase outcomeChoice) "yes" in
  let betSizeStr := answer 2%nat in
  let betSize := JsString.parseFloat betSizeStr in
  let events := [Question "Enter market hash: ";
                 Question "Are you betting on outcome 1? (yes/no): ";
                 Question "Enter bet size in USDC (e.g., 10): "] in
  if is_nan betSize || (betSize <=? 0)%float then
    failed events (JsError "Invalid bet size. Must be a positive number.")
  else
    let impliedOddsStr := answer 3%nat in
    let impliedOdds := JsString.parseFloat impliedOddsStr in
    let events := events ++ [Question "Enter implied odds (e.g., 0.5 for 50%): "] in
    if is_nan impliedOdds || (impliedOdds <=? 0)%float || (1 <=? impliedOdds)%float then
      failed events (JsError "Invalid implied odds. Must be between 0 and 1.")
    else
      (* Round odds to nearest step on ladder *)
      match roundToNearestStep impliedOdds with
      | Err error => failed events error
      | Ok roundedOddsAPI =>
      let roundedOddsReadable := apiOddsToReadable roundedOddsAPI in
      match impliedToDecimalOdds roundedOddsReadable with
      | Err error => failed events error
      | Ok decimalOdds =>
      let events :=
        events ++
        [ConsoleLog (LF +:+ "Rounded odds: " +:+ toFixed2 (roundedOddsReadable * 100)%float
                     +:+ "% implied (" +:+ toFixed2 decimalOdds +:+ " decimal)");
         Question "Proceed with posting order? (yes/no): "] in
      let confirmStr := answer 4%nat in
      if negb (String.eqb (JsString.toLowerCase confirmStr) "yes") then
        events ++ [ConsoleLog "Order posting cancelled."]
      else
        (* Post the order using the rounded odds *)
        let '(trace, response) :=
          run w (orderPoster.postOrder marketHash isMakerBettingOutcomeOne betSize
                   roundedOddsReadable) at_start in
        let events := events ++ [ConsoleLog (LF +:+ "Posting order...")]
                             ++ map Request trace in
        match response with
        | Ok response =>
            events ++ [ConsoleLog (LF +:+ "API Response:"); ConsoleLogJSON response]
        | Err error => failed events error
        end
      end end.

Definition cancelOrder (w : World) (answer : nat -> string) : list Event :=
  let failed (events : list Event) (error : Error) : list Event :=
    events ++ [ConsoleErrorMessage "Error cancelling order: " error] in
  let orderHashInput := answer 0%nat in
  let orderHash := JsString.trim orderHashInput in
  let events := [Question "Enter order hash to cancel: "] in
  if String.eqb orderHash "" then
    failed events (JsError "Order hash is required.")
  else
    let events :=
      events ++ [Question ("Proceed with cancelling order " +:+ orderHash
                           +:+ "? (yes/no): ")] in
    let confirmStr := answer 1%nat in
    if negb (String.eqb (JsString.toLowerCase confirmStr) "yes") then
      events ++ [ConsoleLog "Order cancellation aborted."]
    else
      (* Cancel the order *)
      let '(trace, response) := run w (orderCanceller.cancelOrders [orderHash]) at_start in
      let events := events ++ [ConsoleLog (LF +:+ "Cancelling order...")]
                           ++ map Request trace in
      match response with
      | Ok response =>
          events ++ [ConsoleLog (LF +:+ "API Response:"); ConsoleLogJSON response]
      | Err error => failed events error
      end.

(** The later answers, for the function called after [n] questions. *)
Definition later (n : nat) (answer : nat -> string) : nat -> string :=
  fun i => answer (n + i)%nat.

Definition main (w : World) (answer : nat -> string) : list Event :=
  let choice := answer 0%nat in
  [ConsoleLog "SX Bet Order Management";
   ConsoleLog "=======================";
   ConsoleLog "1. Post new order";
   ConsoleLog "2. Cancel order";
   ConsoleLog "3. Exit";
   Question (LF +:+ "Select an option (1-3): ")]
  ++ (if String.eqb choice "1" then postNewOrder w (later 1 answer)
      else if String.eqb choice "2" then cancelOrder w (later 1 answer)
      else if String.eqb choice "3" then [ConsoleLog "Exiting program."]
      else [ConsoleLog "Invalid option. Please select 1, 2, or 3."])
  ++ [RlClose].

(** What a request of a session to the API carries, for the answers
    typed. *)
Definition request_as_typed (answer : nat -> string) (ef : Effect) : Prop :=
  match ef with
  | Fetch _ (NewOrdersBody posted) =>
      exists order sig k,
        posted = [{| so_order := order; so_signature := sig |}] /\
        0 <= k <= 400 /\
        no_percentageOdds order = k * 25 * 10 ^ 16 /\
        no_marketHash order = answer 1%nat /\
        no_isMakerBettingOutcomeOne order
        = String.eqb (JsString.toLowerCase (answer 2%nat)) "yes"
  | Fetch _ (CancelBody payload) =>
      ca_orderHashes payload = [JsString.trim (answer 1%nat)]
  | Fetch _ _ => False
  | _ => True
  end.

(** What a request of postOrder to the API carries, for its arguments. *)
Definition posts_arguments (marketHash : string) (isMakerBettingOutcomeOne : bool)
    (impliedOdds : Number) (ef : Effect) : Prop :=
  match ef with
  | Fetch _ (NewOrdersBody posted) =>
      exists order sig,
        posted = [{| so_order := order; so_signature := sig |}] /\
        parseUnits (Number_toString impliedOdds) 20 = Ok (no_percentageOdds order) /\
        no_marketHash order = marketHash /\
        no_isMakerBettingOutcomeOne order = isMakerBettingOutcomeOne
  | Fetch _ _ => False
  | _ => True
  end.

(** What a request of cancelOrders to the API carries. *)
Definition cancels_hashes (orderHashes : list string) (ef : Effect) : Prop :=
  match ef with
  | Fetch _ (CancelBody payload) => ca_orderHashes payload = orderHashes
  | Fetch _ _ => False
  | _ => True
  end.

(** The answers of a session, in order; nothing is typed after them. *)
Definition typed (answers : list string) : nat -> string :=
  fun n => nth n answers "".

End orderManagement.

(** * Properties *)

Example keccak256_empty :
  keccak256 [] = "0xc5d2460186f7233c927e7db2dcc703c0e500b653ca82273b7bfad8045d85a470".
Proof. vm_compute. reflexivity. Qed.

Example keccak256_abc :
  keccak256 (ascii_bytes "abc") = "0x4e03657aea45a94fc7d47ba826c8d667c0d1e6e33a64a036ec44f58fa12d6c45".
Proof. vm_compute. reflexivity. Qed.

Example parseUnits_10 : parseUnits "10" 6 = Ok 10000000.
Proof. reflexivity. Qed.

Example parseUnits_frac : parseUnits "-12.5" 6 = Ok (-12500000).
Proof. reflexivity. Qed.

Example parseUnits_trailing_zeros : parseUnits "1.25000000" 6 = Ok 1250000.
Proof. reflexivity. Qed.

Example parseUnits_too_fine : parseUnits "0.0000001" 6 = Err (NUMERIC_FAULT "too many decimals for format").
Proof. reflexivity. Qed.

Example parseUnits_exponent : is_ok (parseUnits "1e3" 6) = false.
Proof. reflexivity. Qed.

Example parseUnits_dot : is_ok (parseUnits "." 6) = false.
Proof. reflexivity. Qed.

Example calculateFillAmount_10 : calculateFillAmount "10" (50 * 10 ^ 18) = Ok 10000000.
Proof. reflexivity. Qed.
Example toString_1 : Number_toString (0.1 + 0.2)%float = "0.30000000000000004".
Proof. vm_compute. reflexivity. Qed.
Example toString_2 : Number_toString (1 / 3)%float = "0.3333333333333333".
Proof. vm_compute. reflexivity. Qed.
Example toString_3 : Number_toString (1e21)%float = "1e+21".
Proof. vm_compute. reflexivity. Qed.
Example toString_4 : Number_toString (1e23)%float = "1e+23".
Proof. vm_compute. reflexivity. Qed.
Example toString_5 : Number_toString (123456789012345680000)%float = "123456789012345680000".
Proof. vm_compute. reflexivity. Qed.
Example toString_6 : Number_toString (5e-324)%float = "5e-324".
Proof. vm_compute. reflexivity. Qed.
Example toString_7 : Number_toString (0.000001)%float = "0.000001".
Proof. vm_compute. reflexivity. Qed.
Example toString_8 : Number_toString (1e-7)%float = "1e-7".
Proof. vm_compute. reflexivity. Qed.
Example toString_9 : Number_toString (50.25 / 100)%float = "0.5025".
Proof. vm_compute. reflexivity. Qed.
Example toString_10 : Number_toString (-1.5e300)%float = "-1.5e+300".
Proof. vm_compute. reflexivity. Qed.
Example toString_11 : Number_toString (100)%float = "100".
Proof. vm_compute. reflexivity. Qed.
Example toString_12 : Number_toString (1.7976931348623157e308)%float = "1.7976931348623157e+308".
Proof. vm_compute. reflexivity. Qed.
Example round_1 : Math_round 12.5%float = 13%float.
Proof. vm_compute. reflexivity. Qed.
Example round_2 : Math_round (-12.5)%float = (-12)%float.
Proof. vm_compute. reflexivity. Qed.
Example round_3 : Math_round (-0.2)%float = neg_zero.
Proof. vm_compute. reflexivity. Qed.
Example round_4 : Math_round (0.49999999999999994)%float = 0%float.
Proof. vm_compute. reflexivity. Qed.
Example round_5 : Math_round (200.99999999999997)%float = 201%float.
Proof. vm_compute. reflexivity. Qed.
Example floor_1 : Math_floor (-0.5)%float = (-1)%float.
Proof. vm_compute. reflexivity. Qed.
Example floor_2 : Math_floor (1730000000123 / 1000)%float = 1730000000%float.
Proof. vm_compute. reflexivity. Qed.

Example toFixed_1 : toFixed2 (1.005)%float = "1.00".
Proof. vm_compute. reflexivity. Qed.
Example toFixed_2 : toFixed2 (2.5)%float = "2.50".
Proof. vm_compute. reflexivity. Qed.
Example toFixed_3 : toFixed2 (0.125)%float = "0.13".
Proof. vm_compute. reflexivity. Qed.
Example toFixed_4 : toFixed2 (-0.001)%float = "-0.00".
Proof. vm_compute. reflexivity. Qed.
Example toFixed_5 : toFixed2 (1234.5678)%float = "1234.57".
Proof. vm_compute. reflexivity. Qed.
Example rts_1 : roundToNearestStep 0.5025%float = Ok 50250000000000000000.
Proof. vm_compute. reflexivity. Qed.
Example rts_2 : roundToNearestStep 0.50333%float = Ok 50250000000000000000.
Proof. vm_compute. reflexivity. Qed.
Example crts_1 : calculateRemainingTakerSpace 100 40 (25 * 10 ^ 18) = 180%float.
Proof. vm_compute. reflexivity. Qed.
Example crts_2 : Number_toString (calculateRemainingTakerSpace 100 0 (3 * 10 ^ 19)) = "233.33333333333331".
Proof. vm_compute. reflexivity. Qed.

(** ** calculateFillAmount *)

Lemma BigInt_div_nonzero a b : b <> 0 -> BigInt_div a b = Ok (Z.quot a b).
Proof. intros H. unfold BigInt_div. destruct (Z.eqb_spec b 0); [contradiction | reflexivity]. Qed.

Lemma calculateFillAmount_unfold takerBetAmount percentageOdds :
  calculateFillAmount takerBetAmount percentageOdds =
  match parseUnits takerBetAmount 6 with
  | Ok stake => BigInt_div (stake * percentageOdds) (10 ^ 20 - percentageOdds)
  | Err e => Err e
  end.
Proof.
  unfold calculateFillAmount, getBigInt, BigInt_toString.
  destruct (parseUnits takerBetAmount 6) as [stake | e]; simpl; [| reflexivity].
  change 100000000000000000000 with (10 ^ 20).
  destruct (BigInt_div _ _); reflexivity.
Qed.

(** C2. For every taker stake and every percentageOdds strictly between 0
    and 10^20, calculateFillAmount returns
    stake * percentageOdds / (10^20 - percentageOdds), where stake is the
    taker's amount scaled to the 6-decimal unit by parseUnits, the product
    and the quotient are exact integers and the division truncates toward
    zero; when the amount cannot be scaled, that failure is the result. A
    stake of 10 at percentageOdds = 50 * 10^18 gives 10 * 10^6, ten units. *)
Theorem calculateFillAmount_formula :
  forall (takerBetAmount : string) (percentageOdds : Z),
    0 < percentageOdds < 10 ^ 20 ->
    calculateFillAmount takerBetAmount percentageOdds =
    match parseUnits takerBetAmount 6 with
    | Ok stake => Ok (Z.quot (stake * percentageOdds) (10 ^ 20 - percentageOdds))
    | Err e => Err e
    end.
Proof.
  intros s p Hp. rewrite calculateFillAmount_unfold.
  destruct (parseUnits s 6) as [stake | e]; [| reflexivity].
  apply BigInt_div_nonzero. lia.
Qed.

Lemma calculateFillAmount_formula_witness :
  0 < 50 * 10 ^ 18 < 10 ^ 20 /\
  parseUnits "10" 6 = Ok (10 * 10 ^ 6) /\
  calculateFillAmount "10" (50 * 10 ^ 18) = Ok (10 * 10 ^ 6).
Proof.
  split; [lia |]. split; [reflexivity |].
  rewrite (calculateFillAmount_formula "10" (50 * 10 ^ 18)) by lia.
  reflexivity.
Defined.

(** C9. With percentageOdds strictly between 0 and 10^20 the denominator
    10^20 - percentageOdds is strictly positive and the division by zero is
    not reached; at percentageOdds = 10^20 the division throws; and for any
    other percentageOdds, in range or not, a value comes back:
    calculateFillAmount checks nothing itself. *)
Theorem calculateFillAmount_denominator :
  forall (takerBetAmount : string) (stake percentageOdds : Z),
    parseUnits takerBetAmount 6 = Ok stake ->
    (0 < percentageOdds < 10 ^ 20 ->
       0 < 10 ^ 20 - percentageOdds /\
       calculateFillAmount takerBetAmount percentageOdds
       = Ok (Z.quot (stake * percentageOdds) (10 ^ 20 - percentageOdds))) /\
    (percentageOdds = 10 ^ 20 ->
       calculateFillAmount takerBetAmount percentageOdds
       = Err (RangeError "Division by zero")) /\
    (percentageOdds <> 10 ^ 20 ->
       calculateFillAmount takerBetAmount percentageOdds
       = Ok (Z.quot (stake * percentageOdds) (10 ^ 20 - percentageOdds))).
Proof.
  intros s stake p Hs. rewrite calculateFillAmount_unfold, Hs.
  repeat split.
  - lia.
  - apply BigInt_div_nonzero. lia.
  - intros ->. reflexivity.
  - intros Hp. apply BigInt_div_nonzero. lia.
Qed.

Lemma calculateFillAmount_denominator_witness :
  (0 < 10 ^ 20 - 50 * 10 ^ 18 /\
   calculateFillAmount "10" (50 * 10 ^ 18) = Ok 10000000) /\
  calculateFillAmount "10" (10 ^ 20) = Err (RangeError "Division by zero") /\
  calculateFillAmount "10" (10 ^ 20 + 1) = Ok (-1000000000000000000010000000).
Proof.
  destruct (calculateFillAmount_denominator "10" 10000000 (50 * 10 ^ 18) eq_refl)
    as (Hin & _ & _).
  destruct (calculateFillAmount_denominator "10" 10000000 (10 ^ 20) eq_refl)
    as (_ & Hat & _).
  destruct (calculateFillAmount_denominator "10" 10000000 (10 ^ 20 + 1) eq_refl)
    as (_ & _ & Hout).
  split; [apply Hin; lia |]. split; [apply Hat; reflexivity |].
  rewrite Hout by lia. reflexivity.
Defined.

(** ** The odds ladder *)

Lemma checkOddsLadderValid_unfold odds :
  checkOddsLadderValid odds = Ok (Z.rem odds (10 ^ 16 * 25) =? 0).
Proof. reflexivity. Qed.

Lemma checkOddsLadderValid_iff odds :
  checkOddsLadderValid odds = Ok true <-> odds mod (10 ^ 16 * 25) = 0.
Proof.
  rewrite checkOddsLadderValid_unfold.
  split.
  - intros H. injection H as H. apply Z.eqb_eq in H.
    apply Z.rem_divide in H; [| lia]. apply Z.mod_divide; [lia | exact H].
  - intros H. f_equal. apply Z.eqb_eq.
    apply Z.mod_divide in H; [| lia]. apply Z.rem_divide; [lia | exact H].
Qed.

(** ** groupOrdersByOutcome *)

Lemma group_of_snoc l o : group_of (l ++ [o]) = Some (l ++ [o]).
Proof. destruct l; reflexivity. Qed.

Lemma group_of_default l : default [] (group_of l) = l.
Proof. destruct l; reflexivity. Qed.

Lemma groupOrdersByOutcome_step_inv g l o :
  grouped_as g l -> grouped_as (groupOrdersByOutcome_step g o) (l ++ [o]).
Proof.
  intros (H2 & H1 & Hk).
  unfold grouped_as, groupOrdersByOutcome_step.
  rewrite !List.filter_app. simpl.
  assert (E1 : maker_on_one o = isMakerBettingOutcomeOne o) by reflexivity.
  assert (E2 : maker_on_two o = negb (isMakerBettingOutcomeOne o)) by reflexivity.
  rewrite E1, E2. clear E1 E2.
  destruct (isMakerBettingOutcomeOne o); simpl.
  - rewrite H2, app_nil_r.
    destruct (List.filter maker_on_one l) as [| x r]; simpl.
    + rewrite alter_insert_eq, lookup_insert_eq. simpl.
      repeat split.
      * rewrite !lookup_insert_ne by lia. exact H1.
      * intros k Hk1 Hk2. rewrite !lookup_insert_ne by lia. auto.
    + repeat split.
      * rewrite lookup_alter_eq, H2. reflexivity.
      * rewrite lookup_alter_ne by lia. exact H1.
      * intros k Hk1 Hk2. rewrite lookup_alter_ne by lia. auto.
  - rewrite H1, app_nil_r.
    destruct (List.filter maker_on_two l) as [| x r]; simpl.
    + rewrite alter_insert_eq, lookup_insert_eq. simpl.
      repeat split.
      * rewrite !lookup_insert_ne by lia. exact H2.
      * intros k Hk1 Hk2. rewrite !lookup_insert_ne by lia. auto.
    + repeat split.
      * rewrite lookup_alter_ne by lia. exact H2.
      * rewrite lookup_alter_eq, H1. reflexivity.
      * intros k Hk1 Hk2. rewrite lookup_alter_ne by lia. auto.
Qed.

Lemma groupOrdersByOutcome_grouped orders :
  grouped_as (groupOrdersByOutcome orders) orders.
Proof.
  unfold groupOrdersByOutcome.
  induction orders as [| o l IH] using rev_ind.
  - repeat split; intros; apply lookup_empty.
  - rewrite fold_left_app. simpl. apply groupOrdersByOutcome_step_inv, IH.
Qed.

Lemma filter_split_Permutation (f : Order -> bool) (l : list Order) :
  Permutation (List.filter (fun o => negb (f o)) l ++ List.filter f l) l.
Proof.
  induction l as [| o l IH]; simpl; [constructor |].
  destruct (f o); simpl.
  - symmetry. apply Permutation_cons_app. symmetry. exact IH.
  - constructor. exact IH.
Qed.

(** C10. groupOrdersByOutcome files every order under the outcome the taker
    would bet, the opposite of the maker's: key 2 holds, in input order, the
    orders whose isMakerBettingOutcomeOne is true, key 1 those for which it
    is false, and there is no other key. Every input order is in exactly one
    of the two groups, and the two groups together are a rearrangement of the
    input. formatOrderForTaker labels an order's outcome the same way. *)
Theorem groupOrdersByOutcome_partition :
  forall (Date_toLocaleString : string -> string) (orders : list Order),
    let grouped := groupOrdersByOutcome orders in
    grouped !! 2%nat = group_of (List.filter maker_on_one orders) /\
    grouped !! 1%nat = group_of (List.filter maker_on_two orders) /\
    (forall k : nat, k <> 1%nat -> k <> 2%nat -> grouped !! k = None) /\
    (forall o, In o orders ->
       if isMakerBettingOutcomeOne o
       then In o (default [] (grouped !! 2%nat)) /\ ~ In o (default [] (grouped !! 1%nat))
       else In o (default [] (grouped !! 1%nat)) /\ ~ In o (default [] (grouped !! 2%nat))) /\
    Permutation (default [] (grouped !! 1%nat) ++ default [] (grouped !! 2%nat)) orders /\
    (forall o, exists r,
       formatOrderForTaker Date_toLocaleString o = Ok r /\
       fo_outcome r = if isMakerBettingOutcomeOne o then 2%nat else 1%nat).
Proof.
  intros D orders grouped.
  destruct (groupOrdersByOutcome_grouped orders) as (H2 & H1 & Hk).
  fold grouped in H2, H1, Hk.
  split; [exact H2 |]. split; [exact H1 |]. split; [exact Hk |].
  rewrite H2, H1, !group_of_default.
  split; [| split].
  - intros o Ho.
    destruct (isMakerBettingOutcomeOne o) eqn:E.
    + split.
      * apply List.filter_In. split; [exact Ho | exact E].
      * intros Hin. apply List.filter_In in Hin as [_ Hin].
        unfold maker_on_two in Hin. rewrite E in Hin. discriminate.
    + split.
      * apply List.filter_In. split; [exact Ho |]. unfold maker_on_two. rewrite E. reflexivity.
      * intros Hin. apply List.filter_In in Hin as [_ Hin].
        unfold maker_on_one in Hin. rewrite E in Hin. discriminate.
  - apply (filter_split_Permutation maker_on_one).
  - intros o. eexists. split; [reflexivity |]. reflexivity.
Qed.

Lemma groupOrdersByOutcome_partition_witness :
  let grouped := groupOrdersByOutcome [order_a; order_b; order_c] in
  In order_b [order_a; order_b; order_c] /\
  grouped !! 2%nat = Some [order_a; order_c] /\
  grouped !! 1%nat = Some [order_b] /\
  In order_b (default [] (grouped !! 1%nat)) /\
  ~ In order_b (default [] (grouped !! 2%nat)).
Proof.
  intros grouped.
  destruct (groupOrdersByOutcome_partition (fun s => s) [order_a; order_b; order_c])
    as (H2 & H1 & _ & Hin & _).
  assert (Hb : In order_b [order_a; order_b; order_c]) by (simpl; auto).
  split; [exact Hb |].
  split; [exact H2 |]. split; [exact H1 |].
  exact (Hin order_b Hb).
Defined.

(** ** Runs of programs *)

Lemma all_effects_bind {A B} (P : Effect -> Prop) (f : A -> Prog B) (p : Prog A) :
  all_effects P p -> (forall a, all_effects P (f a)) -> all_effects P (Prog_bind f p).
Proof.
  intros Hp Hf. induction p as [a | e | ef k IH]; simpl in *; auto.
  destruct Hp as [Hef Hk]. split; auto.
Qed.

Lemma all_effects_try_catch {A} (P : Effect -> Prop) (p : Prog A) handler :
  all_effects P p -> (forall e, all_effects P (handler e)) ->
  all_effects P (try_catch p handler).
Proof.
  intros Hp Hh. induction p as [a | e | ef k IH]; simpl in *; auto.
  destruct Hp as [Hef Hk]. split; auto.
Qed.

Lemma all_effects_lift {A} (P : Effect -> Prop) (r : result A) : all_effects P (lift r).
Proof. destruct r; exact I. Qed.

Lemma all_effects_run {A} (P : Effect -> Prop) (p : Prog A) :
  all_effects P p -> forall w c, Forall P (fst (run w p c)).
Proof.
  induction p as [a | e | ef k IH]; simpl; intros Hp w c; try constructor.
  destruct Hp as [Hef Hk].
  destruct (answer w ef c) as [x c'] eqn:Ea.
  specialize (IH x (Hk x) w c').
  destruct (run w (k x) c') as [trace r]. simpl in *.
  constructor; assumption.
Qed.

Lemma trace_Do {A} w ef (k : Response ef -> Prog A) c :
  fst (run w (Do ef k) c)
  = ef :: fst (run w (k (fst (answer w ef c))) (snd (answer w ef c))).
Proof.
  simpl. destruct (answer w ef c) as [x c']. simpl.
  destruct (run w (k x) c'). reflexivity.
Qed.

Lemma outcome_Do {A} w ef (k : Response ef -> Prog A) c :
  snd (run w (Do ef k) c)
  = snd (run w (k (fst (answer w ef c))) (snd (answer w ef c))).
Proof.
  simpl. destruct (answer w ef c) as [x c']. simpl.
  destruct (run w (k x) c'). reflexivity.
Qed.

Lemma require_private_key_present w message key rest :
  w_env w "PRIVATE_KEY" = Some (String key rest) ->
  forall A (f : string -> Prog A) handler c,
    run w (try_catch (Prog_bind f (require_private_key message)) handler) c
    = let '(trace, r) := run w (try_catch (f (String key rest)) handler) c in
      (GetEnv "PRIVATE_KEY" :: trace, r).
Proof. intros H A f handler c. simpl. rewrite H. reflexivity. Qed.

Lemma require_private_key_absent w message :
  (w_env w "PRIVATE_KEY" = None \/ w_env w "PRIVATE_KEY" = Some "") ->
  forall A (f : string -> Prog A) handler c,
    run w (try_catch (Prog_bind f (require_private_key message)) handler) c
    = let '(trace, r) := run w (handler (JsError message)) c in
      (GetEnv "PRIVATE_KEY" :: trace, r).
Proof. intros [H | H] A f handler c; simpl; rewrite H; reflexivity. Qed.

(** ** The fill payload *)

Lemma fillOrder_all_placeholders orders takerAmounts :
  all_effects fill_placeholders (orderFiller.fillOrder orders takerAmounts).
Proof.
  unfold orderFiller.fillOrder.
  apply all_effects_try_catch; [| intros e; simpl; auto].
  apply all_effects_bind.
  { simpl. split; [exact I |]. intros [[| c r] |]; exact I. }
  intros key. simpl. split; [exact I |]. intros wallet.
  apply all_effects_bind; [apply all_effects_lift |]. intros _.
  simpl. split; [exact I |]. intros saltBytes.
  split; [repeat split |]. intros sig.
  apply all_effects_bind; [apply all_effects_lift |]. intros signature.
  simpl. split; [repeat split |]. intros response.
  apply all_effects_bind; [apply all_effects_lift |]. intros result.
  destruct (negb _); exact I.
Qed.


Lemma trace_key_present w message key rest :
  w_env w "PRIVATE_KEY" = Some (String key rest) ->
  forall A (f : string -> Prog A) handler c,
    fst (run w (try_catch (Prog_bind f (require_private_key message)) handler) c)
    = GetEnv "PRIVATE_KEY" :: fst (run w (try_catch (f (String key rest)) handler) c).
Proof.
  intros H A f handler c. rewrite (require_private_key_present _ _ _ _ H).
  destruct (run w _ c). reflexivity.
Qed.

Lemma outcome_key_present w message key rest :
  w_env w "PRIVATE_KEY" = Some (String key rest) ->
  forall A (f : string -> Prog A) handler c,
    snd (run w (try_catch (Prog_bind f (require_private_key message)) handler) c)
    = snd (run w (try_catch (f (String key rest)) handler) c).
Proof.
  intros H A f handler c. rewrite (require_private_key_present _ _ _ _ H).
  destruct (run w _ c). reflexivity.
Qed.

Ltac expose :=
  cbn [try_catch Prog_bind mbind mret Prog_mbind Prog_ret attempt perform lift id].

Ltac step_run :=
  expose;
  first [rewrite trace_Do | rewrite outcome_Do];
  cbn [answer fst snd].

(** ** fillOrder and the lengths of its arrays *)




(** ** cancelOrders and the empty list *)

(** C5, as the code has it. cancelOrders validates nothing about
    orderHashes. For every list, the empty one included, once PRIVATE_KEY
    is set it draws the 32-byte salt, reads the clock and asks for a
    signature over the Cancel typed data carrying exactly that list; when
    the signer and the API answer, it has posted
    {signature, orderHashes, salt, maker, timestamp} and returns the
    response. With PRIVATE_KEY unset or empty it throws before any salt or
    signature: that is the only check made. *)
Theorem cancelOrders_no_validation :
  forall (w : World) (orderHashes : list string),
    (forall key,
        w_env w "PRIVATE_KEY" = Some key -> key <> "" ->
        exists bufferPrivateKey payload rest,
          trace_of w (orderCanceller.cancelOrders orderHashes)
          = GetEnv "PRIVATE_KEY" :: RandomBytes 32 :: DateNow
            :: SignTypedDataV4 bufferPrivateKey payload :: rest /\
          cm_orderHashes (cp_message payload) = orderHashes /\
          forall sig response,
            w_signTypedDataV4 w bufferPrivateKey payload = Ok sig ->
            w_fetch w "https://api.sx.bet/orders/cancel/v2?chainVersion=SXR"
              (CancelBody {|
                 ca_signature := sig;
                 ca_orderHashes := orderHashes;
                 ca_salt := cd_salt (cp_domain payload);
                 ca_maker := "0xa6fa134f76496300419E6dbee487239F09d247aE";
                 ca_timestamp := cm_timestamp (cp_message payload)
               |}) = Ok response ->
            outcome_of w (orderCanceller.cancelOrders orderHashes) = Ok response) /\
    (w_env w "PRIVATE_KEY" = None \/ w_env w "PRIVATE_KEY" = Some "" ->
       trace_of w (orderCanceller.cancelOrders orderHashes)
       = [GetEnv "PRIVATE_KEY";
          ConsoleError "Error cancelling orders:" (JsError "PRIVATE_KEY not found in .env file")] /\
       outcome_of w (orderCanceller.cancelOrders orderHashes)
       = Err (JsError "PRIVATE_KEY not found in .env file")).
Proof.
  intros w orderHashes. split.
  - intros key Henv Hkey.
    destruct key as [| c r]; [congruence |].
    unfold trace_of, outcome_of, orderCanceller.cancelOrders. expose.
    rewrite (trace_key_present _ _ _ _ Henv), (outcome_key_present _ _ _ _ Henv).
    do 6 step_run.
    match goal with |- context [hex_of_bytes ?bs] => generalize (hex_of_bytes bs) end.
    intros salt.
    match goal with |- context [Math_floor ?x] => generalize (Math_floor x) end.
    intros timestamp.
    eexists. eexists. eexists. split; [reflexivity |]. split; [reflexivity |].
    intros sig response Hsig Hfetch.
    cbn [cp_message cp_domain cd_salt cm_timestamp
         orderCanceller.getCancelOrderEIP712Payload] in Hfetch.
    rewrite Hsig. step_run.
    match goal with
    | |- context [w_fetch w ?url ?body] =>
        replace (w_fetch w url body) with (@Ok ApiResponse response)
          by (symmetry; exact Hfetch)
    end.
    reflexivity.
  - intros Hkey. unfold trace_of, outcome_of, orderCanceller.cancelOrders. expose.
    rewrite (require_private_key_absent _ _ Hkey). split; reflexivity.
Qed.

Lemma cancelOrders_no_validation_witness :
  exists bufferPrivateKey payload rest,
    trace_of example_world (orderCanceller.cancelOrders [])
    = GetEnv "PRIVATE_KEY" :: RandomBytes 32 :: DateNow
      :: SignTypedDataV4 bufferPrivateKey payload :: rest /\
    cm_orderHashes (cp_message payload) = [].
Proof.
  destruct (cancelOrders_no_validation example_world []) as [H _].
  destruct (H "0x0123" eq_refl ltac:(discriminate))
    as (k & payload & rest & Htrace & Hhashes & _).
  exists k, payload, rest. split; [exact Htrace | exact Hhashes].
Defined.

(** C5, as stated, fails: for the empty list cancelOrders draws a salt, has
    the payload signed, assembles and posts it, and returns the response. *)
Lemma cancelOrders_accepts_empty :
  is_ok (outcome_of example_world (orderCanceller.cancelOrders [])) = true /\
  existsb is_signing (trace_of example_world (orderCanceller.cancelOrders [])) = true /\
  existsb (fun ef => match ef with
                     | Fetch _ (CancelBody p) =>
                         match ca_orderHashes p with [] => true | _ => false end
                     | _ => false
                     end)
    (trace_of example_world (orderCanceller.cancelOrders [])) = true.
Proof. vm_compute. repeat split. Qed.

(** ** The order hash *)

Arguments getAddress : simpl never.
Arguments getBytes : simpl never.
Arguments getUint : simpl never.
Arguments getChecksumAddress : simpl never.
Arguments Keccak.keccak256 : simpl never.
Arguments keccak256 : simpl never.
Arguments hexlify : simpl never.
Arguments parseUnits : simpl never.
Arguments Number_toString : simpl never.
Arguments be_bytes : simpl never.

Lemma be_bytes_length n z : length (be_bytes n z) = n.
Proof.
  revert z. induction n as [| n IH]; intros z; [reflexivity |].
  change (be_bytes (S n) z)
    with (be_bytes n (z / 256) ++ [byte_of_N (Z.to_N (z mod 256))]).
  rewrite length_app, IH. simpl. lia.
Qed.

Lemma hex_pairs_length r : forall bs,
  hex_pairs r = Some bs -> String.length r = (2 * length bs)%nat.
Proof.
  assert (H : (forall bs, hex_pairs r = Some bs -> String.length r = (2 * length bs)%nat) /\
              (forall c bs, hex_pairs (String c r) = Some bs ->
                            String.length (String c r) = (2 * length bs)%nat)).
  { induction r as [| a r [IH1 IH2]].
    - split.
      + intros bs H. injection H as <-. reflexivity.
      + intros c bs H. discriminate.
    - split; [exact (IH2 a) |].
      intros c bs H. simpl in H.
      destruct (hex_value c); [| discriminate].
      destruct (hex_value a); [| discriminate].
      destruct (hex_pairs r) as [bs' |] eqn:E; [| discriminate].
      injection H as <-. simpl. rewrite (IH1 bs' eq_refl). lia. }
  exact (proj1 H).
Qed.

Lemma getBytes_length s bs :
  getBytes s = Ok bs -> String.length s = (2 + 2 * length bs)%nat.
Proof.
  unfold getBytes.
  destruct s as [| [[] [] [] [] [] [] [] []] [| x r]]; try discriminate.
  destruct (_ || _); [| discriminate].
  destruct (hex_pairs r) as [bs' |] eqn:E; [| discriminate].
  intros H. injection H as <-. simpl. rewrite (hex_pairs_length r bs' E). lia.
Qed.

Lemma length_string_of_list_ascii l :
  String.length (string_of_list_ascii l) = length l.
Proof. induction l as [| c l IH]; simpl; congruence. Qed.

Lemma length_list_ascii_of_string s :
  length (list_ascii_of_string s) = String.length s.
Proof. induction s as [| c s IH]; simpl; congruence. Qed.

Lemma length_append_str (s t : string) :
  String.length (s +:+ t) = (String.length s + String.length t)%nat.
Proof.
  induction s as [| c s IH]; [reflexivity |].
  change (String c s +:+ t) with (String c (s +:+ t)).
  cbn [String.length]. rewrite IH. reflexivity.
Qed.

Lemma getAddress_length v a : getAddress v = Ok a -> String.length a = 42%nat.
Proof.
  unfold getAddress.
  set (body := match v with String "0" (String "x" r) => r | _ => v end).
  destruct (Nat.eqb_spec (String.length body) 40) as [Hlen |]; [| discriminate].
  destruct (forall_chars is_hex_digit body); [| discriminate]. simpl.
  destruct (_ && _ && _); [discriminate |].
  intros H. injection H as <-. unfold getChecksumAddress.
  rewrite length_append_str, length_string_of_list_ascii, length_imap, length_map,
    length_list_ascii_of_string, Hlen. reflexivity.
Qed.

Lemma pack_address_length v bs : _pack (address v) = Ok bs -> length bs = 20%nat.
Proof.
  simpl. destruct (getAddress v) as [a | e] eqn:Ea; [| discriminate]. simpl.
  intros H. apply getBytes_length in H. apply getAddress_length in Ea. lia.
Qed.

Lemma pack_bytes32_length v bs :
  _pack (bytes32 v) = Ok bs -> getBytes v = Ok bs /\ length bs = 32%nat.
Proof.
  simpl. destruct (getBytes v) as [b | e]; [| discriminate]. simpl.
  destruct (Nat.eqb_spec (length b) 32); [| discriminate].
  intros H. injection H as <-. auto.
Qed.

Lemma getUint_nonneg v z : getUint v = Ok z -> 0 <= z.
Proof.
  unfold getUint.
  destruct (match v with BN z0 => _ | BNhex _ => _ end) as [a | e]; [| discriminate].
  change (a ← Ok a; if a <? 0 then Err (NUMERIC_FAULT "unsigned value cannot be negative") else Ok a)
    with (if a <? 0 then Err (NUMERIC_FAULT "unsigned value cannot be negative") else Ok a).
  destruct (Z.ltb_spec a 0) as [Hneg | Hpos]; [discriminate |].
  intros Hz. injection Hz as <-. exact Hpos.
Qed.

Lemma pack_uint256_length v bs :
  _pack (uint256 v) = Ok bs ->
  exists z, getUint v = Ok z /\ 0 <= z < 2 ^ 256 /\ bs = be_bytes 32 z.
Proof.
  cbn [_pack]. destruct (getUint v) as [z | e] eqn:E; [| discriminate].
  change (v0 ← Ok z; if 2 ^ 256 <=? v0 then Err (BUFFER_OVERRUN "padding exceeds data length")
                     else Ok (be_bytes 32 v0))
    with (if 2 ^ 256 <=? z then Err (BUFFER_OVERRUN "padding exceeds data length")
          else Ok (be_bytes 32 z)).
  destruct (Z.leb_spec (2 ^ 256) z) as [Hbig | Hsmall]; [discriminate |].
  intros Hbs. injection Hbs as <-. exists z.
  split; [reflexivity |]. split; [| reflexivity].
  split; [exact (getUint_nonneg v z E) | exact Hsmall].
Qed.

Lemma hex_pairs_hex_of_bytes bs : hex_pairs (hex_of_bytes bs) = Some bs.
Proof.
  induction bs as [| b bs IH]; [reflexivity |].
  cbn [hex_of_bytes hex_pairs]. rewrite IH.
  destruct b; reflexivity.
Qed.

Lemma getBytes_hexlify bs : getBytes (hexlify bs) = Ok bs.
Proof.
  unfold hexlify, getBytes.
  change ("0x" +:+ hex_of_bytes bs) with (String "0" (String "x" (hex_of_bytes bs))).
  cbn [Ascii.eqb Bool.eqb orb]. rewrite hex_pairs_hex_of_bytes. reflexivity.
Qed.

Lemma getUint_BN z u : getUint (BN z) = Ok u -> u = z.
Proof.
  unfold getUint.
  change (v ← Ok z; if v <? 0 then Err (NUMERIC_FAULT "unsigned value cannot be negative") else Ok v)
    with (if z <? 0 then Err (NUMERIC_FAULT "unsigned value cannot be negative") else Ok z).
  destruct (z <? 0); [discriminate |]. intros H. injection H as <-. reflexivity.
Qed.

Lemma bind_Ok_inv {A B} (m : result A) (f : A -> result B) b :
  (a ← m; f a) = Ok b -> exists a, m = Ok a /\ f a = Ok b.
Proof. destruct m as [a | e]; [| discriminate]. intros H. exists a. auto. Qed.

Lemma mapM_result_Forall2 {A B} (f : A -> result B) l : forall bs,
  mapM_result f l = Ok bs -> Forall2 (fun a b => f a = Ok b) l bs.
Proof.
  induction l as [| a l IH]; intros bs H.
  - injection H as <-. constructor.
  - cbn [mapM_result] in H.
    apply bind_Ok_inv in H as (b & Hb & H).
    apply bind_Ok_inv in H as (bs' & Hbs & H).
    injection H as <-. constructor; auto.
Qed.

Lemma solidityPacked_hash_fields order pre :
  solidityPacked (orderPoster.hash_fields order) = Ok pre ->
  packed_order order pre /\ length pre = 221%nat.
Proof.
  unfold solidityPacked, orderPoster.hash_fields. intros H.
  apply bind_Ok_inv in H as (tight & H & Hpre). injection Hpre as <-.
  apply mapM_result_Forall2 in H.
  apply Forall2_cons_inv_l in H as (b1 & t1 & H1 & H & ->).
  apply Forall2_cons_inv_l in H as (b2 & t2 & H2 & H & ->).
  apply Forall2_cons_inv_l in H as (b3 & t3 & H3 & H & ->).
  apply Forall2_cons_inv_l in H as (b4 & t4 & H4 & H & ->).
  apply Forall2_cons_inv_l in H as (b5 & t5 & H5 & H & ->).
  apply Forall2_cons_inv_l in H as (b6 & t6 & H6 & H & ->).
  apply Forall2_cons_inv_l in H as (b7 & t7 & H7 & H & ->).
  apply Forall2_cons_inv_l in H as (b8 & t8 & H8 & H & ->).
  apply Forall2_cons_inv_l in H as (b9 & t9 & H9 & H & ->).
  apply Forall2_nil_inv_l in H as ->.
  apply pack_bytes32_length in H1 as [H1 L1].
  pose proof (pack_address_length _ _ H2) as L2. cbn [_pack] in H2.
  apply pack_uint256_length in H3 as (z3 & Hz3 & R3 & ->). apply getUint_BN in Hz3 as ->.
  apply pack_uint256_length in H4 as (z4 & Hz4 & R4 & ->). apply getUint_BN in Hz4 as ->.
  apply pack_uint256_length in H5 as (z5 & Hz5 & R5 & ->). apply getUint_BN in Hz5 as ->.
  apply pack_uint256_length in H6 as (z6 & Hz6 & R6 & ->).
  pose proof (pack_address_length _ _ H7) as L7. cbn [_pack] in H7.
  pose proof (pack_address_length _ _ H8) as L8. cbn [_pack] in H8.
  cbn [_pack] in H9. injection H9 as <-.
  split.
  - exists b1, b2, b7, b8, z6.
    split; [exact H1 |]. split; [exact L1 |]. split; [exact H2 |]. split; [exact L2 |].
    split; [exact H7 |]. split; [exact L7 |]. split; [exact H8 |]. split; [exact L8 |].
    split; [exact Hz6 |]. split; [exact R3 |]. split; [exact R4 |].
    split; [exact R5 |]. split; [exact R6 |].
    unfold order_preimage. cbn [concat]. rewrite app_nil_r. reflexivity.
  - cbn [concat]. rewrite !length_app, !be_bytes_length, L1, L2, L7, L8.
    reflexivity.
Qed.

Lemma all_effects_bind_lift {A B} (P : Effect -> Prop) (f : A -> Prog B) (r : result A) :
  (forall a, r = Ok a -> all_effects P (f a)) -> all_effects P (Prog_bind f (lift r)).
Proof. destruct r as [a | e]; simpl; auto. Qed.

Lemma postOrder_all_signs_packed_hash marketHash isOne betSizeUSDC impliedOdds :
  all_effects (signs_packed_hash marketHash isOne betSizeUSDC impliedOdds)
    (orderPoster.postOrder marketHash isOne betSizeUSDC impliedOdds).
Proof.
  unfold orderPoster.postOrder.
  apply all_effects_try_catch; [| intros e; simpl; auto].
  apply all_effects_bind_lift. intros totalBetSize Htbs.
  apply all_effects_bind_lift. intros percentageOdds Hodds.
  split; [exact I |]. intros now.
  split; [exact I |]. intros saltBytes.
  apply all_effects_bind_lift. intros hash Hhash.
  apply bind_Ok_inv in Hhash as (pre & Hpre & Hhash). injection Hhash as <-.
  pose proof (solidityPacked_hash_fields _ _ Hpre) as [Hpacked Hlen].
  match type of Hpacked with packed_order ?o _ => set (order := o) in * end.
  assert (Hbuilt : built_by_postOrder marketHash isOne betSizeUSDC impliedOdds order).
  { repeat split; assumption. }
  apply all_effects_bind.
  { split; [exact I |]. intros [[| c r] |]; exact I. }
  intros key. split; [exact I |]. intros wallet.
  apply all_effects_bind; [apply all_effects_lift |]. intros _.
  apply all_effects_bind_lift. intros message Hmessage.
  unfold keccak256 in Hmessage. rewrite getBytes_hexlify in Hmessage.
  injection Hmessage as <-.
  split.
  { exists order, pre. auto. }
  intros sig.
  apply all_effects_bind; [apply all_effects_lift |]. intros signature.
  split.
  { exists order, signature, pre. repeat split; try assumption.
    unfold solidityPackedKeccak256. rewrite Hpre. reflexivity. }
  intros response. apply all_effects_lift.
Qed.



(** ** Decimal odds *)

(** C8, as the code has it. toDecimalOdds (and impliedToDecimalOdds, the
    same body) returns the double 1 / impliedOdds for every Number and never
    fails: there is no domain check. *)
Theorem toDecimalOdds_total :
  forall impliedOdds : Number,
    toDecimalOdds impliedOdds = Ok (1 / impliedOdds)%float /\
    impliedToDecimalOdds impliedOdds = Ok (1 / impliedOdds)%float.
Proof. intros x. split; reflexivity. Qed.

(** C8, as stated, fails: for impliedOdds <= 0 a value comes back, not an
    error. 1 / 0 is Infinity, 1 / -0 is -Infinity, 1 / -0.5 is -2. *)
Lemma toDecimalOdds_returns_for_nonpositive :
  (0 <=? 0)%float = true /\ toDecimalOdds 0 = Ok infinity /\
  (neg_zero <=? 0)%float = true /\ toDecimalOdds neg_zero = Ok neg_infinity /\
  (-0.5 <=? 0)%float = true /\ toDecimalOdds (-0.5) = Ok (-2)%float /\
  impliedToDecimalOdds 0 = Ok infinity /\
  impliedToDecimalOdds (-0.5) = Ok (-2)%float.
Proof. vm_compute. repeat split. Qed.

(** ** Rounding to the odds ladder *)

Lemma located_floor num den mrs :
  0 < den -> located num den mrs ->
  shr_m mrs * den <= num < (shr_m mrs + 1) * den.
Proof.
  intros Hden [Hm H]. destruct (shr_r mrs), (shr_s mrs); nia.
Qed.

Lemma located_shr_1 num den mrs :
  0 < den -> located num den mrs -> located num (2 * den) (shr_1 mrs).
Proof.
  intros Hden [Hm H]. destruct mrs as [m r s].
  cbn [shr_m shr_r shr_s] in Hm, H.
  destruct m as [| p | p]; [| | lia].
  - destruct r, s; unfold located; cbn [shr_1 shr_m shr_r shr_s orb];
      (split; [lia | lia]).
  - destruct p as [p | p |]; destruct r, s; unfold located;
      cbn [shr_1 shr_m shr_r shr_s orb]; (split; [lia | lia]).
Qed.

Lemma iter_pos_nat {A} (f : A -> A) (p : positive) (x : A) :
  SpecFloat.iter_pos f p x = Nat.iter (Pos.to_nat p) f x.
Proof.
  revert x. induction p as [p IH | p IH |]; intros x; cbn [SpecFloat.iter_pos].
  - rewrite !IH, <- Nat.iter_add, <- Nat.iter_succ_r.
    f_equal. lia.
  - rewrite !IH, <- Nat.iter_add. f_equal. lia.
  - reflexivity.
Qed.

Lemma located_iter num den mrs (n : nat) :
  0 < den -> located num den mrs ->
  located num (2 ^ Z.of_nat n * den) (Nat.iter n shr_1 mrs).
Proof.
  intros Hden H. induction n as [| n IH].
  - change (located num (1 * den) mrs). rewrite Z.mul_1_l. exact H.
  - rewrite Nat2Z.inj_succ, Z.pow_succ_r by lia.
    change (Nat.iter (S n) shr_1 mrs) with (shr_1 (Nat.iter n shr_1 mrs)).
    rewrite <- Z.mul_assoc. apply located_shr_1; [| exact IH].
    apply Z.mul_pos_pos; [apply Z.pow_pos_nonneg; lia | exact Hden].
Qed.

Lemma digits2_pos_bounds p :
  2 ^ (Z.pos (digits2_pos p) - 1) <= Z.pos p < 2 ^ Z.pos (digits2_pos p).
Proof.
  induction p as [p IH | p IH |]; cbn [digits2_pos].
  - rewrite Pos2Z.inj_succ.
    replace (Z.succ (Z.pos (digits2_pos p)) - 1) with (Z.succ (Z.pos (digits2_pos p) - 1)) by lia.
    rewrite !Z.pow_succ_r by lia. lia.
  - rewrite Pos2Z.inj_succ.
    replace (Z.succ (Z.pos (digits2_pos p)) - 1) with (Z.succ (Z.pos (digits2_pos p) - 1)) by lia.
    rewrite !Z.pow_succ_r by lia. lia.
  - simpl. lia.
Qed.

Lemma Zdigits2_nonneg m : 0 <= Zdigits2 m.
Proof. destruct m; simpl; lia. Qed.

(** A non-negative integer below [2 ^ k] has at most [k] binary digits. *)
Lemma Zdigits2_le m k : 0 <= m -> 0 <= k -> m < 2 ^ k -> Zdigits2 m <= k.
Proof.
  intros Hm Hk H. destruct m as [| p | p]; [simpl; lia | | lia].
  cbn [Zdigits2]. pose proof (digits2_pos_bounds p) as [Hlo _].
  destruct (Z.le_gt_cases (Z.pos (digits2_pos p)) k) as [| Hgt]; [assumption |].
  exfalso.
  assert (2 ^ k <= 2 ^ (Z.pos (digits2_pos p) - 1)) by (apply Z.pow_le_mono_r; lia).
  lia.
Qed.

Lemma shr_located num den mrs e n :
  0 < den -> located num den mrs ->
  let '(mrs', e') := shr mrs e n in
  e' = e + Z.max 0 n /\ located num (2 ^ Z.max 0 n * den) mrs'.
Proof.
  intros Hden H. unfold shr. destruct n as [| p | p].
  - rewrite Z.max_l by lia. rewrite Z.add_0_r. change (2 ^ 0) with 1.
    rewrite Z.mul_1_l. auto.
  - rewrite Z.max_r by lia. split; [reflexivity |].
    rewrite iter_pos_nat.
    pose proof (located_iter num den mrs (Pos.to_nat p) Hden H) as L.
    rewrite positive_nat_Z in L. exact L.
  - rewrite Z.max_l by lia. rewrite Z.add_0_r. change (2 ^ 0) with 1.
    rewrite Z.mul_1_l. auto.
Qed.

Lemma shr_m_record_of_loc m l : shr_m (shr_record_of_loc m l) = m.
Proof. destruct l as [| []]; reflexivity. Qed.

Lemma loc_of_record_of_loc l m : loc_of_shr_record (shr_record_of_loc m l) = l.
Proof. destruct l as [| []]; reflexivity. Qed.

Lemma located_exact m : 0 <= m -> located m 1 (shr_record_of_loc m loc_Exact).
Proof.
  intros H. unfold located. cbn [shr_record_of_loc shr_m shr_r shr_s]. lia.
Qed.

Lemma round_nearest_even_le num den mrs U :
  0 < den -> located num den mrs -> num <= U * den ->
  0 <= round_nearest_even (shr_m mrs) (loc_of_shr_record mrs) <= U.
Proof.
  intros Hden [Hm H] HU. destruct mrs as [m r s].
  cbn [shr_m shr_r shr_s] in Hm, H.
  destruct r, s; cbn [shr_m loc_of_shr_record round_nearest_even];
    try destruct (Z.even m); nia.
Qed.

Lemma fexp_le_0 d e : d + e <= 53 -> fexp prec emax (d + e) <= 0.
Proof. unfold fexp, SpecFloat.emin, prec, emax. lia. Qed.

Lemma pow2_split a b : 0 <= a -> 0 <= b -> 2 ^ (a + b) = 2 ^ a * 2 ^ b.
Proof. intros. apply Z.pow_add_r; assumption. Qed.

(** Rounding a value that is at most the integer [B]: the result is zero
    or a positive float that is at most [B]. *)
Lemma binary_round_aux_le mx ex lx num den B :
  0 <= mx -> 0 < den -> ex <= 0 -> 0 < B <= 2 ^ 52 ->
  located num den (shr_record_of_loc mx lx) ->
  num <= B * 2 ^ (- ex) * den ->
  binary_round_aux prec emax false mx ex lx = S754_zero false \/
  exists m e,
    binary_round_aux prec emax false mx ex lx = S754_finite false m e /\
    e <= 0 /\ Z.pos m <= B * 2 ^ (- e).
Proof.
  intros Hmx Hden Hex HB Hloc Hnum.
  assert (Hpow : forall k, 0 < 2 ^ k \/ k < 0).
  { intros k. destruct (Z.le_gt_cases 0 k); [left; apply Z.pow_pos_nonneg; lia | right; lia]. }
  (* the magnitude of the input *)
  pose proof (located_floor _ _ _ Hden Hloc) as [Hfloor _].
  rewrite shr_m_record_of_loc in Hfloor.
  assert (H2ex : 0 < 2 ^ (- ex)) by (apply Z.pow_pos_nonneg; lia).
  assert (Hmx' : mx <= B * 2 ^ (- ex)) by nia.
  assert (Hd1 : Zdigits2 mx + ex <= 53).
  { assert (Zdigits2 mx <= 53 - ex); [| lia].
    apply Zdigits2_le; [assumption | lia |].
    replace (53 - ex) with (53 + - ex) by lia. rewrite pow2_split by lia.
    change (2 ^ 53) with (2 * 2 ^ 52). nia. }
  unfold binary_round_aux, shr_fexp.
  set (n1 := fexp prec emax (Zdigits2 mx + ex) - ex).
  pose proof (shr_located num den _ ex n1 Hden Hloc) as Hs1.
  destruct (shr (shr_record_of_loc mx lx) ex n1) as [mrs1 e1].
  destruct Hs1 as [He1 Hloc1].
  assert (He1' : e1 <= 0).
  { pose proof (fexp_le_0 _ _ Hd1). subst n1. lia. }
  assert (Hk1 : 0 < 2 ^ Z.max 0 n1) by (apply Z.pow_pos_nonneg; lia).
  assert (H2e1 : 0 < 2 ^ (- e1)) by (apply Z.pow_pos_nonneg; lia).
  assert (Hsplit1 : 2 ^ (- ex) = 2 ^ (- e1) * 2 ^ Z.max 0 n1).
  { rewrite <- pow2_split by lia. f_equal. lia. }
  assert (Hden1 : 0 < 2 ^ Z.max 0 n1 * den) by nia.
  assert (Hnum1 : num <= B * 2 ^ (- e1) * (2 ^ Z.max 0 n1 * den)).
  { rewrite Hsplit1 in Hnum. lia. }
  pose proof (round_nearest_even_le _ _ _ _ Hden1 Hloc1 Hnum1) as Hm2.
  set (m2 := round_nearest_even (shr_m mrs1) (loc_of_shr_record mrs1)) in *.
  assert (Hd2 : Zdigits2 m2 + e1 <= 53).
  { assert (Zdigits2 m2 <= 53 - e1); [| lia].
    apply Zdigits2_le; [lia | lia |].
    replace (53 - e1) with (53 + - e1) by lia. rewrite pow2_split by lia.
    change (2 ^ 53) with (2 * 2 ^ 52). nia. }
  set (n2 := fexp prec emax (Zdigits2 m2 + e1) - e1).
  pose proof (shr_located m2 1 _ e1 n2 ltac:(lia) (located_exact m2 (proj1 Hm2))) as Hs2.
  destruct (shr (shr_record_of_loc m2 loc_Exact) e1 n2) as [mrs3 e3].
  destruct Hs2 as [He3 Hloc3].
  assert (He3' : e3 <= 0).
  { pose proof (fexp_le_0 _ _ Hd2). subst n2. lia. }
  assert (Hk2 : 0 < 2 ^ Z.max 0 n2) by (apply Z.pow_pos_nonneg; lia).
  assert (H2e3 : 0 < 2 ^ (- e3)) by (apply Z.pow_pos_nonneg; lia).
  assert (Hsplit2 : 2 ^ (- e1) = 2 ^ (- e3) * 2 ^ Z.max 0 n2).
  { rewrite <- pow2_split by lia. f_equal. lia. }
  assert (Hden3 : 0 < 2 ^ Z.max 0 n2 * 1) by lia.
  pose proof (located_floor _ _ _ Hden3 Hloc3) as [Hfloor3 _].
  destruct Hloc3 as [Hm3 _].
  assert (Hm3' : shr_m mrs3 <= B * 2 ^ (- e3)).
  { apply (Z.mul_le_mono_pos_r _ _ (2 ^ Z.max 0 n2) Hk2).
    rewrite Hsplit2 in Hm2. lia. }
  destruct (shr_m mrs3) as [| m3 | m3]; [left; reflexivity | | lia].
  right. exists m3, e3.
  replace (e3 <=? emax - prec) with true
    by (symmetry; apply Z.leb_le; unfold emax, prec; lia).
  auto.
Qed.

Lemma bounded_canonical m e :
  bounded prec emax m e = true ->
  Z.pos m < 2 ^ 53 /\ -1074 <= e /\
  (Z.pos (digits2_pos m) = 53 \/ e = -1074).
Proof.
  unfold bounded, canonical_mantissa, fexp, SpecFloat.emin, prec, emax.
  intros H. apply andb_prop in H as [H1 H2].
  apply Z.eqb_eq in H1. apply Z.leb_le in H2.
  pose proof (digits2_pos_bounds m) as [_ Hhi].
  assert (Hd : Z.pos (digits2_pos m) <= 53) by lia.
  split; [| lia].
  assert (2 ^ Z.pos (digits2_pos m) <= 2 ^ 53) by (apply Z.pow_le_mono_r; lia).
  lia.
Qed.

Lemma SFltb_finite_pos m e m' e' :
  SFltb (S754_finite false m e) (S754_finite false m' e') = true ->
  e < e' \/ (e = e' /\ (m < m')%positive).
Proof.
  unfold SFltb, SFcompare.
  destruct (Z.compare_spec e e') as [Heq | Hlt | Hgt]; [| auto | discriminate].
  rewrite Pos.compare_cont_spec. cbn [Pos.switch_Eq].
  destruct (Pos.compare_spec m m') as [H | H | H]; try discriminate. auto.
Qed.

Lemma below_one m e :
  bounded prec emax m e = true ->
  SFltb (S754_finite false m e) SF_one = true ->
  e <= -53 /\ Z.pos m < 2 ^ 53.
Proof.
  intros Hb Hlt. destruct (bounded_canonical m e Hb) as (Hm & He & Hc).
  split; [| exact Hm].
  destruct (SFltb_finite_pos m e 4503599627370496 (-52) Hlt) as [Hlt' | [Heq Hlt']];
    [lia |].
  exfalso. destruct Hc as [Hd | Hd]; [| rewrite Heq in Hd; discriminate].
  pose proof (digits2_pos_bounds m) as [Hlo _]. rewrite Hd in Hlo.
  change (2 ^ (53 - 1)) with 4503599627370496 in Hlo.
  apply Pos2Z.pos_lt_pos in Hlt'. clear - Hlo Hlt'. lia.
Qed.

Lemma SFmul_below_one_le_100 m e :
  bounded prec emax m e = true ->
  SFltb (S754_finite false m e) SF_one = true ->
  SF64mul (S754_finite false m e) SF_100 = S754_zero false \/
  exists mp ep,
    SF64mul (S754_finite false m e) SF_100 = S754_finite false mp ep /\
    ep <= 0 /\ Z.pos mp <= 100 * 2 ^ (- ep).
Proof.
  intros Hb Hlt. destruct (below_one m e Hb Hlt) as [He Hm].
  unfold SF64mul, SFmul, SF_100. cbn [xorb].
  apply (binary_round_aux_le _ _ _ (Z.pos (m * 7036874417766400)) 1 100).
  - lia.
  - lia.
  - lia.
  - change (2 ^ 52) with 4503599627370496. lia.
  - apply located_exact. lia.
  - rewrite Z.mul_1_r, Pos2Z.inj_mul.
    replace (- (e + -46)) with (46 + (- e - 53) + 53) by lia.
    rewrite !pow2_split by lia.
    assert (0 < 2 ^ (- e - 53)) by (apply Z.pow_pos_nonneg; lia).
    change (2 ^ 46) with 70368744177664. change (2 ^ 53) with 9007199254740992 in *.
    nia.
Qed.

Lemma new_location_even_located m D q r :
  0 < D -> Z.even D = true -> 0 <= q -> m = D * q + r -> 0 <= r < D ->
  located m D (shr_record_of_loc q (new_location D r)).
Proof.
  intros HD Heven Hq Hm Hr. unfold new_location. rewrite Heven.
  unfold new_location_even.
  destruct (Z.eqb_spec r 0) as [-> | Hr0].
  - unfold located. cbn [shr_record_of_loc shr_m shr_r shr_s]. split; lia.
  - destruct (Z.compare_spec (2 * r) D); unfold located;
      cbn [shr_record_of_loc shr_m shr_r shr_s]; (split; [lia | nia]).
Qed.

Lemma SFdiv_quarter_le mp ep :
  ep <= 0 -> Z.pos mp <= 100 * 2 ^ (- ep) ->
  SF64div (S754_finite false mp ep) SF_quarter = S754_zero false \/
  exists mq eq,
    SF64div (S754_finite false mp ep) SF_quarter = S754_finite false mq eq /\
    eq <= 0 /\ Z.pos mq <= 400 * 2 ^ (- eq).
Proof.
  intros Hep Hmp.
  assert (H2ep : 0 < 2 ^ (- ep)) by (apply Z.pow_pos_nonneg; lia).
  assert (Hd : Zdigits2 (Z.pos mp) + ep + 1 <= 53).
  { assert (Zdigits2 (Z.pos mp) <= 7 - ep); [| lia].
    apply Zdigits2_le; [lia | lia |].
    replace (7 - ep) with (7 + - ep) by lia. rewrite pow2_split by lia.
    change (2 ^ 7) with 128. nia. }
  unfold SF64div, SFdiv, SF_quarter, SFdiv_core_binary. cbn [xorb].
  change (Zdigits2 4503599627370496) with 53.
  set (d1 := Zdigits2 (Z.pos mp)) in *.
  replace (d1 + ep - (53 + -54)) with (d1 + ep + 1) by lia.
  set (e' := Z.min (fexp prec emax (d1 + ep + 1)) (ep - -54)).
  assert (He' : e' <= 0).
  { pose proof (fexp_le_0 (d1 + ep) 1 ltac:(lia)) as Hf. subst e'. lia. }
  set (s := ep - -54 - e').
  assert (Hs : 0 <= s) by (subst s e'; lia).
  set (m' := match s with Z.pos _ => Z.shiftl (Z.pos mp) s | Z0 => Z.pos mp | Z.neg _ => 0 end).
  assert (Hm' : m' = Z.pos mp * 2 ^ s).
  { subst m'. destruct s as [| p | p] eqn:Es; [simpl; lia | | lia].
    rewrite Z.shiftl_mul_pow2 by lia. reflexivity. }
  pose proof (Z_div_mod m' 4503599627370496 ltac:(lia)) as Hdiv.
  destruct (Z.div_eucl m' 4503599627370496) as [q r]. destruct Hdiv as [Hq Hr].
  assert (H2s : 0 < 2 ^ s) by (apply Z.pow_pos_nonneg; lia).
  assert (Hq0 : 0 <= q) by nia.
  apply (binary_round_aux_le _ _ _ m' 4503599627370496 400).
  - exact Hq0.
  - lia.
  - exact He'.
  - change (2 ^ 52) with 4503599627370496. lia.
  - apply new_location_even_located; try assumption; [lia | reflexivity].
  - rewrite Hm'.
    assert (Hsplit : 2 ^ (- e') * 2 ^ 52 * 2 ^ 2 = 2 ^ s * 2 ^ (- ep)).
    { rewrite <- !pow2_split by lia. f_equal. subst s. lia. }
    change (2 ^ 52) with 4503599627370496 in Hsplit.
    change (2 ^ 2) with 4 in Hsplit.
    nia.
Qed.

Lemma Prim2SF_one : Prim2SF 1 = SF_one.
Proof. reflexivity. Qed.
Lemma Prim2SF_100 : Prim2SF 100 = SF_100.
Proof. reflexivity. Qed.
Lemma Prim2SF_quarter : Prim2SF 0.25 = SF_quarter.
Proof. reflexivity. Qed.
Lemma Prim2SF_zero : Prim2SF 0 = S754_zero false.
Proof. reflexivity. Qed.

Lemma Number_of_Z_0 : Number_of_Z 0 = zero.
Proof. reflexivity. Qed.

Lemma Math_round_zero (q : float) :
  Prim2SF q = S754_zero false ->
  Math_round q = Number_of_Z 0 /\ nearest_tie_up q 0.
Proof.
  intros Hq. unfold Math_round, nearest_tie_up. rewrite Hq. split.
  - rewrite <- (SF2Prim_Prim2SF q), Hq. reflexivity.
  - reflexivity.
Qed.

Lemma Math_round_le_400 (q : float) mq eq :
  Prim2SF q = S754_finite false mq eq ->
  eq <= 0 -> Z.pos mq <= 400 * 2 ^ (- eq) ->
  exists k, 0 <= k <= 400 /\ Math_round q = Number_of_Z k /\ nearest_tie_up q k.
Proof.
  intros Hq Heq Hmq. unfold Math_round, nearest_tie_up. rewrite Hq.
  cbn [finite_parts].
  destruct (Z.leb_spec 0 eq) as [H0 | Hneg].
  - (* an integer-valued double has at least 2^52 as mantissa *)
    exfalso. assert (eq = 0) by lia. subst eq.
    pose proof (Prim2SF_valid q) as Hv. rewrite Hq in Hv. cbn [valid_binary] in Hv.
    destruct (bounded_canonical _ _ Hv) as (_ & _ & [Hd | Hd]); [| discriminate].
    pose proof (digits2_pos_bounds mq) as [Hlo _]. rewrite Hd in Hlo.
    change (2 ^ (53 - 1)) with 4503599627370496 in Hlo.
    change (2 ^ (- 0)) with 1 in Hmq. lia.
  - set (E := 2 ^ (- eq)) in *.
    assert (HE : 0 < E) by (apply Z.pow_pos_nonneg; lia).
    assert (HE2 : 2 ^ (1 - eq) = 2 * E).
    { replace (1 - eq) with (1 + - eq) by lia. rewrite Z.pow_add_r by lia. reflexivity. }
    rewrite HE2.
    set (n := (2 * Z.pos mq + E) / (2 * E)).
    assert (Hn : 0 <= n <= 400).
    { split.
      - apply Z.div_pos; lia.
      - assert (n < 401); [| lia].
        apply Z.div_lt_upper_bound; lia. }
    assert (Hnear : (2 * n - 1) * E <= 2 * Z.pos mq < (2 * n + 1) * E).
    { pose proof (Z.mul_div_le (2 * Z.pos mq + E) (2 * E) ltac:(lia)) as Hle.
      pose proof (Z.mul_succ_div_gt (2 * Z.pos mq + E) (2 * E) ltac:(lia)) as Hgt.
      fold n in Hle, Hgt. lia. }
    destruct (Z.eqb_spec n 0) as [Hn0 | Hn0].
    + exists 0. rewrite Hn0 in Hnear. split; [lia |]. split; [reflexivity | exact Hnear].
    + exists n. split; [exact Hn |]. split; [reflexivity | exact Hnear].
Qed.

Lemma SFltb_zero_pos sx :
  SFltb (S754_zero false) sx = true ->
  sx = S754_infinity false \/ exists m e, sx = S754_finite false m e.
Proof.
  destruct sx as [s | s | | s m e]; unfold SFltb; simpl; try discriminate.
  - destruct s; [discriminate | auto].
  - destruct s; [discriminate | eauto].
Qed.

(** The ladder index: for a probability strictly between 0 and 1 the
    rounded quotient is one of the integers 0 .. 400. *)
Lemma ladder_index (x : float) :
  (0 <? x)%float = true -> (x <? 1)%float = true ->
  exists k, 0 <= k <= 400 /\
            Math_round (x * 100 / 0.25)%float = Number_of_Z k /\
            nearest_tie_up (x * 100 / 0.25)%float k.
Proof.
  intros Hpos Hlt.
  rewrite ltb_spec, Prim2SF_zero in Hpos. rewrite ltb_spec, Prim2SF_one in Hlt.
  pose proof (Prim2SF_valid x) as Hv.
  destruct (SFltb_zero_pos _ Hpos) as [Hinf | (m & e & Hx)].
  { rewrite Hinf in Hlt. discriminate. }
  rewrite Hx in Hlt, Hv. cbn [valid_binary] in Hv.
  pose proof (mul_spec x 100) as Hp. rewrite Hx, Prim2SF_100 in Hp.
  pose proof (div_spec (x * 100) 0.25) as Hq. rewrite Prim2SF_quarter in Hq.
  destruct (SFmul_below_one_le_100 m e Hv Hlt) as [Hz | (mp & ep & Hmul & Hep & Hmp)].
  - rewrite Hz in Hp. rewrite Hp in Hq.
    exists 0. split; [lia |]. apply Math_round_zero. rewrite Hq. reflexivity.
  - rewrite Hmul in Hp. rewrite Hp in Hq.
    destruct (SFdiv_quarter_le mp ep Hep Hmp) as [Hz | (mq & eq & Hdiv & Heq & Hmq)].
    + exists 0. split; [lia |]. apply Math_round_zero. rewrite Hq. exact Hz.
    + rewrite Hdiv in Hq. exact (Math_round_le_400 _ mq eq Hq Heq Hmq).
Qed.

Lemma ladder_indices_snap_true :
  forallb snaps_to_own_step (map Z.of_nat (seq 0 401)) = true.
Proof. vm_compute. reflexivity. Qed.

Lemma forallb_below (f : Z -> bool) (n : nat) :
  forallb f (map Z.of_nat (seq 0 n)) = true ->
  forall k, 0 <= k < Z.of_nat n -> f k = true.
Proof.
  intros H k Hk. rewrite forallb_forall in H. apply H.
  apply in_map_iff. exists (Z.to_nat k). split; [lia |]. apply in_seq. lia.
Qed.

Lemma snap_to_step_index k :
  0 <= k <= 400 -> snap_to_step (Number_of_Z k) = Ok (k * 25 * 10 ^ 16).
Proof.
  intros Hk.
  pose proof (forallb_below snaps_to_own_step 401 ladder_indices_snap_true k
                ltac:(lia)) as H.
  unfold snaps_to_own_step in H.
  destruct (snap_to_step (Number_of_Z k)) as [v | e]; [| discriminate].
  apply Z.eqb_eq in H. rewrite H. reflexivity.
Qed.

(** C7. For every implied probability strictly between 0 and 1,
    roundToNearestStep returns a value that checkOddsLadderValid accepts:
    the value is k * 25 * 10^16, where k, between 0 and 400, is the integer
    nearest to the double impliedOdds * 100 / 0.25, a tie going to the
    larger integer (away from zero, the quotient being positive).
    checkOddsLadderValid holds exactly of the integers whose remainder
    modulo 10^16 * 25 is zero. 0.5025 comes back as 50.25% and 0.50333 snaps
    to 50.25%. *)
Theorem roundToNearestStep_on_ladder :
  forall impliedOdds : Number,
    (0 <? impliedOdds)%float = true -> (impliedOdds <? 1)%float = true ->
    (exists k,
        0 <= k <= 400 /\
        nearest_tie_up (impliedOdds * 100 / 0.25)%float k /\
        roundToNearestStep impliedOdds = Ok (k * 25 * 10 ^ 16) /\
        checkOddsLadderValid (k * 25 * 10 ^ 16) = Ok true) /\
    (forall odds, checkOddsLadderValid odds = Ok true <-> odds mod (10 ^ 16 * 25) = 0) /\
    roundToNearestStep 0.5025 = Ok (5025 * 10 ^ 16) /\
    roundToNearestStep 0.50333 = Ok (5025 * 10 ^ 16).
Proof.
  intros x Hpos Hlt. split; [| split; [| split]].
  - destruct (ladder_index x Hpos Hlt) as (k & Hk & Hround & Hnear).
    exists k. split; [exact Hk |]. split; [exact Hnear |]. split.
    + change (roundToNearestStep x) with (snap_to_step (Math_round (x * 100 / 0.25))).
      rewrite Hround. apply snap_to_step_index, Hk.
    + apply checkOddsLadderValid_iff.
      replace (k * 25 * 10 ^ 16) with (k * (10 ^ 16 * 25)) by lia.
      apply Z.mod_mul. lia.
  - exact checkOddsLadderValid_iff.
  - vm_compute. reflexivity.
  - vm_compute. reflexivity.
Qed.

Lemma roundToNearestStep_on_ladder_witness :
  (0 <? 0.50333)%float = true /\ (0.50333 <? 1)%float = true /\
  exists k,
    0 <= k <= 400 /\
    nearest_tie_up (0.50333 * 100 / 0.25)%float k /\
    roundToNearestStep 0.50333 = Ok (k * 25 * 10 ^ 16) /\
    checkOddsLadderValid (k * 25 * 10 ^ 16) = Ok true.
Proof.
  split; [reflexivity |]. split; [reflexivity |].
  exact (proj1 (roundToNearestStep_on_ladder 0.50333 eq_refl eq_refl)).
Defined.

(** ** calculateRemainingTakerSpace *)

Lemma Zdigits2_unique m d :
  0 < d -> 2 ^ (d - 1) <= m < 2 ^ d -> Zdigits2 m = d.
Proof.
  intros Hd [Hlo Hhi].
  assert (Hm : 0 < m).
  { assert (0 < 2 ^ (d - 1)) by (apply Z.pow_pos_nonneg; lia). lia. }
  destruct m as [| p | p]; [lia | | lia].
  cbn [Zdigits2]. pose proof (digits2_pos_bounds p) as [Hlo' Hhi'].
  set (d' := Z.pos (digits2_pos p)) in *.
  destruct (Z.lt_trichotomy d' d) as [H | [H | H]]; [| exact H |]; exfalso.
  - assert (2 ^ d' <= 2 ^ (d - 1)) by (apply Z.pow_le_mono_r; lia). lia.
  - assert (2 ^ d <= 2 ^ (d' - 1)) by (apply Z.pow_le_mono_r; lia). lia.
Qed.

Lemma located_multiple M D mrs :
  0 < D -> located (M * D) D mrs -> mrs = {| shr_m := M; shr_r := false; shr_s := false |}.
Proof.
  intros HD [Hm H]. destruct mrs as [m r s]. cbn [shr_m shr_r shr_s] in Hm, H.
  assert (Hlt : forall a b, a * D < b * D -> a < b)
    by (intros a b; apply Z.mul_lt_mono_pos_r; exact HD).
  assert (Heq : forall a b, a * D = b * D -> a = b)
    by (intros a b; apply Z.mul_cancel_r; lia).
  replace (2 * (M * D)) with (2 * M * D) in H by lia.
  destruct r, s.
  - exfalso. destruct H as [H1 H2]. apply Hlt in H1, H2. lia.
  - exfalso. apply Heq in H. lia.
  - exfalso. destruct H as [H1 H2]. apply Hlt in H1, H2. lia.
  - apply Heq in H. subst m. reflexivity.
Qed.

(** Rounding a value that is a double already: nothing is lost. *)
Lemma binary_round_aux_exact sx M E n mx ex :
  2 ^ 52 <= M < 2 ^ 53 -> -1074 <= E <= 971 -> 0 <= n ->
  mx = M * 2 ^ n -> ex = E - n ->
  binary_round_aux prec emax sx mx ex loc_Exact = S754_finite sx (Z.to_pos M) E.
Proof.
  intros HM HE Hn -> ->.
  assert (H2n : 0 < 2 ^ n) by (apply Z.pow_pos_nonneg; lia).
  assert (HM0 : 0 < M) by (change (2 ^ 52) with 4503599627370496 in HM; lia).
  assert (HMn : 0 <= M * 2 ^ n) by (apply Z.mul_nonneg_nonneg; lia).
  assert (Hd : Zdigits2 (M * 2 ^ n) = 53 + n).
  { apply Zdigits2_unique; [lia |].
    replace (53 + n - 1) with (52 + n) by lia. rewrite !pow2_split by lia.
    split; [apply Z.mul_le_mono_nonneg_r | apply Z.mul_lt_mono_pos_r]. all: lia. }
  assert (HdM : Zdigits2 M = 53) by (apply Zdigits2_unique; [lia | exact HM]).
  assert (Hf : fexp prec emax (53 + E) = E)
    by (unfold fexp, SpecFloat.emin, prec, emax; lia).
  unfold binary_round_aux, shr_fexp. rewrite Hd.
  replace (53 + n + (E - n)) with (53 + E) by lia. rewrite Hf.
  replace (E - (E - n)) with n by lia.
  pose proof (shr_located (M * 2 ^ n) 1 (shr_record_of_loc (M * 2 ^ n) loc_Exact)
                (E - n) n ltac:(lia) (located_exact _ HMn)) as Hs.
  destruct (shr (shr_record_of_loc (M * 2 ^ n) loc_Exact) (E - n) n) as [mrs1 e1].
  destruct Hs as [He1 Hloc]. rewrite Z.max_r in He1, Hloc by lia.
  rewrite Z.mul_1_r in Hloc. apply located_multiple in Hloc; [| exact H2n].
  subst mrs1. replace e1 with E by lia.
  cbn [shr_m loc_of_shr_record round_nearest_even].
  rewrite HdM, Hf, Z.sub_diag. cbn [shr shr_record_of_loc shr_m].
  destruct M as [| p | p]; [lia | | lia].
  replace (E <=? emax - prec) with true
    by (symmetry; apply Z.leb_le; unfold emax, prec; lia).
  reflexivity.
Qed.

Lemma digits2_pos_53 p : Z.pos p < 2 ^ 53 -> 1 <= Z.pos (digits2_pos p) <= 53.
Proof.
  intros Hp. split; [lia |]. apply (Zdigits2_le (Z.pos p) 53); lia.
Qed.

Lemma normal_mantissa_bounds p :
  Z.pos p < 2 ^ 53 ->
  Z.pos (normal_mantissa p) = Z.pos p * 2 ^ (53 - Z.pos (digits2_pos p)) /\
  2 ^ 52 <= Z.pos (normal_mantissa p) < 2 ^ 53.
Proof.
  intros Hp. pose proof (digits2_pos_bounds p) as Hb.
  pose proof (digits2_pos_53 p Hp) as Hd.
  unfold normal_mantissa. set (d := Z.pos (digits2_pos p)) in *. clearbody d.
  assert (H52 : 2 ^ 52 = 2 ^ (d - 1) * 2 ^ (53 - d))
    by (rewrite <- pow2_split by lia; f_equal; lia).
  assert (H53 : 2 ^ 53 = 2 ^ d * 2 ^ (53 - d))
    by (rewrite <- pow2_split by lia; f_equal; lia).
  assert (H : 0 < 2 ^ (53 - d)) by (apply Z.pow_pos_nonneg; lia).
  rewrite Z2Pos.id by (apply Z.mul_pos_pos; lia).
  split; [reflexivity |]. rewrite H52, H53.
  split; [apply Z.mul_le_mono_nonneg_r | apply Z.mul_lt_mono_pos_r]; lia.
Qed.

(** The double of a non-zero integer of at most 53 bits, given as
    [p * 2 ^ k] with the exponent [- k]: the integer itself, normalised. *)
Lemma binary_round_int sx (p : positive) k mx :
  Z.pos p < 2 ^ 53 -> 0 <= k -> Z.pos mx = Z.pos p * 2 ^ k ->
  binary_round prec emax sx mx (- k) =
  S754_finite sx (normal_mantissa p) (Z.pos (digits2_pos p) - 53).
Proof.
  intros Hp Hk Hmx.
  pose proof (digits2_pos_bounds p) as Hb.
  pose proof (digits2_pos_53 p Hp) as Hd.
  destruct (normal_mantissa_bounds p Hp) as [HMeq HM].
  rewrite <- (Pos2Z.id (normal_mantissa p)).
  set (M := Z.pos (normal_mantissa p)) in *. clearbody M.
  set (d := Z.pos (digits2_pos p)) in *. clearbody d.
  assert (H2k : 0 < 2 ^ k) by (apply Z.pow_pos_nonneg; lia).
  assert (Hdmx : Z.pos (digits2_pos mx) = d + k).
  { change (Z.pos (digits2_pos mx)) with (Zdigits2 (Z.pos mx)).
    apply Zdigits2_unique; [lia |]. rewrite Hmx.
    replace (d + k - 1) with (d - 1 + k) by lia. rewrite !pow2_split by lia.
    split; [apply Z.mul_le_mono_nonneg_r | apply Z.mul_lt_mono_pos_r]; lia. }
  unfold binary_round, shl_align. rewrite Hdmx.
  replace (fexp prec emax (d + k + - k)) with (d - 53)
    by (unfold fexp, SpecFloat.emin, prec, emax; lia).
  destruct (d - 53 - - k) as [| q | q] eqn:Eq.
  - apply (binary_round_aux_exact sx _ _ 0); [exact HM | lia | lia | | lia].
    rewrite Hmx, HMeq. replace (53 - d) with k by lia. change (2 ^ 0) with 1. lia.
  - apply (binary_round_aux_exact sx _ _ (Z.pos q)); [exact HM | lia | lia | | lia].
    rewrite Hmx, HMeq. replace k with (53 - d + Z.pos q) by lia.
    rewrite pow2_split by lia. lia.
  - apply (binary_round_aux_exact sx _ _ 0); [exact HM | lia | lia | | lia].
    change (Pos.iter xO mx q) with (shift_pos q mx).
    rewrite shift_pos_correct, Z.pow_pos_fold, Hmx, HMeq.
    replace (53 - d) with (k + Z.pos q) by lia.
    rewrite pow2_split by lia. change (2 ^ 0) with 1. lia.
Qed.

Lemma binary_normalize_int z k :
  Z.abs z < 2 ^ 53 -> 0 <= k ->
  binary_normalize prec emax (z * 2 ^ k) (- k) false = int_double z.
Proof.
  intros Hz Hk.
  assert (H2k : 0 < 2 ^ k) by (apply Z.pow_pos_nonneg; lia).
  unfold binary_normalize. destruct z as [| p | p]; [reflexivity | |].
  - destruct (Z.pos p * 2 ^ k) as [| mx | mx] eqn:Hmx; [lia | | lia].
    apply binary_round_int; [lia | exact Hk | congruence].
  - destruct (Z.neg p * 2 ^ k) as [| mx | mx] eqn:Hmx; [lia | lia |].
    apply binary_round_int; [lia | exact Hk | lia].
Qed.

Lemma int_double_valid z : Z.abs z < 2 ^ 53 -> valid_binary (int_double z) = true.
Proof.
  intros Hz.
  assert (H : forall p, Z.pos p < 2 ^ 53 ->
            bounded prec emax (normal_mantissa p) (Z.pos (digits2_pos p) - 53) = true).
  { intros p Hp. destruct (normal_mantissa_bounds p Hp) as [_ HM].
    pose proof (digits2_pos_53 p Hp) as Hd.
    unfold bounded, canonical_mantissa.
    change (Z.pos (digits2_pos (normal_mantissa p)))
      with (Zdigits2 (Z.pos (normal_mantissa p))).
    rewrite (Zdigits2_unique _ 53 ltac:(lia) HM).
    apply andb_true_intro. split.
    - apply Z.eqb_eq. unfold fexp, SpecFloat.emin, prec, emax. lia.
    - apply Z.leb_le. unfold prec, emax. lia. }
  destruct z as [| p | p]; [reflexivity | |]; apply H; lia.
Qed.

Lemma Prim2SF_Number_of_Z z :
  Z.abs z < 2 ^ 53 -> Prim2SF (Number_of_Z z) = int_double z.
Proof.
  intros Hz. unfold Number_of_Z.
  pose proof (binary_normalize_int z 0 Hz ltac:(lia)) as H.
  change (2 ^ 0) with 1 in H. rewrite Z.mul_1_r in H. change (- 0) with 0 in H.
  rewrite H. apply Prim2SF_SF2Prim, int_double_valid, Hz.
Qed.

Lemma shl_align_fst mx ex ez :
  ez <= ex -> Z.pos (fst (shl_align mx ex ez)) = Z.pos mx * 2 ^ (ex - ez).
Proof.
  intros H. unfold shl_align. destruct (ez - ex) as [| q | q] eqn:Eq; cbn [fst].
  - replace (ex - ez) with 0 by lia. change (2 ^ 0) with 1. lia.
  - lia.
  - change (Pos.iter xO mx q) with (shift_pos q mx).
    rewrite shift_pos_correct, Z.pow_pos_fold.
    replace (ex - ez) with (Z.pos q) by lia. lia.
Qed.

(** Subtracting the doubles of two amounts of at most 53 bits loses nothing. *)
Lemma SFsub_int t f :
  0 <= t < 2 ^ 53 -> 0 <= f < 2 ^ 53 ->
  SF64sub (int_double t) (int_double f) = int_double (t - f).
Proof.
  intros Ht Hf. unfold SF64sub.
  destruct t as [| p | p]; [| | lia]; (destruct f as [| q | q]; [| | lia]);
    try reflexivity.
  cbn [int_double SFsub cond_Zopp].
  destruct (normal_mantissa_bounds p (proj2 Ht)) as [HMp _].
  destruct (normal_mantissa_bounds q (proj2 Hf)) as [HMq _].
  pose proof (digits2_pos_53 p (proj2 Ht)) as Hdp.
  pose proof (digits2_pos_53 q (proj2 Hf)) as Hdq.
  set (dp := Z.pos (digits2_pos p)) in *. set (dq := Z.pos (digits2_pos q)) in *.
  clearbody dp dq.
  set (ez := Z.min (dp - 53) (dq - 53)).
  rewrite !shl_align_fst by (subst ez; lia). rewrite HMp, HMq.
  rewrite <- !Z.mul_assoc, <- !pow2_split by (subst ez; lia).
  replace (53 - dp + (dp - 53 - ez)) with (- ez) by lia.
  replace (53 - dq + (dq - 53 - ez)) with (- ez) by lia.
  rewrite <- Z.mul_sub_distr_r.
  replace ez with (- - ez) at 2 by lia.
  apply binary_normalize_int; [lia | subst ez; lia].
Qed.

Lemma SFleb_int_zero z : SFleb (int_double z) (S754_zero false) = (z <=? 0).
Proof. destruct z; reflexivity. Qed.

Lemma Number_of_Z_sub t f :
  0 <= t < 2 ^ 53 -> 0 <= f < 2 ^ 53 ->
  (Number_of_Z t - Number_of_Z f)%float = Number_of_Z (t - f).
Proof.
  intros Ht Hf. apply Prim2SF_inj.
  rewrite sub_spec, !Prim2SF_Number_of_Z by lia.
  apply SFsub_int; assumption.
Qed.

(** C3, as the code has it. calculateRemainingTakerSpace computes in
    doubles. For a totalBetSize and a fillAmount from 0 up to 2^53 (so that
    both are doubles exactly) and any percentageOdds, it returns 0 when
    totalBetSize - fillAmount <= 0, and otherwise the double
    r * 10^20 / percentageOdds - r with r = totalBetSize - fillAmount, where
    percentageOdds is first rounded to the nearest double and the product,
    the quotient and the difference are each rounded to the nearest double;
    totalBetSize = 100, fillAmount = 40, percentageOdds = 25 * 10^18 gives
    180. *)
Theorem calculateRemainingTakerSpace_double :
  forall totalBetSize fillAmount percentageOdds : Z,
    0 <= totalBetSize < 2 ^ 53 -> 0 <= fillAmount < 2 ^ 53 ->
    let remainingMaker := totalBetSize - fillAmount in
    calculateRemainingTakerSpace totalBetSize fillAmount percentageOdds =
    (if (remainingMaker <=? 0)%Z then 0
     else Number_of_Z remainingMaker * Number_of_Z (10 ^ 20)%Z / Number_of_Z percentageOdds
          - Number_of_Z remainingMaker)%float /\
    calculateRemainingTakerSpace 100 40 (25 * 10 ^ 18) = 180%float.
Proof.
  intros t f p Ht Hf remainingMaker. split; [| vm_compute; reflexivity].
  unfold calculateRemainingTakerSpace, parseFloat, Math_pow10.
  rewrite Number_of_Z_sub by assumption. fold remainingMaker.
  rewrite leb_spec, Prim2SF_Number_of_Z by (subst remainingMaker; lia).
  change (Prim2SF 0) with (S754_zero false). rewrite SFleb_int_zero.
  reflexivity.
Qed.

Lemma calculateRemainingTakerSpace_double_witness :
  (0 <= 100 < 2 ^ 53 /\ 0 <= 40 < 2 ^ 53) /\
  calculateRemainingTakerSpace 100 40 (25 * 10 ^ 18) =
  (Number_of_Z 60 * Number_of_Z (10 ^ 20)%Z / Number_of_Z (25 * 10 ^ 18)%Z
   - Number_of_Z 60)%float.
Proof.
  split; [lia |].
  exact (proj1 (calculateRemainingTakerSpace_double 100 40 (25 * 10 ^ 18)
                  ltac:(lia) ltac:(lia))).
Defined.

(** C3, as stated, fails. With totalBetSize = 100, fillAmount = 0 and
    percentageOdds = 3 * 10^19 the value returned prints as
    233.33333333333331: it is neither the fraction
    (100 * 10^20 - 100 * 3 * 10^19) / (3 * 10^19) = 700 / 3 nor the integer 233
    that a truncating division gives. And with
    totalBetSize = 2^53 + 1 and fillAmount = 2^53 the difference is 1 > 0 and
    the formula gives 1 at percentageOdds = 5 * 10^19, yet 0 is returned. *)
Lemma calculateRemainingTakerSpace_is_not_exact :
  0 < 3 * 10 ^ 19 < 10 ^ 20 /\
  Number_toString (calculateRemainingTakerSpace 100 0 (3 * 10 ^ 19))
  = "233.33333333333331" /\
  Number_eq_ratio (calculateRemainingTakerSpace 100 0 (3 * 10 ^ 19))
    (100 * 10 ^ 20 - 100 * (3 * 10 ^ 19)) (3 * 10 ^ 19) = false /\
  remainingTakerSpace_exact 100 0 (3 * 10 ^ 19) = 233 /\
  Number_eq_ratio (calculateRemainingTakerSpace 100 0 (3 * 10 ^ 19)) 233 1 = false /\
  0 < 9007199254740993 - 9007199254740992 /\
  remainingTakerSpace_exact 9007199254740993 9007199254740992 (5 * 10 ^ 19) = 1 /\
  calculateRemainingTakerSpace 9007199254740993 9007199254740992 (5 * 10 ^ 19)
  = 0%float.
Proof.
  split; [lia |]. repeat split; try (vm_compute; reflexivity).
Qed.

(** * More of the scripts *)

(** ** Odds, read back and shown *)

Lemma holds_from_spec (f : Z -> bool) (n : nat) : forall lo,
  holds_from f lo n = true ->
  forall k, lo <= k < lo + Z.of_nat n -> f k = true.
Proof.
  induction n as [| n IH]; intros lo H k Hk; [lia |].
  cbn [holds_from] in H. apply andb_prop in H as [Hlo Hrest].
  destruct (Z.eq_dec k lo) as [-> | Hne]; [exact Hlo |].
  apply (IH (lo + 1) Hrest). lia.
Qed.

Lemma readable_reads_back_ladder :
  holds_from readable_reads_back 0 (Z.to_nat 401) = true.
Proof. vm_compute. reflexivity. Qed.

(** X1. The odds that index.js hands on. For every implied probability
    strictly between 0 and 1, roundToNearestStep gives an API value [v] on
    the ladder; apiOddsToReadable turns it into a Number whose printed form
    parses back, with 20 decimals, to the same [v] (what postOrder makes of
    it), and rounding that Number again gives [v] once more. *)

Theorem rounded_odds_read_back :
  forall impliedOdds : Number,
    (0 <? impliedOdds)%float = true -> (impliedOdds <? 1)%float = true ->
    exists v,
      roundToNearestStep impliedOdds = Ok v /\
      checkOddsLadderValid v = Ok true /\
      parseUnits (Number_toString (apiOddsToReadable v)) 20 = Ok v /\
      roundToNearestStep (apiOddsToReadable v) = Ok v.
Proof.
  intros x Hpos Hlt.
  destruct (ladder_index x Hpos Hlt) as (k & Hk & Hround & _).
  exists (k * 25 * 10 ^ 16). split; [| split].
  - change (roundToNearestStep x) with (snap_to_step (Math_round (x * 100 / 0.25))).
    rewrite Hround. apply snap_to_step_index, Hk.
  - apply checkOddsLadderValid_iff.
    replace (k * 25 * 10 ^ 16) with (k * (10 ^ 16 * 25)) by lia.
    apply Z.mod_mul. lia.
  - pose proof (holds_from_spec readable_reads_back _ 0 readable_reads_back_ladder k
                  ltac:(lia)) as H.
    unfold readable_reads_back in H. cbv zeta in H.
    destruct (parseUnits _ 20) as [a | e]; [| discriminate].
    destruct (roundToNearestStep (apiOddsToReadable _)) as [b | e]; [| discriminate].
    apply andb_prop in H as [Ha Hb]. apply Z.eqb_eq in Ha, Hb. subst a b. auto.
Qed.

Lemma rounded_odds_read_back_witness :
  (0 <? 0.50333)%float = true /\ (0.50333 <? 1)%float = true /\
  exists v,
    roundToNearestStep 0.50333 = Ok v /\
    checkOddsLadderValid v = Ok true /\
    parseUnits (Number_toString (apiOddsToReadable v)) 20 = Ok v /\
    roundToNearestStep (apiOddsToReadable v) = Ok v.
Proof.
  split; [reflexivity |]. split; [reflexivity |].
  exact (rounded_odds_read_back 0.50333 eq_refl eq_refl).
Defined.

Example hundredths_5025 : hundredths 5025 = "50.25".
Proof. reflexivity. Qed.
Example hundredths_7 : hundredths 7 = "0.07".
Proof. reflexivity. Qed.
Example rounded_hundredths_third : rounded_hundredths 400 3 = "133.33".
Proof. reflexivity. Qed.
Example rounded_hundredths_tie : rounded_hundredths 400 128 = "3.13".
Proof. reflexivity. Qed.

Lemma formatOdds_percentage_grid :
  holds_from formatOdds_shows_percentage 0 (Z.to_nat 10001) = true.
Proof. vm_compute. reflexivity. Qed.

Lemma formatOdds_decimal_grid :
  holds_from formatOdds_shows_decimal 0 (Z.to_nat 10001) = true.
Proof. vm_compute. reflexivity. Qed.

(** X2. formatOdds shows the odds exactly. For every percentageOdds that is
    a whole number [h] of hundredths of a percent, from 0 to 100 percent, the
    implied percentage shown is [h / 100] with two decimals; for [h] above 0
    the decimal odds shown are [10000 / h] rounded to two decimals (a tie
    going up); for percentageOdds 0 they are shown as Infinity. *)

Theorem formatOdds_exact :
  forall h : Z,
    0 <= h <= 10000 ->
    odds_impliedPercentage (formatOdds (h * 10 ^ 16)) = hundredths h +:+ "%" /\
    odds_decimalOdds (formatOdds (h * 10 ^ 16))
    = if h =? 0 then "Infinity" else rounded_hundredths 10000 h.
Proof.
  intros h Hh. split.
  - pose proof (holds_from_spec _ _ 0 formatOdds_percentage_grid h ltac:(lia)) as H.
    unfold formatOdds_shows_percentage in H. apply String.eqb_eq in H. exact H.
  - pose proof (holds_from_spec _ _ 0 formatOdds_decimal_grid h ltac:(lia)) as H.
    unfold formatOdds_shows_decimal in H.
    destruct (Z.eqb_spec h 0) as [-> | Hne]; [vm_compute; reflexivity |].
    cbn [orb] in H. apply String.eqb_eq in H. exact H.
Qed.

Lemma formatOdds_exact_witness :
  0 <= 5025 <= 10000 /\
  odds_impliedPercentage (formatOdds (5025 * 10 ^ 16)) = "50.25%" /\
  odds_decimalOdds (formatOdds (5025 * 10 ^ 16)) = "1.99".
Proof.
  split; [lia |]. exact (formatOdds_exact 5025 ltac:(lia)).
Defined.

Lemma taker_percentage_grid :
  holds_from taker_percentage_shown 0 (Z.to_nat 10001) = true.
Proof. vm_compute. reflexivity. Qed.

Lemma taker_decimal_ladder :
  holds_from taker_decimal_shown 0 (Z.to_nat 401) = true.
Proof. vm_compute. reflexivity. Qed.

(** X3. formatOrderForTaker shows the taker's side of the odds exactly. For
    an order whose percentageOdds is a whole number [h] of hundredths of a
    percent, from 0 to 100 percent, the implied odds shown are the
    complement [100 - h / 100] percent with two decimals; when the odds are
    on the 0.25 percent ladder, at step [k] below 400, the decimal odds
    shown are [400 / (400 - k)] rounded to two decimals (a tie going up);
    and at 100 percent, where the taker's implied odds are 0, the decimal
    odds are shown as Infinity. *)

Theorem formatOrderForTaker_taker_odds :
  forall (Date_toLocaleString : string -> string) (order : Order) (h : Z),
    0 <= h <= 10000 ->
    percentageOdds order = h * 10 ^ 16 ->
    exists formatted,
      formatOrderForTaker Date_toLocaleString order = Ok formatted /\
      fo_impliedOddsFormatted formatted = hundredths (10000 - h) +:+ "%" /\
      (forall k, h = 25 * k ->
         fo_decimalOdds formatted
         = if k =? 400 then "Infinity" else rounded_hundredths 400 (400 - k)).
Proof.
  intros toLocale order h Hh Hodds.
  unfold formatOrderForTaker. rewrite Hodds.
  cbn [toDecimalOdds mbind mret result_bind result_ret].
  eexists. split; [reflexivity |].
  cbn [fo_impliedOddsFormatted fo_decimalOdds]. split.
  - pose proof (holds_from_spec _ _ 0 taker_percentage_grid h ltac:(lia)) as H.
    unfold taker_percentage_shown in H. apply String.eqb_eq in H. exact H.
  - intros k ->.
    pose proof (holds_from_spec _ _ 0 taker_decimal_ladder k ltac:(lia)) as H.
    unfold taker_decimal_shown in H.
    replace (25 * k * 10 ^ 16) with (k * 25 * 10 ^ 16) by lia.
    destruct (Z.eqb_spec k 400) as [-> | Hne]; [vm_compute; reflexivity |].
    cbn [orb toDecimalOdds] in H. apply String.eqb_eq in H. exact H.
Qed.

Lemma formatOrderForTaker_taker_odds_witness :
  0 <= 2500 <= 10000 /\
  exists formatted,
    formatOrderForTaker (fun s => s) order_a = Ok formatted /\
    fo_impliedOddsFormatted formatted = "75.00%" /\
    fo_decimalOdds formatted = "1.33".
Proof.
  split; [lia |].
  destruct (formatOrderForTaker_taker_odds (fun s => s) order_a 2500 ltac:(lia) eq_refl)
    as (formatted & Hf & Hp & Hd).
  exists formatted. split; [exact Hf |]. split; [exact Hp |].
  exact (Hd 100 eq_refl).
Defined.

(** ** calculateFillAmount, stake by stake *)

(** X4. calculateFillAmount never rounds up and never goes down when the
    stake or the odds go up. For stakes that scale to [a1 <= a2], both
    non-negative, and odds [p1 <= p2] strictly between 0 and 10^20, the two
    fill amounts [f1] and [f2] come back with [0 <= f1 <= f2], and [f1] is the
    floor of the exact quotient: [f1 * (10^20 - p1) <= a1 * p1] and
    [a1 * p1 < (f1 + 1) * (10^20 - p1)]. *)

Theorem calculateFillAmount_monotone :
  forall (stake1 stake2 : string) (a1 a2 p1 p2 : Z),
    parseUnits stake1 6 = Ok a1 -> parseUnits stake2 6 = Ok a2 ->
    0 <= a1 <= a2 -> 0 < p1 <= p2 -> p2 < 10 ^ 20 ->
    exists f1 f2,
      calculateFillAmount stake1 p1 = Ok f1 /\
      calculateFillAmount stake2 p2 = Ok f2 /\
      0 <= f1 <= f2 /\
      f1 * (10 ^ 20 - p1) <= a1 * p1 < (f1 + 1) * (10 ^ 20 - p1).
Proof.
  intros s1 s2 a1 a2 p1 p2 H1 H2 Ha Hp Hp2.
  rewrite !calculateFillAmount_unfold, H1, H2.
  rewrite !BigInt_div_nonzero by lia.
  exists (Z.quot (a1 * p1) (10 ^ 20 - p1)), (Z.quot (a2 * p2) (10 ^ 20 - p2)).
  split; [reflexivity |]. split; [reflexivity |].
  set (d1 := 10 ^ 20 - p1). set (d2 := 10 ^ 20 - p2).
  assert (Hd1 : 0 < d1) by (subst d1; lia).
  assert (Hd2 : 0 < d2 <= d1) by (subst d1 d2; lia).
  assert (Hn1 : 0 <= a1 * p1) by nia.
  assert (Hn : a1 * p1 <= a2 * p2) by nia.
  rewrite !Z.quot_div_nonneg by nia.
  pose proof (Z.mul_div_le (a1 * p1) d1 Hd1) as Hlo.
  pose proof (Z.mul_succ_div_gt (a1 * p1) d1 Hd1) as Hhi.
  split; [| lia]. split.
  - apply Z.div_pos; lia.
  - transitivity (a2 * p2 / d1).
    + apply Z.div_le_mono; lia.
    + apply Z.div_le_compat_l; lia.
Qed.

Lemma calculateFillAmount_monotone_witness :
  exists f1 f2,
    calculateFillAmount "10" (50 * 10 ^ 18) = Ok f1 /\
    calculateFillAmount "10.5" (60 * 10 ^ 18) = Ok f2 /\
    0 <= f1 <= f2.
Proof.
  destruct (calculateFillAmount_monotone "10" "10.5" 10000000 10500000
              (50 * 10 ^ 18) (60 * 10 ^ 18) eq_refl eq_refl ltac:(lia) ltac:(lia)
              ltac:(lia)) as (f1 & f2 & H1 & H2 & H & _).
  exists f1, f2. auto.
Defined.

(** ** Rounding between bounds *)

Lemma round_nearest_even_between num den mrs L U :
  0 < den -> located num den mrs -> L * den <= num -> num <= U * den ->
  L <= round_nearest_even (shr_m mrs) (loc_of_shr_record mrs) <= U.
Proof.
  intros Hden [Hm H] HL HU. destruct mrs as [m r s].
  cbn [shr_m shr_r shr_s] in Hm, H.
  destruct r, s; cbn [shr_m loc_of_shr_record round_nearest_even];
    try destruct (Z.even m); nia.
Qed.

(** Rounding a positive value between two dyadic bounds [A / 2 ^ s] and
    [B / 2 ^ s] that are doubles themselves: the result lies between them. *)
Lemma binary_round_aux_between mx ex lx num den A B s :
  0 <= mx -> 0 < den -> 0 <= s <= 1074 -> ex <= - s -> 0 < A -> B < 2 ^ 53 ->
  located num den (shr_record_of_loc mx lx) ->
  A * 2 ^ (- ex - s) * den <= num ->
  num <= B * 2 ^ (- ex - s) * den ->
  exists m e,
    binary_round_aux prec emax false mx ex lx = S754_finite false m e /\
    e <= - s /\
    A * 2 ^ (- e - s) <= Z.pos m <= B * 2 ^ (- e - s).
Proof.
  intros Hmx Hden Hs Hex HA HB Hloc HnumA HnumB.
  pose proof (located_floor _ _ _ Hden Hloc) as [Hfloor _].
  rewrite shr_m_record_of_loc in Hfloor.
  assert (H2ex : 0 < 2 ^ (- ex - s)) by (apply Z.pow_pos_nonneg; lia).
  assert (Hmx' : mx <= B * 2 ^ (- ex - s)) by nia.
  assert (Hd1 : Zdigits2 mx + ex <= 53 - s).
  { assert (Zdigits2 mx <= 53 + (- ex - s)); [| lia].
    apply Zdigits2_le; [assumption | lia |].
    rewrite pow2_split by lia. nia. }
  unfold binary_round_aux, shr_fexp.
  set (n1 := fexp prec emax (Zdigits2 mx + ex) - ex).
  pose proof (shr_located num den _ ex n1 Hden Hloc) as Hs1.
  destruct (shr (shr_record_of_loc mx lx) ex n1) as [mrs1 e1].
  destruct Hs1 as [He1 Hloc1].
  assert (He1' : e1 <= - s).
  { subst n1. unfold fexp, SpecFloat.emin, prec, emax in He1. lia. }
  assert (Hk1 : 0 < 2 ^ Z.max 0 n1) by (apply Z.pow_pos_nonneg; lia).
  assert (H2e1 : 0 < 2 ^ (- e1 - s)) by (apply Z.pow_pos_nonneg; lia).
  assert (Hsplit1 : 2 ^ (- ex - s) = 2 ^ (- e1 - s) * 2 ^ Z.max 0 n1).
  { rewrite <- pow2_split by lia. f_equal. lia. }
  assert (Hden1 : 0 < 2 ^ Z.max 0 n1 * den) by nia.
  assert (HnumA1 : A * 2 ^ (- e1 - s) * (2 ^ Z.max 0 n1 * den) <= num).
  { rewrite Hsplit1 in HnumA. lia. }
  assert (HnumB1 : num <= B * 2 ^ (- e1 - s) * (2 ^ Z.max 0 n1 * den)).
  { rewrite Hsplit1 in HnumB. lia. }
  pose proof (round_nearest_even_between _ _ _ _ _ Hden1 Hloc1 HnumA1 HnumB1) as Hm2.
  set (m2 := round_nearest_even (shr_m mrs1) (loc_of_shr_record mrs1)) in *.
  assert (Hm2pos : 0 < m2) by nia.
  assert (Hd2 : Zdigits2 m2 + e1 <= 53 - s).
  { assert (Zdigits2 m2 <= 53 + (- e1 - s)); [| lia].
    apply Zdigits2_le; [lia | lia |].
    rewrite pow2_split by lia. nia. }
  set (n2 := fexp prec emax (Zdigits2 m2 + e1) - e1).
  pose proof (shr_located m2 1 _ e1 n2 ltac:(lia) (located_exact m2 ltac:(lia))) as Hs2.
  destruct (shr (shr_record_of_loc m2 loc_Exact) e1 n2) as [mrs3 e3].
  destruct Hs2 as [He3 Hloc3].
  assert (He3' : e3 <= - s).
  { subst n2. unfold fexp, SpecFloat.emin, prec, emax in He3. lia. }
  assert (Hk2 : 0 < 2 ^ Z.max 0 n2) by (apply Z.pow_pos_nonneg; lia).
  assert (H2e3 : 0 < 2 ^ (- e3 - s)) by (apply Z.pow_pos_nonneg; lia).
  assert (Hsplit2 : 2 ^ (- e1 - s) = 2 ^ (- e3 - s) * 2 ^ Z.max 0 n2).
  { rewrite <- pow2_split by lia. f_equal. lia. }
  assert (Hden3 : 0 < 2 ^ Z.max 0 n2 * 1) by lia.
  pose proof (located_floor _ _ _ Hden3 Hloc3) as [Hfloor3 Hceil3].
  destruct Hloc3 as [Hm3 _].
  rewrite Hsplit2 in Hm2.
  assert (Hm3hi : shr_m mrs3 <= B * 2 ^ (- e3 - s)).
  { apply (Z.mul_le_mono_pos_r _ _ (2 ^ Z.max 0 n2) Hk2). lia. }
  assert (Hm3lo : A * 2 ^ (- e3 - s) <= shr_m mrs3).
  { assert (A * 2 ^ (- e3 - s) < shr_m mrs3 + 1); [| lia].
    apply (Z.mul_lt_mono_pos_r (2 ^ Z.max 0 n2) _ _ Hk2). lia. }
  destruct (shr_m mrs3) as [| m3 | m3]; [nia | | lia].
  exists m3, e3.
  replace (e3 <=? emax - prec) with true
    by (symmetry; apply Z.leb_le; unfold emax, prec; lia).
  auto.
Qed.

Lemma new_location_located m D q r :
  0 < D -> 0 <= q -> m = D * q + r -> 0 <= r < D ->
  located m D (shr_record_of_loc q (new_location D r)).
Proof.
  intros HD Hq Hm Hr.
  destruct (Z.even D) eqn:Heven.
  - apply new_location_even_located; assumption.
  - unfold new_location. rewrite Heven. unfold new_location_odd.
    assert (Hodd : exists k, D = 2 * k + 1).
    { apply Z.odd_spec. rewrite <- Z.negb_even, Heven. reflexivity. }
    destruct Hodd as [k Hk].
    destruct (Z.eqb_spec r 0) as [-> | Hr0].
    + unfold located. cbn [shr_record_of_loc shr_m shr_r shr_s]. split; lia.
    + destruct (Z.compare_spec (2 * r + 1) D); unfold located;
        cbn [shr_record_of_loc shr_m shr_r shr_s]; (split; [lia | nia]).
Qed.

Lemma normal_mantissa_digits p :
  Z.pos p < 2 ^ 53 -> Zdigits2 (Z.pos (normal_mantissa p)) = 53.
Proof.
  intros Hp. destruct (normal_mantissa_bounds p Hp) as [_ HM].
  apply Zdigits2_unique; [lia | exact HM].
Qed.

(** The quotient of two positive integers of at most 53 bits, as doubles:
    it lies between any two dyadic bounds of the exact quotient that are
    doubles themselves. *)
Lemma SFdiv_int_between (n d A B s : Z) :
  0 < n < 2 ^ 53 -> 0 < d < 2 ^ 53 -> 0 <= s <= 1074 -> 0 < A -> B < 2 ^ 53 ->
  A * d <= n * 2 ^ s -> n * 2 ^ s <= B * d ->
  exists m e,
    SF64div (int_double n) (int_double d) = S754_finite false m e /\
    e <= - s /\
    A * 2 ^ (- e - s) <= Z.pos m <= B * 2 ^ (- e - s).
Proof.
  intros Hn Hd Hs HA HB HlowerA HupperB.
  destruct n as [| pn | pn]; [lia | | lia].
  destruct d as [| pd | pd]; [lia | | lia].
  cbn [int_double]. unfold SF64div, SFdiv, SFdiv_core_binary. cbn [xorb].
  rewrite !normal_mantissa_digits by lia.
  destruct (normal_mantissa_bounds pn (proj2 Hn)) as [HMn HMnb].
  destruct (normal_mantissa_bounds pd (proj2 Hd)) as [HMd HMdb].
  pose proof (digits2_pos_53 pn (proj2 Hn)) as Hdn.
  pose proof (digits2_pos_53 pd (proj2 Hd)) as Hdd.
  pose proof (digits2_pos_bounds pn) as Hbn.
  pose proof (digits2_pos_bounds pd) as Hbd.
  set (Mn := Z.pos (normal_mantissa pn)) in *.
  set (Md := Z.pos (normal_mantissa pd)) in *.
  set (dn := Z.pos (digits2_pos pn)) in *.
  set (dd := Z.pos (digits2_pos pd)) in *.
  clearbody Mn Md dn dd.
  set (ex := dn - 53). set (ey := dd - 53).
  replace (Z.min (fexp prec emax (53 + ex - (53 + ey))) (ex - ey)) with (ex - ey - 53)
    by (unfold fexp, SpecFloat.emin, prec, emax; subst ex ey; lia).
  replace (ex - ey - (ex - ey - 53)) with 53 by lia.
  change (Z.shiftl Mn 53) with (Z.shiftl Mn 53).
  rewrite Z.shiftl_mul_pow2 by lia.
  set (m' := Mn * 2 ^ 53).
  pose proof (Z_div_mod m' Md ltac:(lia)) as Hdiv.
  destruct (Z.div_eucl m' Md) as [q r]. destruct Hdiv as [Hq Hr].
  assert (Hq0 : 0 <= q) by (subst m'; nia).
  (* the size of the quotient *)
  assert (H2s : 0 < 2 ^ s) by (apply Z.pow_pos_nonneg; lia).
  assert (H2dn : 0 < 2 ^ (53 - dn)) by (apply Z.pow_pos_nonneg; lia).
  assert (H2dd : 0 < 2 ^ (53 - dd)) by (apply Z.pow_pos_nonneg; lia).
  assert (Hsize : dn - dd <= 53 - s).
  { assert (HB0 : 0 < B).
    { assert (0 < Z.pos pn * 2 ^ s) by (apply Z.mul_pos_pos; lia).
      apply (Z.mul_pos_cancel_r B (Z.pos pd)); lia. }
    assert (E1 : 2 ^ (dn - 1) * 2 ^ s <= Z.pos pn * 2 ^ s)
      by (apply Z.mul_le_mono_nonneg_r; lia).
    assert (E2 : B * Z.pos pd < 2 ^ 53 * 2 ^ dd)
      by (apply Z.mul_lt_mono_nonneg; lia).
    rewrite <- !pow2_split in * by lia.
    assert (E3 : 2 ^ (dn - 1 + s) < 2 ^ (53 + dd)) by lia.
    apply Z.pow_lt_mono_r_iff in E3; lia. }
  apply (binary_round_aux_between q (ex - ey - 53) _ m' Md A B s);
    try assumption; try lia.
  - apply new_location_located; try assumption; lia.
  - (* A / 2^s <= n / d *)
    subst m' ex ey. rewrite HMn, HMd.
    replace (- (dn - 53 - (dd - 53) - 53) - s) with (53 - s - dn + dd) by lia.
    assert (E : 2 ^ (53 - dn) * 2 ^ 53
                = 2 ^ (53 - s - dn + dd) * 2 ^ (53 - dd) * 2 ^ s).
    { rewrite <- !pow2_split by lia. f_equal. lia. }
    assert (HX : 0 < 2 ^ (53 - s - dn + dd)) by (apply Z.pow_pos_nonneg; lia).
    rewrite <- (Z.mul_assoc (Z.pos pn)), E.
    set (X := 2 ^ (53 - s - dn + dd)) in *. set (Y := 2 ^ (53 - dd)) in *.
    set (S := 2 ^ s) in *. clearbody X Y S.
    clear - HlowerA HX H2dd H2s. nia.
  - subst m' ex ey. rewrite HMn, HMd.
    replace (- (dn - 53 - (dd - 53) - 53) - s) with (53 - s - dn + dd) by lia.
    assert (E : 2 ^ (53 - dn) * 2 ^ 53
                = 2 ^ (53 - s - dn + dd) * 2 ^ (53 - dd) * 2 ^ s).
    { rewrite <- !pow2_split by lia. f_equal. lia. }
    assert (HX : 0 < 2 ^ (53 - s - dn + dd)) by (apply Z.pow_pos_nonneg; lia).
    rewrite <- (Z.mul_assoc (Z.pos pn)), E.
    set (X := 2 ^ (53 - s - dn + dd)) in *. set (Y := 2 ^ (53 - dd)) in *.
    set (S := 2 ^ s) in *. clearbody X Y S.
    clear - HupperB HX H2dd H2s. nia.
Qed.

Lemma Prim2SF_1000 : Prim2SF 1000 = int_double 1000.
Proof. reflexivity. Qed.

(** Whole seconds from a clock reading in milliseconds: the division by
    1000 in doubles, then Math.floor, is the integer quotient. *)
Lemma Math_floor_seconds now :
  0 <= now < 2 ^ 52 ->
  Math_floor (Number_of_Z now / 1000)%float = Number_of_Z (now / 1000).
Proof.
  intros Hnow.
  destruct (Z.eq_dec now 0) as [-> | Hne]; [vm_compute; reflexivity |].
  set (q := now / 1000).
  pose proof (Z.mul_div_le now 1000 ltac:(lia)) as Hlo.
  pose proof (Z.mul_succ_div_gt now 1000 ltac:(lia)) as Hhi.
  fold q in Hlo, Hhi.
  assert (Hq : 0 <= q) by (apply Z.div_pos; lia).
  assert (Hq43 : q < 2 ^ 43).
  { apply Z.div_lt_upper_bound; [lia |].
    change (2 ^ 52) with 4503599627370496 in Hnow.
    change (2 ^ 43) with 8796093022208. lia. }
  change (2 ^ 43) with 8796093022208 in Hq43.
  destruct (SFdiv_int_between now 1000 (Z.max 1 (1024 * q)) (1024 * (q + 1) - 1) 10)
    as (m & e & Hdiv & He & Hm).
  - change (2 ^ 53) with 9007199254740992. change (2 ^ 52) with 4503599627370496 in Hnow. lia.
  - change (2 ^ 53) with 9007199254740992. lia.
  - lia.
  - lia.
  - change (2 ^ 53) with 9007199254740992. lia.
  - change (2 ^ 10) with 1024. lia.
  - change (2 ^ 10) with 1024. lia.
  - unfold Math_floor.
    rewrite div_spec, Prim2SF_Number_of_Z, Prim2SF_1000, Hdiv
      by (change (2 ^ 53) with 9007199254740992;
          change (2 ^ 52) with 4503599627370496 in Hnow; lia).
    replace (0 <=? e) with false by (symmetry; apply Z.leb_gt; lia).
    f_equal.
    assert (Hsplit : 2 ^ (- e) = 2 ^ (- e - 10) * 1024).
    { change 1024 with (2 ^ 10). rewrite <- pow2_split by lia. f_equal. lia. }
    assert (HD : 0 < 2 ^ (- e - 10)) by (apply Z.pow_pos_nonneg; lia).
    symmetry. apply (Z.div_unique (Z.pos m) (2 ^ (- e)) q (Z.pos m - q * 2 ^ (- e))).
    + left. rewrite Hsplit. nia.
    + ring.
Qed.

(** Adding the doubles of two amounts whose sum has at most 53 bits loses
    nothing. *)
Lemma SFadd_int a b :
  0 <= a -> 0 <= b -> a + b < 2 ^ 53 ->
  SF64add (int_double a) (int_double b) = int_double (a + b).
Proof.
  intros Ha Hb Hab. unfold SF64add.
  destruct a as [| p | p]; [| | lia]; (destruct b as [| q | q]; [| | lia]);
    try reflexivity.
  cbn [int_double SFadd cond_Zopp].
  assert (Hp : Z.pos p < 2 ^ 53) by lia. assert (Hq : Z.pos q < 2 ^ 53) by lia.
  destruct (normal_mantissa_bounds p Hp) as [HMp _].
  destruct (normal_mantissa_bounds q Hq) as [HMq _].
  pose proof (digits2_pos_53 p Hp) as Hdp.
  pose proof (digits2_pos_53 q Hq) as Hdq.
  set (dp := Z.pos (digits2_pos p)) in *. set (dq := Z.pos (digits2_pos q)) in *.
  clearbody dp dq.
  set (ez := Z.min (dp - 53) (dq - 53)).
  rewrite !shl_align_fst by (subst ez; lia). rewrite HMp, HMq.
  rewrite <- !Z.mul_assoc, <- !pow2_split by (subst ez; lia).
  replace (53 - dp + (dp - 53 - ez)) with (- ez) by lia.
  replace (53 - dq + (dq - 53 - ez)) with (- ez) by lia.
  rewrite <- Z.mul_add_distr_r.
  replace ez with (- - ez) at 2 by lia.
  apply binary_normalize_int; [lia | subst ez; lia].
Qed.

Lemma Number_of_Z_add a b :
  0 <= a -> 0 <= b -> a + b < 2 ^ 53 ->
  (Number_of_Z a + Number_of_Z b)%float = Number_of_Z (a + b).
Proof.
  intros Ha Hb Hab. apply Prim2SF_inj.
  rewrite add_spec, !Prim2SF_Number_of_Z by lia.
  apply SFadd_int; assumption.
Qed.

Lemma apiExpiry_seconds now :
  0 <= now < 2 ^ 52 ->
  (Math_floor (Number_of_Z now / 1000) + 3600)%float = Number_of_Z (now / 1000 + 3600).
Proof.
  intros Hnow. rewrite Math_floor_seconds by assumption.
  change 3600%float with (Number_of_Z 3600).
  apply Number_of_Z_add; [apply Z.div_pos; lia | lia |].
  assert (now / 1000 < 2 ^ 43).
  { apply Z.div_lt_upper_bound; [lia |].
    change (2 ^ 52) with 4503599627370496 in Hnow.
    change (2 ^ 43) with 8796093022208. lia. }
  change (2 ^ 43) with 8796093022208 in H. change (2 ^ 53) with 9007199254740992. lia.
Qed.

Lemma Prim2SF_million : Prim2SF (Math_pow10 6) = int_double (10 ^ 6).
Proof. reflexivity. Qed.

(** An amount in millionths, shown with two decimals: the amount rounded to
    the nearest hundredth, when it is not exactly half a hundredth away from
    two of them. *)
Lemma toFixed2_millionths u :
  0 <= u < 2 ^ 52 -> u mod 10 ^ 4 <> 5000 ->
  toFixed2 (Number_of_Z u / Math_pow10 6)%float = hundredths ((u + 5000) / 10 ^ 4).
Proof.
  intros Hu Htie.
  destruct (Z.eq_dec u 0) as [-> | Hne]; [vm_compute; reflexivity |].
  change (2 ^ 52) with 4503599627370496 in Hu.
  set (c := (u + 5000) / 10 ^ 4).
  change (10 ^ 4) with 10000 in *.
  pose proof (Z.mul_div_le (u + 5000) 10000 ltac:(lia)) as Hlo.
  pose proof (Z.mul_succ_div_gt (u + 5000) 10000 ltac:(lia)) as Hhi.
  fold c in Hlo, Hhi.
  assert (Hc : 0 <= c) by (apply Z.div_pos; lia).
  (* the amount is strictly between the two ties around c hundredths *)
  assert (Hlow : (2 * c - 1) * 5000 + 1 <= u).
  { destruct (Z.eq_dec u ((2 * c - 1) * 5000)) as [E | E]; [| lia].
    exfalso. apply Htie. rewrite E.
    replace ((2 * c - 1) * 5000) with (5000 + (c - 1) * 10000) by ring.
    rewrite Z.mod_add by lia. reflexivity. }
  assert (Hhigh : u <= (2 * c + 1) * 5000 - 1) by lia.
  set (A := Z.max 1 ((2 * c - 1) * 5000 * 2 ^ 20 / 10 ^ 6 + 1)).
  set (B := ((2 * c + 1) * 5000 * 2 ^ 20 - 1) / 10 ^ 6).
  change (2 ^ 20) with 1048576 in *. change (10 ^ 6) with 1000000 in *.
  pose proof (Z.mul_div_le ((2 * c - 1) * 5000 * 1048576) 1000000 ltac:(lia)) as HA1.
  pose proof (Z.mul_succ_div_gt ((2 * c - 1) * 5000 * 1048576) 1000000 ltac:(lia)) as HA2.
  pose proof (Z.mul_div_le ((2 * c + 1) * 5000 * 1048576 - 1) 1000000 ltac:(lia)) as HB1.
  pose proof (Z.mul_succ_div_gt ((2 * c + 1) * 5000 * 1048576 - 1) 1000000 ltac:(lia)) as HB2.
  fold B in HB1, HB2.
  destruct (SFdiv_int_between u 1000000 A B 20) as (m & e & Hdiv & He & Hm).
  - change (2 ^ 53) with 9007199254740992. lia.
  - change (2 ^ 53) with 9007199254740992. lia.
  - lia.
  - subst A. lia.
  - change (2 ^ 53) with 9007199254740992. lia.
  - change (2 ^ 20) with 1048576. subst A. lia.
  - change (2 ^ 20) with 1048576. lia.
  - assert (Hx : Prim2SF (Number_of_Z u / Math_pow10 6) = S754_finite false m e).
    { rewrite div_spec, Prim2SF_Number_of_Z, Prim2SF_million
        by (change (2 ^ 53) with 9007199254740992; lia).
      exact Hdiv. }
    unfold toFixed2. rewrite Hx.
    replace (1e21 <=? abs (Number_of_Z u / Math_pow10 6))%float with false.
    2:{ rewrite leb_spec, abs_spec, Hx. symmetry.
        change (Prim2SF 1e21) with (S754_finite false 7629394531250000 17).
        unfold SFleb, SFabs, SFcompare.
        destruct (Z.compare_spec 17 e); [lia | lia | reflexivity]. }
    replace (0 <=? e) with false by (symmetry; apply Z.leb_gt; lia).
    assert (Hsplit : 2 ^ (- e) = 2 ^ (- e - 20) * 1048576).
    { change 1048576 with (2 ^ 20). rewrite <- pow2_split by lia. f_equal. lia. }
    assert (HD : 0 < 2 ^ (- e - 20)) by (apply Z.pow_pos_nonneg; lia).
    assert (Hn : (2 * 100 * Z.pos m + 2 ^ (- e)) / (2 * 2 ^ (- e)) = c).
    { symmetry.
      apply (Z.div_unique _ (2 * 2 ^ (- e)) c
               (2 * 100 * Z.pos m + 2 ^ (- e) - c * (2 * 2 ^ (- e)))).
      - left. rewrite Hsplit. subst A.
        set (D := 2 ^ (- e - 20)) in *. clearbody D. clear Hsplit Hx Hdiv.
        nia.
      - ring. }
    rewrite Hn. reflexivity.
Qed.

(** ** postOrder, stage by stage *)

Lemma postOrder_run w marketHash isOne betSizeUSDC impliedOdds :
  run w (orderPoster.postOrder marketHash isOne betSizeUSDC impliedOdds) at_start
  = postOrder_stages w marketHash isOne betSizeUSDC impliedOdds.
Proof.
  apply injective_projections.
  - unfold postOrder_stages, orderPoster.postOrder.
    destruct (parseUnits (Number_toString betSizeUSDC) 6) as [total | e]; [| reflexivity].
    expose.
    destruct (parseUnits (Number_toString impliedOdds) 20) as [pct | e]; [| reflexivity].
    expose. do 2 step_run. unfold at_start. cbn [entropy_used clock_reads].
    fold (first_bytes w 32). unfold BigInt_toString.
    fold (order_of_postOrder marketHash isOne total pct (w_now w 0) (first_bytes w 32)).
    cbv zeta.
    generalize (order_of_postOrder marketHash isOne total pct (w_now w 0) (first_bytes w 32)).
    intros order. unfold solidityPackedKeccak256.
    destruct (solidityPacked (orderPoster.hash_fields order)) as [packed | e];
      [| reflexivity].
    change (lift (mbind (fun packed0 => mret (keccak256 packed0)) (Ok packed)))
      with (@Ret string (keccak256 packed)).
    expose.
    destruct (w_env w "PRIVATE_KEY") as [[| c r] |] eqn:Henv.
    + rewrite (require_private_key_absent _ _ (or_intror Henv)). reflexivity.
    + rewrite (trace_key_present _ _ _ _ Henv). expose. step_run.
      destruct (w_newWallet w (String c r)) as [[] | e]; [| reflexivity].
      expose. unfold keccak256. rewrite getBytes_hexlify. expose. step_run.
      destruct (w_signMessage w (String c r) (Keccak.keccak256 packed)) as [sig | e];
        [| reflexivity].
      expose. step_run.
      change orderPoster.API_ENDPOINT with "https://api.sx.bet/orders/new".
      destruct (w_fetch w _ _); reflexivity.
    + rewrite (require_private_key_absent _ _ (or_introl Henv)). reflexivity.
  - unfold postOrder_stages, orderPoster.postOrder.
    destruct (parseUnits (Number_toString betSizeUSDC) 6) as [total | e]; [| reflexivity].
    expose.
    destruct (parseUnits (Number_toString impliedOdds) 20) as [pct | e]; [| reflexivity].
    expose. do 2 step_run. unfold at_start. cbn [entropy_used clock_reads].
    fold (first_bytes w 32). unfold BigInt_toString.
    fold (order_of_postOrder marketHash isOne total pct (w_now w 0) (first_bytes w 32)).
    cbv zeta.
    generalize (order_of_postOrder marketHash isOne total pct (w_now w 0) (first_bytes w 32)).
    intros order. unfold solidityPackedKeccak256.
    destruct (solidityPacked (orderPoster.hash_fields order)) as [packed | e];
      [| reflexivity].
    change (lift (mbind (fun packed0 => mret (keccak256 packed0)) (Ok packed)))
      with (@Ret string (keccak256 packed)).
    expose.
    destruct (w_env w "PRIVATE_KEY") as [[| c r] |] eqn:Henv.
    + rewrite (require_private_key_absent _ _ (or_intror Henv)). reflexivity.
    + rewrite (outcome_key_present _ _ _ _ Henv). expose. step_run.
      destruct (w_newWallet w (String c r)) as [[] | e]; [| reflexivity].
      expose. unfold keccak256. rewrite getBytes_hexlify. expose. step_run.
      destruct (w_signMessage w (String c r) (Keccak.keccak256 packed)) as [sig | e];
        [| reflexivity].
      expose. step_run.
      change orderPoster.API_ENDPOINT with "https://api.sx.bet/orders/new".
      destruct (w_fetch w _ _); reflexivity.
    + rewrite (require_private_key_absent _ _ (or_introl Henv)). reflexivity.
Qed.

(** X5. postOrder rejects an amount that does not scale, before anything
    else happens. When the bet size, printed by toString, is not a decimal
    that parseUnits takes with 6 decimals (exponent notation, more than 6
    decimals), or the bet size is but the implied odds are not with 20
    decimals, postOrder logs that error and throws it again: no clock is
    read, no salt drawn, no key read, nothing signed, nothing posted. *)

Theorem postOrder_rejects_unparsable :
  forall (w : World) (marketHash : string) (isMakerBettingOutcomeOne : bool)
         (betSizeUSDC impliedOdds : Number) (e : Error),
    parseUnits (Number_toString betSizeUSDC) 6 = Err e \/
    (is_ok (parseUnits (Number_toString betSizeUSDC) 6) = true /\
     parseUnits (Number_toString impliedOdds) 20 = Err e) ->
    trace_of w (orderPoster.postOrder marketHash isMakerBettingOutcomeOne
                  betSizeUSDC impliedOdds)
    = [ConsoleError "Error posting order:" e] /\
    outcome_of w (orderPoster.postOrder marketHash isMakerBettingOutcomeOne
                    betSizeUSDC impliedOdds)
    = Err e.
Proof.
  intros w mh isOne b o e H.
  unfold trace_of, outcome_of, orderPoster.postOrder.
  destruct H as [H | [Hb H]].
  - rewrite H. split; reflexivity.
  - destruct (parseUnits (Number_toString b) 6) as [total | e']; [| discriminate].
    expose. rewrite H. split; reflexivity.
Qed.

Lemma postOrder_rejects_unparsable_witness :
  Number_toString 1e-7 = "1e-7" /\
  outcome_of example_world (orderPoster.postOrder example_marketHash true 1e-7 0.5)
  = Err (INVALID_ARGUMENT "invalid FixedNumber string value") /\
  Number_toString 0.1234567 = "0.1234567" /\
  trace_of example_world (orderPoster.postOrder example_marketHash true 0.1234567 0.5)
  = [ConsoleError "Error posting order:" (NUMERIC_FAULT "too many decimals for format")].
Proof.
  assert (H1 : parseUnits (Number_toString 1e-7) 6
               = Err (INVALID_ARGUMENT "invalid FixedNumber string value"))
    by (vm_compute; reflexivity).
  assert (H2 : parseUnits (Number_toString 0.1234567) 6
               = Err (NUMERIC_FAULT "too many decimals for format"))
    by (vm_compute; reflexivity).
  split; [vm_compute; reflexivity |]. split.
  - exact (proj2 (postOrder_rejects_unparsable example_world example_marketHash true
                    1e-7 0.5 _ (or_introl H1))).
  - split; [vm_compute; reflexivity |].
    exact (proj1 (postOrder_rejects_unparsable example_world example_marketHash true
                    0.1234567 0.5 _ (or_introl H2))).
Defined.

(** X6. postOrder reads the clock and draws its salt before it looks for
    the key, and signs nothing until the hash, the key and the wallet are
    there. With both amounts scaled: when the nine fields do not pack (a
    marketHash that is not 32 bytes of hex), when PRIVATE_KEY is unset or
    empty, when the wallet cannot be built or when the signer fails, the
    run ends with that error logged and thrown again, after exactly the
    requests listed, none of them to the API. *)
Theorem postOrder_stops_before_signing :
  forall (w : World) (marketHash : string) (isMakerBettingOutcomeOne : bool)
         (betSizeUSDC impliedOdds : Number) (totalBetSize percentageOdds : Z),
    parseUnits (Number_toString betSizeUSDC) 6 = Ok totalBetSize ->
    parseUnits (Number_toString impliedOdds) 20 = Ok percentageOdds ->
    let order := order_of_postOrder marketHash isMakerBettingOutcomeOne
                   totalBetSize percentageOdds (w_now w 0) (first_bytes w 32) in
    let run := orderPoster.postOrder marketHash isMakerBettingOutcomeOne
                 betSizeUSDC impliedOdds in
    (forall e,
        solidityPacked (orderPoster.hash_fields order) = Err e ->
        trace_of w run
        = [DateNow; RandomBytes 32; ConsoleError "Error posting order:" e] /\
        outcome_of w run = Err e) /\
    (forall packed,
        solidityPacked (orderPoster.hash_fields order) = Ok packed ->
        (w_env w "PRIVATE_KEY" = None \/ w_env w "PRIVATE_KEY" = Some "" ->
         trace_of w run
         = [DateNow; RandomBytes 32; GetEnv "PRIVATE_KEY";
            ConsoleError "Error posting order:"
              (JsError "PRIVATE_KEY not found in .env file")] /\
         outcome_of w run = Err (JsError "PRIVATE_KEY not found in .env file")) /\
        (forall key e,
            w_env w "PRIVATE_KEY" = Some key -> key <> "" ->
            w_newWallet w key = Err e ->
            trace_of w run
            = [DateNow; RandomBytes 32; GetEnv "PRIVATE_KEY"; NewWallet key;
               ConsoleError "Error posting order:" e] /\
            outcome_of w run = Err e) /\
        (forall key e,
            w_env w "PRIVATE_KEY" = Some key -> key <> "" ->
            w_newWallet w key = Ok tt ->
            w_signMessage w key (Keccak.keccak256 packed) = Err e ->
            trace_of w run
            = [DateNow; RandomBytes 32; GetEnv "PRIVATE_KEY"; NewWallet key;
               SignMessage key (Keccak.keccak256 packed);
               ConsoleError "Error posting order:" e] /\
            outcome_of w run = Err e)).
Proof.
  intros w mh isOne b o total pct Hb Ho order prog. subst prog.
  unfold trace_of, outcome_of. rewrite postOrder_run.
  unfold postOrder_stages. rewrite Hb, Ho. cbv zeta. fold order. split.
  - intros e He. rewrite He. split; reflexivity.
  - intros packed Hpacked. rewrite Hpacked. split; [| split].
    + intros [Hkey | Hkey]; rewrite Hkey; split; reflexivity.
    + intros key e Henv Hne Hwallet. rewrite Henv.
      destruct key as [| c r]; [congruence |]. rewrite Hwallet. split; reflexivity.
    + intros key e Henv Hne Hwallet Hsig. rewrite Henv.
      destruct key as [| c r]; [congruence |]. rewrite Hwallet, Hsig.
      split; reflexivity.
Qed.

Lemma postOrder_stops_before_signing_witness :
  trace_of keyless_world (orderPoster.postOrder example_marketHash true 10 0.5025)
  = [DateNow; RandomBytes 32; GetEnv "PRIVATE_KEY";
     ConsoleError "Error posting order:" (JsError "PRIVATE_KEY not found in .env file")] /\
  trace_of example_world (orderPoster.postOrder "0x12" true 10 0.5025)
  = [DateNow; RandomBytes 32;
     ConsoleError "Error posting order:" (INVALID_ARGUMENT "invalid value for bytes32")].
Proof.
  assert (Hb : parseUnits (Number_toString 10) 6 = Ok 10000000)
    by (vm_compute; reflexivity).
  assert (Ho : parseUnits (Number_toString 0.5025) 20 = Ok 50250000000000000000)
    by (vm_compute; reflexivity).
  split.
  - destruct (postOrder_stops_before_signing keyless_world example_marketHash true
                10 0.5025 _ _ Hb Ho) as [_ H].
    destruct (solidityPacked
                (orderPoster.hash_fields
                   (order_of_postOrder example_marketHash true 10000000
                      50250000000000000000 (w_now keyless_world 0)
                      (first_bytes keyless_world 32))))
      as [packed | e] eqn:Hpacked; [| vm_compute in Hpacked; discriminate].
    destruct (H packed eq_refl) as [Hkey _].
    exact (proj1 (Hkey (or_introl eq_refl))).
  - destruct (postOrder_stops_before_signing example_world "0x12" true
                10 0.5025 _ _ Hb Ho) as [H _].
    refine (proj1 (H _ _)). vm_compute. reflexivity.
Defined.

(** X7. postOrder signs the digest of the packed order and posts that order
    with the signature it got; whatever the API answers is the result. With
    both amounts scaled, the fields packed, the key set and the wallet
    built, once the signer answers the run is: clock, 32 bytes of salt, key,
    wallet, signature over the Keccak-256 digest of the packing, one POST of
    the order built from those values with that signature; the response
    comes back as it is, whatever its status, and only a failure of the
    request itself is logged and thrown. *)
Theorem postOrder_signs_then_posts :
  forall (w : World) (marketHash : string) (isMakerBettingOutcomeOne : bool)
         (betSizeUSDC impliedOdds : Number) (totalBetSize percentageOdds : Z)
         (packed : list byte) (key sig : string),
    parseUnits (Number_toString betSizeUSDC) 6 = Ok totalBetSize ->
    parseUnits (Number_toString impliedOdds) 20 = Ok percentageOdds ->
    let order := order_of_postOrder marketHash isMakerBettingOutcomeOne
                   totalBetSize percentageOdds (w_now w 0) (first_bytes w 32) in
    solidityPacked (orderPoster.hash_fields order) = Ok packed ->
    w_env w "PRIVATE_KEY" = Some key -> key <> "" ->
    w_newWallet w key = Ok tt ->
    w_signMessage w key (Keccak.keccak256 packed) = Ok sig ->
    let body := NewOrdersBody [{| so_order := order; so_signature := sig |}] in
    let run := orderPoster.postOrder marketHash isMakerBettingOutcomeOne
                 betSizeUSDC impliedOdds in
    trace_of w run
    = [DateNow; RandomBytes 32; GetEnv "PRIVATE_KEY"; NewWallet key;
       SignMessage key (Keccak.keccak256 packed);
       Fetch "https://api.sx.bet/orders/new" body]
      ++ match w_fetch w "https://api.sx.bet/orders/new" body with
         | Ok _ => []
         | Err e => [ConsoleError "Error posting order:" e]
         end /\
    outcome_of w run = w_fetch w "https://api.sx.bet/orders/new" body.
Proof.
  intros w mh isOne b o total pct packed key sig Hb Ho order Hpacked Henv Hkey
    Hwallet Hsig body prog. subst prog.
  unfold trace_of, outcome_of. rewrite postOrder_run.
  unfold postOrder_stages. rewrite Hb, Ho. cbv zeta. fold order.
  rewrite Hpacked, Henv. destruct key as [| c r]; [congruence |].
  rewrite Hwallet, Hsig. fold body.
  destruct (w_fetch w "https://api.sx.bet/orders/new" body); split; reflexivity.
Qed.

Lemma postOrder_signs_then_posts_witness :
  exists packed,
    trace_of example_world (orderPoster.postOrder example_marketHash true 10 0.5025)
    = [DateNow; RandomBytes 32; GetEnv "PRIVATE_KEY"; NewWallet "0x0123";
       SignMessage "0x0123" (Keccak.keccak256 packed);
       Fetch "https://api.sx.bet/orders/new"
         (NewOrdersBody [{| so_order := example_new_order; so_signature := "0x5197" |}])] /\
    is_ok (outcome_of example_world
             (orderPoster.postOrder example_marketHash true 10 0.5025)) = true.
Proof.
  assert (Hb : parseUnits (Number_toString 10) 6 = Ok 10000000)
    by (vm_compute; reflexivity).
  assert (Ho : parseUnits (Number_toString 0.5025) 20 = Ok 50250000000000000000)
    by (vm_compute; reflexivity).
  assert (Horder : order_of_postOrder example_marketHash true 10000000
                     50250000000000000000 (w_now example_world 0)
                     (first_bytes example_world 32) = example_new_order)
    by (vm_compute; reflexivity).
  destruct (solidityPacked (orderPoster.hash_fields example_new_order))
    as [packed | e] eqn:Hpacked; [| vm_compute in Hpacked; discriminate].
  exists packed.
  rewrite <- Horder in Hpacked.
  destruct (postOrder_signs_then_posts example_world example_marketHash true 10 0.5025
              _ _ packed "0x0123" "0x5197" Hb Ho Hpacked eq_refl ltac:(discriminate)
              eq_refl eq_refl) as [Htrace Hout].
  rewrite Htrace, Hout, Horder. split; reflexivity.
Defined.

Lemma Forall_app_one {A} (P : A -> Prop) (l : list A) (x : A) :
  Forall P l -> P x -> Forall P (l ++ [x]).
Proof. intros Hl Hx. apply Forall_app. split; [exact Hl | constructor; [exact Hx | constructor]]. Qed.

(** X8. The expiry that postOrder posts is one hour after the clock, in
    whole seconds. For a clock reading [now] in milliseconds from 0 up to
    2^52, every request that a run of postOrder makes to the API carries one
    order whose apiExpiry is exactly the integer [now / 1000 + 3600] (the
    division and Math.floor in doubles lose nothing) and whose expiry is the
    constant 2209006800; and postOrder makes no other request to the API. *)
Theorem postOrder_expiry :
  forall (w : World) (marketHash : string) (isMakerBettingOutcomeOne : bool)
         (betSizeUSDC impliedOdds : Number),
    0 <= w_now w 0 < 2 ^ 52 ->
    Forall (posts_expiry (w_now w 0))
      (trace_of w (orderPoster.postOrder marketHash isMakerBettingOutcomeOne
                     betSizeUSDC impliedOdds)).
Proof.
  intros w mh isOne b o Hnow.
  unfold trace_of. rewrite postOrder_run. unfold postOrder_stages.
  destruct (parseUnits (Number_toString b) 6) as [total | e];
    [| repeat constructor].
  destruct (parseUnits (Number_toString o) 20) as [pct | e];
    [| repeat constructor].
  cbv zeta.
  destruct (solidityPacked _) as [packed | e]; [| repeat constructor].
  destruct (w_env w "PRIVATE_KEY") as [[| c r] |]; try (repeat constructor).
  destruct (w_newWallet w (String c r)) as [[] | e]; [| repeat constructor].
  destruct (w_signMessage w (String c r) (Keccak.keccak256 packed)) as [sig | e];
    [| repeat constructor].
  assert (Hposted : posts_expiry (w_now w 0)
            (Fetch "https://api.sx.bet/orders/new"
               (NewOrdersBody
                  [{| so_order := order_of_postOrder mh isOne total pct (w_now w 0)
                                    (first_bytes w 32);
                      so_signature := sig |}]))).
  { cbn [posts_expiry]. eexists. eexists. split; [reflexivity |].
    cbn [order_of_postOrder no_apiExpiry no_expiry].
    split; [apply apiExpiry_seconds, Hnow | reflexivity]. }
  destruct (w_fetch w _ _) as [response | e]; cbn [fst app];
    repeat (constructor; try exact I); exact Hposted.
Qed.

Lemma postOrder_expiry_witness :
  0 <= 1730000000123 < 2 ^ 52 /\
  Forall (posts_expiry 1730000000123)
    (trace_of example_world (orderPoster.postOrder example_marketHash true 10 0.5025)) /\
  Number_of_Z (1730000000123 / 1000 + 3600) = 1730003600%float.
Proof.
  split; [lia |]. split.
  - exact (postOrder_expiry example_world example_marketHash true 10 0.5025 ltac:(simpl; lia)).
  - vm_compute. reflexivity.
Defined.

(** ** fillOrder and cancelOrders, stage by stage *)

(** X9. fillOrder returns data only when the API says success. With the key
    set: a wallet that cannot be built ends the run before any salt is
    drawn; a signer that fails ends it before any request to the API; and
    when the API answers with a status other than success, fillOrder logs
    and throws Fill failed: followed by the response, as it does the error
    of a request that fails. *)

Theorem fillOrder_failures :
  forall (w : World) (orderList : list Order) (amounts : list decStr) (key : string),
    w_env w "PRIVATE_KEY" = Some key -> key <> "" ->
    let run := orderFiller.fillOrder orderList amounts in
    (forall e,
        w_newWallet w key = Err e ->
        trace_of w run
        = [GetEnv "PRIVATE_KEY"; NewWallet key; ConsoleError "Error filling order:" e] /\
        outcome_of w run = Err e) /\
    (w_newWallet w key = Ok tt ->
     exists payload,
       (forall e,
           w_signTypedData w key payload = Err e ->
           trace_of w run
           = [GetEnv "PRIVATE_KEY"; NewWallet key; RandomBytes 32;
              SignTypedData key payload; ConsoleError "Error filling order:" e] /\
           outcome_of w run = Err e) /\
       (forall sig,
           w_signTypedData w key payload = Ok sig ->
           exists body,
             (forall e,
                 w_fetch w "https://api.sx.bet/orders/fill" body = Err e ->
                 trace_of w run
                 = [GetEnv "PRIVATE_KEY"; NewWallet key; RandomBytes 32;
                    SignTypedData key payload;
                    Fetch "https://api.sx.bet/orders/fill" body;
                    ConsoleError "Error filling order:" e] /\
                 outcome_of w run = Err e) /\
             (forall response,
                 w_fetch w "https://api.sx.bet/orders/fill" body = Ok response ->
                 status response <> "success" ->
                 trace_of w run
                 = [GetEnv "PRIVATE_KEY"; NewWallet key; RandomBytes 32;
                    SignTypedData key payload;
                    Fetch "https://api.sx.bet/orders/fill" body;
                    ConsoleError "Error filling order:"
                      (JsError ("Fill failed: " +:+ text response))] /\
                 outcome_of w run
                 = Err (JsError ("Fill failed: " +:+ text response))))).
Proof.
  intros w orderList amounts key Henv Hkey prog.
  destruct key as [| c r]; [congruence |]. subst prog.
  unfold trace_of, outcome_of, orderFiller.fillOrder. expose.
  rewrite (trace_key_present _ _ _ _ Henv), (outcome_key_present _ _ _ _ Henv).
  do 2 step_run. split.
  - intros e Hwallet. rewrite Hwallet. split; reflexivity.
  - intros Hwallet. rewrite Hwallet.
    unfold orderFiller.createFillOrderPayload.
    do 4 step_run.
    match goal with |- context [Z_of_be ?bs] => generalize (Z_of_be bs) end.
    intros salt.
    eexists. split.
    + intros e Hsig. rewrite Hsig. split; reflexivity.
    + intros sig Hsig. rewrite Hsig. do 2 step_run.
      change (orderFiller.SX_BET_API_URL +:+ "/orders/fill")
        with "https://api.sx.bet/orders/fill".
      eexists. split.
      * intros e Hfetch. rewrite Hfetch. split; reflexivity.
      * intros response Hfetch Hstatus. rewrite Hfetch. expose.
        destruct (String.eqb_spec (status response) "success") as [Heq | _];
          [contradiction |].
        split; reflexivity.
Qed.

Lemma fillOrder_failures_witness :
  outcome_of refusing_world (orderFiller.fillOrder [order_a] [7])
  = Err (JsError "Fill failed: {status:failure}").
Proof.
  destruct (fillOrder_failures refusing_world [order_a] [7] "0x0123" eq_refl
              ltac:(discriminate)) as [_ H].
  destruct (H eq_refl) as (payload & _ & Hsigned).
  destruct (Hsigned "0x5197" eq_refl) as (body & _ & Hrefused).
  exact (proj2 (Hrefused _ eq_refl ltac:(discriminate))).
Defined.

Lemma length_hex_of_bytes bs : String.length (hex_of_bytes bs) = (2 * length bs)%nat.
Proof.
  induction bs as [| b bs IH]; [reflexivity |].
  cbn [hex_of_bytes String.length length]. rewrite IH. lia.
Qed.

Lemma strip_0x_prefix key :
  match key with
  | String "0" (String "x" r) => r
  | _ => key
  end = if startsWith_0x key then drop_str 2 key else key.
Proof.
  destruct key as [| a [| b r]]; [reflexivity | |];
    destruct a as [[] [] [] [] [] [] [] []]; try reflexivity;
    destruct b as [[] [] [] [] [] [] [] []]; reflexivity.
Qed.

(** A run of cancelOrders with the key set, in full. *)
Lemma cancelOrders_run (w : World) (orderHashes : list string) (key : string) :
  w_env w "PRIVATE_KEY" = Some key -> key <> "" ->
  let salt := hexlify (first_bytes w 32) in
  let timestamp := Math_floor (Number_of_Z (w_now w 0) / 1000)%float in
  let payload := orderCanceller.getCancelOrderEIP712Payload orderHashes salt timestamp in
  let bufferPrivateKey :=
    Buffer_from_hex (if startsWith_0x key then drop_str 2 key else key) in
  let url := "https://api.sx.bet/orders/cancel/v2?chainVersion=SXR" in
  let body sig := CancelBody {|
                    ca_signature := sig;
                    ca_orderHashes := orderHashes;
                    ca_salt := salt;
                    ca_maker := "0xa6fa134f76496300419E6dbee487239F09d247aE";
                    ca_timestamp := timestamp
                  |} in
  trace_of w (orderCanceller.cancelOrders orderHashes)
  = GetEnv "PRIVATE_KEY" :: RandomBytes 32 :: DateNow
    :: SignTypedDataV4 bufferPrivateKey payload
    :: match w_signTypedDataV4 w bufferPrivateKey payload with
       | Err e => [ConsoleError "Error cancelling orders:" e]
       | Ok sig =>
           Fetch url (body sig)
           :: match w_fetch w url (body sig) with
              | Ok _ => []
              | Err e => [ConsoleError "Error cancelling orders:" e]
              end
       end /\
  outcome_of w (orderCanceller.cancelOrders orderHashes)
  = match w_signTypedDataV4 w bufferPrivateKey payload with
    | Err e => Err e
    | Ok sig => w_fetch w url (body sig)
    end.
Proof.
  intros Henv Hkey salt timestamp payload bufferPrivateKey url body.
  subst bufferPrivateKey. rewrite <- strip_0x_prefix.
  destruct key as [| c r]; [congruence |].
  unfold trace_of, outcome_of, orderCanceller.cancelOrders. expose.
  rewrite (trace_key_present _ _ _ _ Henv), (outcome_key_present _ _ _ _ Henv).
  match goal with |- context [Buffer_from_hex ?k] => generalize (Buffer_from_hex k) end.
  intros bufferPrivateKey.
  do 6 step_run. unfold at_start. cbn [entropy_used clock_reads].
  fold (first_bytes w 32). fold (hexlify (first_bytes w 32)). fold salt.
  fold timestamp. fold payload. clearbody payload.
  destruct (w_signTypedDataV4 w bufferPrivateKey payload) as [sig | e];
    [| split; reflexivity].
  do 2 step_run.
  change (orderCanceller.API_ENDPOINT +:+ _) with url.
  change orderCanceller.MAKER with "0xa6fa134f76496300419E6dbee487239F09d247aE".
  fold (body sig). clearbody body.
  destruct (w_fetch w url (body sig)); split; reflexivity.
Qed.

(** X10. The salt of a cancellation is a well-formed bytes32, and nothing is
    posted without a signature. With the key set, cancelOrders signs typed
    data whose domain salt is 0x followed by the 64 hex digits of the 32
    bytes drawn (66 characters, which decode to those bytes); when the
    signer fails the error is logged and thrown and no request goes to the
    API; when it answers, one POST carries the signature with the same
    hashes, salt and timestamp, and the response comes back as it is,
    whatever its status. *)

Theorem cancelOrders_salt :
  forall (w : World) (orderHashes : list string) (key : string),
    w_env w "PRIVATE_KEY" = Some key -> key <> "" ->
    let salt := hexlify (first_bytes w 32) in
    let timestamp := Math_floor (Number_of_Z (w_now w 0) / 1000)%float in
    let payload := orderCanceller.getCancelOrderEIP712Payload orderHashes salt timestamp in
    let bufferPrivateKey :=
      Buffer_from_hex (if startsWith_0x key then drop_str 2 key else key) in
    let run := orderCanceller.cancelOrders orderHashes in
    String.length salt = 66%nat /\
    getBytes salt = Ok (first_bytes w 32) /\
    (forall e,
        w_signTypedDataV4 w bufferPrivateKey payload = Err e ->
        trace_of w run
        = [GetEnv "PRIVATE_KEY"; RandomBytes 32; DateNow;
           SignTypedDataV4 bufferPrivateKey payload;
           ConsoleError "Error cancelling orders:" e] /\
        outcome_of w run = Err e) /\
    (forall sig,
        w_signTypedDataV4 w bufferPrivateKey payload = Ok sig ->
        let body := CancelBody {|
                      ca_signature := sig;
                      ca_orderHashes := orderHashes;
                      ca_salt := salt;
                      ca_maker := "0xa6fa134f76496300419E6dbee487239F09d247aE";
                      ca_timestamp := timestamp
                    |} in
        let url := "https://api.sx.bet/orders/cancel/v2?chainVersion=SXR" in
        trace_of w run
        = [GetEnv "PRIVATE_KEY"; RandomBytes 32; DateNow;
           SignTypedDataV4 bufferPrivateKey payload; Fetch url body]
          ++ match w_fetch w url body with
             | Ok _ => []
             | Err e => [ConsoleError "Error cancelling orders:" e]
             end /\
        outcome_of w run = w_fetch w url body).
Proof.
  intros w hashes key Henv Hkey salt timestamp payload bufferPrivateKey prog.
  destruct (cancelOrders_run w hashes key Henv Hkey) as [Htrace Hout].
  fold salt timestamp payload bufferPrivateKey prog in Htrace, Hout.
  split; [| split; [| split]].
  - subst salt. unfold hexlify.
    change ("0x" +:+ hex_of_bytes (first_bytes w 32))
      with (String "0" (String "x" (hex_of_bytes (first_bytes w 32)))).
    cbn [String.length]. rewrite length_hex_of_bytes.
    unfold first_bytes. rewrite length_map, length_seq. reflexivity.
  - apply getBytes_hexlify.
  - intros e Hsig. rewrite Hsig in Htrace, Hout. split; assumption.
  - intros sig Hsig body url. rewrite Hsig in Htrace, Hout. split; assumption.
Qed.

Lemma cancelOrders_salt_witness :
  hexlify (first_bytes example_world 32)
  = "0x000102030405060708090a0b0c0d0e0f101112131415161718191a1b1c1d1e1f" /\
  String.length (hexlify (first_bytes example_world 32)) = 66%nat /\
  getBytes (hexlify (first_bytes example_world 32)) = Ok (first_bytes example_world 32).
Proof.
  split; [vm_compute; reflexivity |].
  destruct (cancelOrders_salt example_world [] "0x0123" eq_refl ltac:(discriminate))
    as (Hlen & Hbytes & _).
  split; [exact Hlen | exact Hbytes].
Defined.

(** X11. The 0x prefix of the key is optional for cancelOrders. For a key
    that does not start with 0x, a run with PRIVATE_KEY set to 0x followed
    by the key makes the same requests, the signing request with the same
    key bytes, and ends the same way as a run with PRIVATE_KEY set to the
    key alone. *)



(** X12. The timestamp of a cancellation is the clock in whole seconds. For
    a clock reading [now] in milliseconds from 0 up to 2^52, every typed
    data that a run of cancelOrders hands to the signer and every body it
    posts carries exactly the integer [now / 1000] as timestamp, and
    cancelOrders makes no other request to the API. *)
Theorem cancelOrders_timestamp :
  forall (w : World) (orderHashes : list string),
    0 <= w_now w 0 < 2 ^ 52 ->
    Forall (cancels_at (w_now w 0))
      (trace_of w (orderCanceller.cancelOrders orderHashes)).
Proof.
  intros w hashes Hnow.
  destruct (w_env w "PRIVATE_KEY") as [[| c r] |] eqn:Henv.
  - unfold trace_of, orderCanceller.cancelOrders. expose.
    rewrite (require_private_key_absent _ _ (or_intror Henv)).
    repeat constructor.
  - destruct (cancelOrders_run w hashes (String c r) Henv ltac:(discriminate))
      as [Htrace _].
    rewrite Htrace. clear Htrace.
    pose proof (Math_floor_seconds _ Hnow) as Hts.
    constructor; [exact I |]. constructor; [exact I |]. constructor; [exact I |].
    constructor; [exact Hts |].
    destruct (w_signTypedDataV4 w _ _) as [sig | e]; [| repeat constructor].
    constructor; [exact Hts |].
    destruct (w_fetch w _ _); repeat constructor.
  - unfold trace_of, orderCanceller.cancelOrders. expose.
    rewrite (require_private_key_absent _ _ (or_introl Henv)).
    repeat constructor.
Qed.

Lemma cancelOrders_timestamp_witness :
  0 <= 1730000000123 < 2 ^ 52 /\
  Forall (cancels_at 1730000000123)
    (trace_of example_world (orderCanceller.cancelOrders ["0x0a"])) /\
  existsb is_signing (trace_of example_world (orderCanceller.cancelOrders ["0x0a"])) = true.
Proof.
  split; [lia |]. split.
  - exact (cancelOrders_timestamp example_world ["0x0a"] ltac:(simpl; lia)).
  - vm_compute. reflexivity.
Defined.

(** ** formatTrade *)

Lemma Math_pow10_20 : Math_pow10 20 = 1e20%float.
Proof. vm_compute. reflexivity. Qed.

(** X13. formatTrade shows a trade without floating-point artefacts. For a
    stake of [u] millionths with [0 <= u < 2^52] that is not exactly half a
    cent between two cents, the stake shown is [u / 10^6] rounded to the
    nearest cent; for odds that are a whole number [h] of hundredths of a
    percent, from 0 to 100 percent, the implied odds shown are [h / 100]
    percent with two decimals and the decimal odds [10000 / h] rounded to
    two decimals (a tie going up), Infinity at 0; and a chainVersion that is
    absent or empty is shown as N/A, any other as it is. *)
Theorem formatTrade_exact :
  forall (Date_of_ms_toLocaleString : Number -> string) (trade : Trade) (h : Z),
    0 <= tr_stake trade < 2 ^ 52 ->
    tr_stake trade mod 10 ^ 4 <> 5000 ->
    0 <= h <= 10000 ->
    tr_odds trade = h * 10 ^ 16 ->
    exists formatted,
      formatTrade Date_of_ms_toLocaleString trade = Ok formatted /\
      ft_stake formatted = hundredths ((tr_stake trade + 5000) / 10 ^ 4) /\
      ft_impliedOdds formatted = hundredths h +:+ "%" /\
      ft_decimalOdds formatted
      = (if h =? 0 then "Infinity" else rounded_hundredths 10000 h) /\
      ft_chainVersion formatted
      = match tr_chainVersion trade with
        | None | Some EmptyString => "N/A"
        | Some version => version
        end.
Proof.
  intros toLocale trade h Hstake Htie Hh Hodds.
  unfold formatTrade. cbn [toDecimalOdds mbind mret result_bind result_ret].
  eexists. split; [reflexivity |].
  cbn [ft_stake ft_impliedOdds ft_decimalOdds ft_chainVersion].
  unfold toNominalAmount, toImpliedOdds, parseFloat. rewrite Hodds, Math_pow10_20.
  split; [apply toFixed2_millionths; assumption |]. split; [| split; [| reflexivity]].
  - pose proof (holds_from_spec _ _ 0 formatOdds_percentage_grid h ltac:(lia)) as H.
    unfold formatOdds_shows_percentage in H. apply String.eqb_eq in H. exact H.
  - pose proof (holds_from_spec _ _ 0 formatOdds_decimal_grid h ltac:(lia)) as H.
    unfold formatOdds_shows_decimal in H.
    destruct (Z.eqb_spec h 0) as [-> | Hne]; [vm_compute; reflexivity |].
    cbn [orb] in H. apply String.eqb_eq in H. exact H.
Qed.

Lemma formatTrade_exact_witness :
  exists formatted,
    formatTrade (fun _ => "") example_trade = Ok formatted /\
    ft_stake formatted = "12.35" /\
    ft_impliedOdds formatted = "50.25%" /\
    ft_decimalOdds formatted = "1.99" /\
    ft_chainVersion formatted = "N/A".
Proof.
  destruct (formatTrade_exact (fun _ => "") example_trade 5025
              ltac:(simpl; lia) ltac:(discriminate) ltac:(lia) eq_refl)
    as (formatted & Hf & Hstake & Hodds & Hdecimal & Hchain).
  exists formatted. split; [exact Hf |]. split; [exact Hstake |].
  split; [exact Hodds |]. split; [exact Hdecimal | exact Hchain].
Defined.

(** ** Fixtures: filter, then sort *)

Section Sorting.

Context {A : Type} (comparefn : A -> A -> Z) (key : A -> Z).

Lemma Array_sort_insert_Permutation x l :
  Permutation (Array_sort_insert comparefn x l) (x :: l).
Proof.
  induction l as [| y l IH]; [reflexivity |].
  cbn [Array_sort_insert]. destruct (comparefn x y <=? 0); [reflexivity |].
  rewrite IH. apply perm_swap.
Qed.

Lemma Array_sort_Permutation l : Permutation (Array_sort comparefn l) l.
Proof.
  induction l as [| x l IH]; [reflexivity |].
  cbn [Array_sort foldr]. rewrite Array_sort_insert_Permutation.
  apply perm_skip, IH.
Qed.

Lemma Array_sort_In x l : In x (Array_sort comparefn l) <-> In x l.
Proof.
  split; apply Permutation_in;
    [apply Array_sort_Permutation | symmetry; apply Array_sort_Permutation].
Qed.

Lemma Array_sort_insert_sorted x l :
  by_key comparefn key (x :: l) ->
  Sorted.StronglySorted (fun a b => key a <= key b) l ->
  Sorted.StronglySorted (fun a b => key a <= key b) (Array_sort_insert comparefn x l).
Proof.
  intros Hkey Hsorted. induction Hsorted as [| y l Hl IH Hy].
  - repeat constructor.
  - cbn [Array_sort_insert].
    assert (Hxy : comparefn x y = key x - key y) by (apply Hkey; simpl; auto).
    destruct (Z.leb_spec (comparefn x y) 0) as [Hle | Hgt].
    + constructor; [constructor; assumption |].
      constructor; [lia |].
      rewrite List.Forall_forall in Hy |- *. intros z Hz. specialize (Hy z Hz). lia.
    + constructor.
      * apply IH. intros a b Ha Hb. apply Hkey; simpl in *; tauto.
      * rewrite List.Forall_forall in Hy |- *. intros z Hz.
        apply (Permutation_in _ (Array_sort_insert_Permutation x l)) in Hz.
        destruct Hz as [<- | Hz]; [lia | apply Hy, Hz].
Qed.

Lemma Array_sort_sorted l :
  by_key comparefn key l ->
  Sorted.StronglySorted (fun a b => key a <= key b) (Array_sort comparefn l).
Proof.
  induction l as [| x l IH]; intros Hkey; [constructor |].
  cbn [Array_sort foldr]. apply Array_sort_insert_sorted.
  - intros a b Ha Hb. apply Hkey.
    + destruct Ha as [<- | Ha]; [left; reflexivity | right].
      apply Array_sort_In, Ha.
    + destruct Hb as [<- | Hb]; [left; reflexivity | right].
      apply Array_sort_In, Hb.
  - apply IH. intros a b Ha Hb. apply Hkey; right; assumption.
Qed.

(** Stability: the elements of one key keep their order. *)
Lemma Array_sort_insert_stable (k : Z) x l :
  by_key comparefn key (x :: l) ->
  Sorted.StronglySorted (fun a b => key a <= key b) l ->
  List.filter (fun a => key a =? k) (Array_sort_insert comparefn x l)
  = List.filter (fun a => key a =? k) (x :: l).
Proof.
  intros Hkey Hsorted. induction Hsorted as [| y l Hl IH Hy]; [reflexivity |].
  cbn [Array_sort_insert].
  assert (Hxy : comparefn x y = key x - key y) by (apply Hkey; simpl; auto).
  destruct (Z.leb_spec (comparefn x y) 0) as [Hle | Hgt]; [reflexivity |].
  cbn [List.filter].
  rewrite IH by (intros a b Ha Hb; apply Hkey; simpl in *; tauto).
  cbn [List.filter].
  destruct (Z.eqb_spec (key x) k) as [Hx | Hx];
    destruct (Z.eqb_spec (key y) k) as [Hyk | Hyk]; try reflexivity.
  lia.
Qed.

Lemma Array_sort_stable (k : Z) l :
  by_key comparefn key l ->
  List.filter (fun a => key a =? k) (Array_sort comparefn l)
  = List.filter (fun a => key a =? k) l.
Proof.
  induction l as [| x l IH]; intros Hkey; [reflexivity |].
  cbn [Array_sort foldr].
  assert (Hrest : by_key comparefn key l) by (intros a b Ha Hb; apply Hkey; right; assumption).
  rewrite Array_sort_insert_stable.
  - cbn [List.filter]. fold (Array_sort comparefn l). rewrite (IH Hrest). reflexivity.
  - intros a b Ha Hb. apply Hkey.
    + destruct Ha as [<- | Ha]; [left; reflexivity | right; apply Array_sort_In, Ha].
    + destruct Hb as [<- | Hb]; [left; reflexivity | right; apply Array_sort_In, Hb].
  - apply Array_sort_sorted, Hrest.
Qed.

End Sorting.

(** X14. The fixtures shown are those of the next 48 hours, in order of
    start. For a clock reading [now] (milliseconds, from 0 up to the last
    time value less 48 hours), sortFixturesChronologically applied to
    filterFixturesForNext48Hours of a list holds exactly the fixtures of the
    list whose start date is valid and lies from [now] to [now + 172800000],
    both ends included; it is a rearrangement of the filtered list, in
    ascending order of start, and fixtures that start at the same time keep
    the order they had in the input. *)
Theorem fixtures_of_next_48_hours :
  forall (Date_parse : string -> option Z) (now : Z) (fixtures : list Fixture),
    0 <= now <= 8640000000000000 - 172800000 ->
    let shown := sortFixturesChronologically Date_parse
                   (filterFixturesForNext48Hours Date_parse now fixtures) in
    (forall fixture,
        In fixture shown <->
        In fixture fixtures /\
        exists start,
          Date_parse (fx_startDate fixture) = Some start /\
          now <= start <= now + 172800000) /\
    Permutation shown (filterFixturesForNext48Hours Date_parse now fixtures) /\
    Sorted.StronglySorted (fun a b => start_of Date_parse a <= start_of Date_parse b) shown /\
    (forall time,
        now <= time <= now + 172800000 ->
        List.filter (starts_at Date_parse time) shown
        = List.filter (starts_at Date_parse time) fixtures).
Proof.
  intros parse now fixtures Hnow shown.
  set (kept := filterFixturesForNext48Hours parse now fixtures) in *.
  assert (Hkept : forall fixture,
             In fixture kept <->
             In fixture fixtures /\
             exists start, parse (fx_startDate fixture) = Some start /\
                           now <= start <= now + 172800000).
  { intros fixture. subst kept. unfold filterFixturesForNext48Hours, TimeClip.
    change (48 * 60 * 60 * 1000) with 172800000.
    replace (Z.abs (now + 172800000) <=? 8640000000000000) with true
      by (symmetry; apply Z.leb_le; lia).
    rewrite filter_In. cbv zeta. split.
    - intros [Hin H]. split; [exact Hin |].
      destruct (parse (fx_startDate fixture)) as [start |]; [| discriminate].
      exists start. split; [reflexivity |]. lia.
    - intros [Hin (start & Hstart & Hrange)]. split; [exact Hin |].
      rewrite Hstart. lia. }
  assert (Hvalid : by_key
            (fun a b =>
               match parse (fx_startDate a), parse (fx_startDate b) with
               | Some ta, Some tb => ta - tb
               | _, _ => 0
               end)
            (start_of parse) kept).
  { intros a b Ha Hb.
    apply Hkept in Ha as [_ (ta & Ha & _)]. apply Hkept in Hb as [_ (tb & Hb & _)].
    unfold start_of. rewrite Ha, Hb. reflexivity. }
  split; [| split; [| split]].
  - intros fixture. subst shown. unfold sortFixturesChronologically.
    rewrite Array_sort_In. apply Hkept.
  - apply Array_sort_Permutation.
  - apply (Array_sort_sorted _ _ _ Hvalid).
  - intros time Htime.
    assert (Hsame : forall l,
               (forall fixture, In fixture l ->
                  exists start, parse (fx_startDate fixture) = Some start) ->
               List.filter (starts_at parse time) l
               = List.filter (fun a => start_of parse a =? time) l).
    { intros l Hl. apply filter_ext_in. intros fixture Hin.
      destruct (Hl fixture Hin) as [start Hstart].
      unfold starts_at, start_of. rewrite Hstart. reflexivity. }
    rewrite (Hsame shown).
    2:{ intros fixture Hin. subst shown. unfold sortFixturesChronologically in Hin.
        apply Array_sort_In, Hkept in Hin as [_ (start & Hstart & _)]. eauto. }
    subst shown. unfold sortFixturesChronologically.
    rewrite (Array_sort_stable _ _ _ _ Hvalid).
    rewrite <- (Hsame kept)
      by (intros fixture Hin; apply Hkept in Hin as [_ (start & Hstart & _)]; eauto).
    (* within the window the filter changes nothing for one start time *)
    subst kept. unfold filterFixturesForNext48Hours, TimeClip.
    change (48 * 60 * 60 * 1000) with 172800000.
    replace (Z.abs (now + 172800000) <=? 8640000000000000) with true
      by (symmetry; apply Z.leb_le; lia).
    cbv zeta. clear - Htime.
    induction fixtures as [| f l IH]; [reflexivity |].
    cbn [List.filter]. unfold starts_at at 2 4.
    destruct (parse (fx_startDate f)) as [start |] eqn:Hstart.
    + destruct ((now <=? start) && (start <=? now + 172800000)) eqn:Hin.
      * cbn [List.filter]. unfold starts_at at 1. rewrite Hstart.
        destruct (start =? time); [f_equal |]; exact IH.
      * destruct (Z.eqb_spec start time) as [-> | Hne]; [lia | exact IH].
    + exact IH.
Qed.

Lemma fixtures_of_next_48_hours_witness :
  let fixtures :=
    [example_fixture "late" "1700172800000";
     example_fixture "second" "1700000500000";
     example_fixture "past" "1699999999999";
     example_fixture "unknown" "soon";
     example_fixture "first" "1700000000000";
     example_fixture "third" "1700000500000";
     example_fixture "after" "1700172800001"] in
  sortFixturesChronologically example_Date_parse
    (filterFixturesForNext48Hours example_Date_parse 1700000000000 fixtures)
  = [example_fixture "first" "1700000000000";
     example_fixture "second" "1700000500000";
     example_fixture "third" "1700000500000";
     example_fixture "late" "1700172800000"] /\
  Sorted.StronglySorted
    (fun a b => start_of example_Date_parse a <= start_of example_Date_parse b)
    (sortFixturesChronologically example_Date_parse
       (filterFixturesForNext48Hours example_Date_parse 1700000000000 fixtures)).
Proof.
  split; [vm_compute; reflexivity |].
  apply (fixtures_of_next_48_hours example_Date_parse 1700000000000).
  lia.
Defined.

(** ** websocket.js *)

Section Websocket.
Import websocket.

Lemma coherent_loaded : coherent loaded.
Proof. repeat split; cbn; intros; congruence. Qed.

Lemma coherent_initialize ably st :
  coherent st -> coherent (snd (initialize ably st)).
Proof.
  intros (H1 & H2 & H3). unfold initialize.
  destruct (ably_throws ably (calls st) NewRealtime); cbn.
  - repeat split; cbn; auto.
  - destruct (ably_settles ably _ _); cbn; repeat split; cbn; auto; congruence.
Qed.

Lemma coherent_unsubscribe ably st :
  coherent st -> coherent (snd (unsubscribeFromOrderBook ably st)).
Proof.
  intros (H1 & H2 & H3). unfold unsubscribeFromOrderBook.
  destruct (activeChannel st) as [[client channelName] |] eqn:Hactive; cbn.
  - destruct (ably_settles ably _ _); cbn; repeat split; cbn; auto; try congruence;
      rewrite Hactive; auto; congruence.
  - repeat split; cbn; auto; rewrite Hactive; auto.
Qed.

Lemma coherent_subscribe_channel ably marketHash st :
  coherent st -> coherent (snd (subscribe_channel ably marketHash st)).
Proof.
  intros (H1 & H2 & H3). unfold subscribe_channel.
  destruct (realtime st) as [client |] eqn:Hclient; cbn.
  - destruct (ably_throws ably (calls st) _); cbn.
    + repeat split; cbn; auto. rewrite Hclient. auto.
    + destruct (ably_throws ably _ _); cbn.
      * repeat split; cbn; try congruence.
        intros c n [= <- <-]. eauto.
      * repeat split; cbn; try congruence.
        intros c n [= <- <-]. eauto.
  - repeat split; cbn; auto. rewrite Hclient. auto.
Qed.

Lemma coherent_subscribe ably marketHash st :
  coherent st -> coherent (snd (subscribeToOrderBook ably marketHash st)).
Proof.
  intros H. unfold subscribeToOrderBook.
  assert (Hinit : coherent
            (snd match realtime st with
                 | None => initialize ably st
                 | Some _ => (Returns tt, st)
                 end)).
  { destruct (realtime st); [exact H | apply coherent_initialize, H]. }
  destruct (match realtime st with
            | None => initialize ably st
            | Some _ => (Returns tt, st)
            end) as [[[] | message |] st1]; cbn [snd] in *; try exact Hinit.
  assert (Hunsub : coherent
            (snd match activeChannel st1 with
                 | Some _ => unsubscribeFromOrderBook ably st1
                 | None => (Returns false, st1)
                 end)).
  { destruct (activeChannel st1); [apply coherent_unsubscribe, Hinit | exact Hinit]. }
  destruct (match activeChannel st1 with
            | Some _ => unsubscribeFromOrderBook ably st1
            | None => (Returns false, st1)
            end) as [[b | message |] st2]; cbn [snd] in *; try exact Hunsub.
  apply coherent_subscribe_channel, Hunsub.
Qed.

Lemma coherent_close ably st :
  coherent st -> coherent (snd (closeConnection ably st)).
Proof.
  intros (H1 & H2 & H3). unfold closeConnection.
  destruct (realtime st) as [client |] eqn:Hclient; cbn.
  - destruct (ably_settles ably _ _); cbn; repeat split; cbn; auto; try congruence.
    all: rewrite Hclient; auto.
  - repeat split; auto. rewrite Hclient. auto.
Qed.

Lemma coherent_after_call ably st f :
  coherent st -> coherent (after_call ably st f).
Proof.
  destruct f; cbn [after_call].
  - apply coherent_initialize.
  - apply coherent_subscribe.
  - apply coherent_unsubscribe.
  - apply coherent_close.
Qed.

(** X15. Whatever the exported functions of websocket.js are called in
    sequence, and whatever the Ably library answers (its calls may return,
    throw or never settle): isSubscribedToChannel is true only while there
    is an active channel, an active channel exists only while there is a
    client, and the name of the active channel is
    order_book:<BASE_TOKEN>:<marketHash> for some market hash. *)
Theorem websocket_state_coherent :
  forall (ably : Ably) (fs : list Exported),
    let st := after_calls ably fs in
    (isSubscribedToChannel st = true -> activeChannel st <> None) /\
    (activeChannel st <> None -> realtime st <> None) /\
    (forall client channelName,
        activeChannel st = Some (client, channelName) ->
        exists marketHash,
          channelName
          = "order_book:0x6629Ce1Cf35Cc1329ebB4F63202F3f197b3F050B:" +:+ marketHash).
Proof.
  intros ably fs. cbv zeta. unfold after_calls.
  change (coherent (fold_left (after_call ably) fs loaded)).
  generalize coherent_loaded. generalize loaded.
  induction fs as [| f fs IH]; intros st Hst; [exact Hst |].
  cbn [fold_left]. apply IH, coherent_after_call, Hst.
Qed.

(** X16. subscribeToOrderBook does not look at the result of
    unsubscribing: with a client and an active channel whose unsubscribe
    fails, it still takes the new channel and returns true when
    channels.get and subscribe do not throw. The new channel is the active
    one, the module says it is subscribed, and the old channel was asked to
    unsubscribe once, without success. *)
Theorem subscribe_over_failed_unsubscribe :
  forall (ably : Ably) (st : State) (client : nat) (old : nat * string)
         (marketHash message : string),
    let unsubscribe := ChannelUnsubscribe (fst old) (snd old) in
    let channelName := "order_book:" +:+ BASE_TOKEN +:+ ":" +:+ marketHash in
    realtime st = Some client ->
    activeChannel st = Some old ->
    ably_settles ably (calls st) unsubscribe = Rejected message ->
    ably_throws ably (calls st ++ [unsubscribe]) (ChannelsGet client channelName) = None ->
    ably_throws ably (calls st ++ [unsubscribe; ChannelsGet client channelName])
      (ChannelSubscribe client channelName) = None ->
    exists st',
      subscribeToOrderBook ably marketHash st = (Returns true, st') /\
      activeChannel st' = Some (client, channelName) /\
      isSubscribedToChannel st' = true /\
      calls st' = calls st ++ [unsubscribe; ChannelsGet client channelName;
                               ChannelSubscribe client channelName].
Proof.
  intros ably st client [oldClient oldName] marketHash message unsubscribe channelName
         Hclient Hactive Hunsub Hget Hsub.
  cbn [fst snd] in *.
  unfold subscribeToOrderBook. rewrite Hclient, Hactive.
  unfold unsubscribeFromOrderBook. rewrite Hactive.
  fold unsubscribe. rewrite Hunsub.
  unfold subscribe_channel. cbn [realtime log call calls].
  rewrite Hclient. fold channelName. rewrite Hget.
  cbn [realtime log call calls set_activeChannel].
  rewrite <- app_assoc. cbn [app]. rewrite Hsub.
  eexists. split; [reflexivity |].
  cbn. rewrite <- !app_assoc. cbn [app]. auto.
Qed.

Lemma subscribe_over_failed_unsubscribe_witness :
  let st := after_calls failing_unsubscribe [call_subscribeToOrderBook "0xaa"] in
  realtime st = Some 0%nat /\
  activeChannel st
  = Some (0%nat, "order_book:0x6629Ce1Cf35Cc1329ebB4F63202F3f197b3F050B:0xaa") /\
  exists st',
    subscribeToOrderBook failing_unsubscribe "0xbb" st = (Returns true, st') /\
    activeChannel st'
    = Some (0%nat, "order_book:0x6629Ce1Cf35Cc1329ebB4F63202F3f197b3F050B:0xbb") /\
    isSubscribedToChannel st' = true /\
    calls st'
    = calls st
      ++ [ChannelUnsubscribe 0 "order_book:0x6629Ce1Cf35Cc1329ebB4F63202F3f197b3F050B:0xaa";
          ChannelsGet 0 "order_book:0x6629Ce1Cf35Cc1329ebB4F63202F3f197b3F050B:0xbb";
          ChannelSubscribe 0 "order_book:0x6629Ce1Cf35Cc1329ebB4F63202F3f197b3F050B:0xbb"].
Proof.
  cbv zeta. split; [reflexivity |]. split; [reflexivity |].
  exact (subscribe_over_failed_unsubscribe failing_unsubscribe
           (after_calls failing_unsubscribe [call_subscribeToOrderBook "0xaa"])
           0%nat (0%nat, "order_book:0x6629Ce1Cf35Cc1329ebB4F63202F3f197b3F050B:0xaa")
           "0xbb" "channel failed" eq_refl eq_refl eq_refl eq_refl eq_refl).
Defined.

Lemma subscribe_with_client ably marketHash st :
  realtime st <> None ->
  (forall message, fst (subscribeToOrderBook ably marketHash st) <> Throws message) /\
  exists added,
    calls (snd (subscribeToOrderBook ably marketHash st)) = calls st ++ added /\
    Forall (fun c => connects c = false) added.
Proof.
  intros Hclient. unfold subscribeToOrderBook.
  destruct (realtime st) as [client |] eqn:Hrealtime; [clear Hclient | congruence].
  assert (Hchannel : forall st0 prefix,
             realtime st0 = Some client ->
             calls st0 = calls st ++ prefix ->
             Forall (fun c => connects c = false) prefix ->
             (forall message,
                 fst (subscribe_channel ably marketHash st0) <> Throws message) /\
             exists added,
               calls (snd (subscribe_channel ably marketHash st0)) = calls st ++ added /\
               Forall (fun c => connects c = false) added).
  { intros st0 prefix Hclient Hcalls Hprefix. unfold subscribe_channel.
    rewrite Hclient.
    destruct (ably_throws ably (calls st0) _); cbn [fst snd log call calls].
    - split; [discriminate |].
      exists (prefix ++ [ChannelsGet client
                           ("order_book:" +:+ BASE_TOKEN +:+ ":" +:+ marketHash)]).
      rewrite Hcalls, app_assoc. split; [reflexivity |].
      apply Forall_app; split; [exact Hprefix | repeat constructor].
    - cbn [set_activeChannel calls call].
      destruct (ably_throws ably _ _); cbn [fst snd log call calls set_isSubscribed].
      all: split; [discriminate |].
      all: exists (prefix ++ [ChannelsGet client
                                ("order_book:" +:+ BASE_TOKEN +:+ ":" +:+ marketHash);
                              ChannelSubscribe client
                                ("order_book:" +:+ BASE_TOKEN +:+ ":" +:+ marketHash)]).
      all: unfold set_activeChannel, set_isSubscribed, log, call; cbn [calls].
      all: rewrite Hcalls, <- !app_assoc; cbn [app]; split; [reflexivity |].
      all: apply Forall_app; split; [exact Hprefix | repeat constructor]. }
  destruct (activeChannel st) as [[oldClient oldName] |] eqn:Hactive.
  - unfold unsubscribeFromOrderBook. rewrite Hactive.
    destruct (ably_settles ably (calls st) _).
    + apply (Hchannel _ [ChannelUnsubscribe oldClient oldName]);
        [exact Hrealtime | reflexivity | repeat constructor].
    + apply (Hchannel _ [ChannelUnsubscribe oldClient oldName]);
        [exact Hrealtime | reflexivity | repeat constructor].
    + cbn [fst snd call calls]. split; [discriminate |].
      exists [ChannelUnsubscribe oldClient oldName].
      split; [reflexivity | repeat constructor].
  - apply (Hchannel st []);
      [exact Hrealtime | symmetry; apply app_nil_r | constructor].
Qed.



End Websocket.

(** ** index.js of the order scripts *)

Lemma SFcompare_antisym x y :
  SFcompare y x = option_map CompOpp (SFcompare x y).
Proof.
  destruct x as [[] | [] | | [] mx ex], y as [[] | [] | | [] my ey]; try reflexivity.
  all: cbn [SFcompare option_map]; f_equal.
  all: rewrite (Z.compare_antisym ex ey).
  all: destruct (ex ?= ey) eqn:He; cbn [CompOpp]; try reflexivity.
  all: rewrite (Pos.compare_antisym mx my
                : Pos.compare_cont Eq my mx = CompOpp (Pos.compare_cont Eq mx my)).
  all: reflexivity.
Qed.

Lemma Number_not_leb (x y : Number) :
  is_nan x = false -> is_nan y = false -> (y <=? x)%float = false ->
  (x <? y)%float = true.
Proof.
  unfold is_nan. rewrite !FloatAxioms.eqb_spec, FloatAxioms.leb_spec, FloatAxioms.ltb_spec.
  unfold SFeqb, SFleb, SFltb. rewrite (SFcompare_antisym (Prim2SF x) (Prim2SF y)).
  intros Hx Hy.
  destruct (SFcompare (Prim2SF x) (Prim2SF y)) as [[] |] eqn:Hc;
    cbn [option_map CompOpp]; try discriminate; try reflexivity.
  destruct (Prim2SF x) as [[] | [] | | [] mx ex], (Prim2SF y) as [[] | [] | | [] my ey];
    cbn in Hx, Hy, Hc; discriminate.
Qed.

Section OrderManagement.
Import orderManagement.

Lemma requests_app (a b : list Event) : requests (a ++ b) = requests a ++ requests b.
Proof. apply omap_app. Qed.

Lemma requests_map_Request (trace : list Effect) : requests (map Request trace) = trace.
Proof.
  induction trace as [| ef trace IH]; [reflexivity |].
  cbn. f_equal. exact IH.
Qed.

Lemma postOrder_posts_arguments marketHash isOne betSizeUSDC impliedOdds :
  all_effects (posts_arguments marketHash isOne impliedOdds)
    (orderPoster.postOrder marketHash isOne betSizeUSDC impliedOdds).
Proof.
  unfold orderPoster.postOrder.
  apply all_effects_try_catch; [| intros e; simpl; auto].
  apply all_effects_bind_lift. intros totalBetSize Htbs.
  apply all_effects_bind_lift. intros percentageOdds Hodds.
  split; [exact I |]. intros now.
  split; [exact I |]. intros saltBytes.
  apply all_effects_bind_lift. intros hash Hhash.
  apply all_effects_bind.
  { split; [exact I |]. intros [[| c r] |]; exact I. }
  intros key. split; [exact I |]. intros wallet.
  apply all_effects_bind; [apply all_effects_lift |]. intros _.
  apply all_effects_bind_lift. intros message Hmessage.
  split; [exact I |]. intros sig.
  apply all_effects_bind; [apply all_effects_lift |]. intros signature.
  split.
  { eexists _, signature. split; [reflexivity |]. cbn. auto. }
  intros response. apply all_effects_lift.
Qed.

Lemma cancelOrders_cancels_hashes orderHashes :
  all_effects (cancels_hashes orderHashes) (orderCanceller.cancelOrders orderHashes).
Proof.
  unfold orderCanceller.cancelOrders.
  apply all_effects_try_catch; [| intros e; simpl; auto].
  apply all_effects_bind.
  { split; [exact I |]. intros [[| c r] |]; exact I. }
  intros key. split; [exact I |]. intros saltBytes.
  split; [exact I |]. intros now.
  split; [exact I |]. intros sig.
  apply all_effects_bind; [apply all_effects_lift |]. intros signature.
  split; [reflexivity |].
  intros response. apply all_effects_lift.
Qed.

Lemma postOrder_requests_something w marketHash isOne betSizeUSDC impliedOdds :
  fst (run w (orderPoster.postOrder marketHash isOne betSizeUSDC impliedOdds) at_start)
  <> [].
Proof.
  rewrite postOrder_run. unfold postOrder_stages. cbv zeta.
  repeat match goal with
         | |- context [match ?x with _ => _ end] => destruct x
         end; cbn [fst app]; discriminate.
Qed.

Lemma cancelOrders_requests_something w orderHashes :
  fst (run w (orderCanceller.cancelOrders orderHashes) at_start) <> [].
Proof.
  unfold orderCanceller.cancelOrders, require_private_key.
  step_run. discriminate.
Qed.

(** The bounds that postNewOrder checks, and the step they lead to. *)
Lemma checked_odds (impliedOdds : Number) :
  is_nan impliedOdds || (impliedOdds <=? 0)%float || (1 <=? impliedOdds)%float = false ->
  (0 <? impliedOdds)%float = true /\ (impliedOdds <? 1)%float = true /\
  exists k, 0 <= k <= 400 /\ roundToNearestStep impliedOdds = Ok (k * 25 * 10 ^ 16).
Proof.
  intros H. apply orb_false_elim in H as [H Hone]. apply orb_false_elim in H as [Hnan Hzero].
  assert (Hlt : (impliedOdds <? 1)%float = true)
    by (apply Number_not_leb; [exact Hnan | reflexivity | exact Hone]).
  assert (Hpos : (0 <? impliedOdds)%float = true).
  { rewrite FloatAxioms.ltb_spec. rewrite FloatAxioms.leb_spec in Hzero.
    unfold is_nan in Hnan. rewrite FloatAxioms.eqb_spec in Hnan.
    unfold SFltb, SFleb, SFeqb in *.
    rewrite (SFcompare_antisym (Prim2SF impliedOdds) (Prim2SF 0)).
    destruct (SFcompare (Prim2SF impliedOdds) (Prim2SF 0)) as [[] |] eqn:Hc;
      cbn [option_map CompOpp]; try discriminate; try reflexivity.
    destruct (Prim2SF impliedOdds) as [[] | [] | | [] m e];
      cbn in Hnan, Hc; discriminate. }
  split; [exact Hpos |]. split; [exact Hlt |].
  destruct (ladder_index impliedOdds Hpos Hlt) as (k & Hk & Hround & _).
  exists k. split; [exact Hk |].
  change (roundToNearestStep impliedOdds)
    with (snap_to_step (Math_round (impliedOdds * 100 / 0.25))).
  rewrite Hround. apply snap_to_step_index, Hk.
Qed.

Lemma checked_size (betSize : Number) :
  is_nan betSize || (betSize <=? 0)%float = false -> (0 <? betSize)%float = true.
Proof.
  intros H. apply orb_false_elim in H as [Hnan Hzero].
  rewrite FloatAxioms.ltb_spec. rewrite FloatAxioms.leb_spec in Hzero.
  unfold is_nan in Hnan. rewrite FloatAxioms.eqb_spec in Hnan.
  unfold SFltb, SFleb, SFeqb in *.
  rewrite (SFcompare_antisym (Prim2SF betSize) (Prim2SF 0)).
  destruct (SFcompare (Prim2SF betSize) (Prim2SF 0)) as [[] |] eqn:Hc;
    cbn [option_map CompOpp]; try discriminate; try reflexivity.
  destruct (Prim2SF betSize) as [[] | [] | | [] m e];
    cbn in Hnan, Hc; discriminate.
Qed.

Lemma SFcompare_not_nan x y c :
  SFcompare x y = Some c -> SFcompare x x = Some Eq /\ SFcompare y y = Some Eq.
Proof.
  assert (Hrefl : forall z, z <> S754_nan -> SFcompare z z = Some Eq).
  { intros [[] | [] | | [] m e] Hz; cbn; try reflexivity; try congruence.
    all: rewrite Z.compare_refl, Pos.compare_cont_refl; reflexivity. }
  intros H. split; apply Hrefl; intros Hnan; rewrite Hnan in H;
    [discriminate | destruct x; discriminate].
Qed.

Lemma unchecked (x y : Number) :
  (x <? y)%float = true ->
  is_nan x = false /\ is_nan y = false /\ (y <=? x)%float = false.
Proof.
  rewrite FloatAxioms.ltb_spec, FloatAxioms.leb_spec. unfold is_nan.
  rewrite !FloatAxioms.eqb_spec. unfold SFltb, SFleb, SFeqb.
  rewrite (SFcompare_antisym (Prim2SF x) (Prim2SF y)).
  destruct (SFcompare (Prim2SF x) (Prim2SF y)) as [[] |] eqn:Hc;
    cbn [option_map CompOpp]; try discriminate.
  intros _. destruct (SFcompare_not_nan _ _ _ Hc) as [-> ->]. auto.
Qed.

(** The requests of postNewOrder are those of one call of postOrder, made
    when and only when the answers pass the checks and the last one is a
    yes. *)
Lemma postNewOrder_requests w answer :
  let go :=
    (0 <? JsString.parseFloat (answer 2%nat))%float = true /\
    (0 <? JsString.parseFloat (answer 3%nat))%float = true /\
    (JsString.parseFloat (answer 3%nat) <? 1)%float = true /\
    JsString.toLowerCase (answer 4%nat) = "yes" in
  (requests (postNewOrder w answer) = [] /\ ~ go) \/
  (go /\
   exists k, 0 <= k <= 400 /\
     requests (postNewOrder w answer)
     = fst (run w (orderPoster.postOrder (answer 0%nat)
                     (String.eqb (JsString.toLowerCase (answer 1%nat)) "yes")
                     (JsString.parseFloat (answer 2%nat))
                     (apiOddsToReadable (k * 25 * 10 ^ 16))) at_start)).
Proof.
  cbv zeta. unfold postNewOrder. cbv zeta.
  destruct (is_nan (JsString.parseFloat (answer 2%nat))
            || (JsString.parseFloat (answer 2%nat) <=? 0)%float) eqn:Hsize.
  { left. split; [reflexivity |]. intros (Hpos & _).
    apply unchecked in Hpos as (_ & Hnan & Hle). rewrite Hnan, Hle in Hsize. discriminate. }
  apply checked_size in Hsize.
  destruct (is_nan (JsString.parseFloat (answer 3%nat))
            || (JsString.parseFloat (answer 3%nat) <=? 0)%float
            || (1 <=? JsString.parseFloat (answer 3%nat))%float) eqn:Hodds.
  { left. split; [reflexivity |]. intros (_ & Hpos & Hlt & _).
    apply unchecked in Hpos as (_ & Hnan & Hle). apply unchecked in Hlt as (_ & _ & Hge).
    rewrite Hnan, Hle, Hge in Hodds. discriminate. }
  apply checked_odds in Hodds as (Hpos & Hlt & k & Hk & Hround).
  rewrite Hround. unfold impliedToDecimalOdds.
  destruct (String.eqb_spec (JsString.toLowerCase (answer 4%nat)) "yes") as [Hyes | Hno];
    cbn [negb].
  { right. split; [auto |]. exists k. split; [exact Hk |].
    destruct (run w _ at_start) as [trace response]. cbn [fst].
    destruct response as [response | error];
      rewrite !requests_app, requests_map_Request; cbn; apply app_nil_r. }
  left. split; [reflexivity |]. tauto.
Qed.

Lemma cancelOrder_requests w answer :
  let go :=
    JsString.trim (answer 0%nat) <> "" /\ JsString.toLowerCase (answer 1%nat) = "yes" in
  (requests (cancelOrder w answer) = [] /\ ~ go) \/
  (go /\
   requests (cancelOrder w answer)
   = fst (run w (orderCanceller.cancelOrders [JsString.trim (answer 0%nat)]) at_start)).
Proof.
  cbv zeta. unfold cancelOrder. cbv zeta.
  destruct (String.eqb_spec (JsString.trim (answer 0%nat)) "") as [Hempty | Hhash].
  { left. split; [reflexivity |]. tauto. }
  destruct (String.eqb_spec (JsString.toLowerCase (answer 1%nat)) "yes") as [Hyes | Hno];
    cbn [negb].
  { right. split; [auto |].
    destruct (run w _ at_start) as [trace response]. cbn [fst].
    destruct response as [response | error];
      rewrite !requests_app, requests_map_Request; cbn; apply app_nil_r. }
  left. split; [reflexivity |]. tauto.
Qed.

Lemma main_requests w answer :
  requests (main w answer)
  = if String.eqb (answer 0%nat) "1" then requests (postNewOrder w (later 1 answer))
    else if String.eqb (answer 0%nat) "2" then requests (cancelOrder w (later 1 answer))
    else [].
Proof.
  unfold main. cbv zeta. rewrite !requests_app. cbn [requests omap app].
  rewrite app_nil_r.
  destruct (String.eqb (answer 0%nat) "1"); [reflexivity |].
  destruct (String.eqb (answer 0%nat) "2"); [reflexivity |].
  destruct (String.eqb (answer 0%nat) "3"); reflexivity.
Qed.

(** X18. A session of index.js asks before it acts. Whatever is typed and
    whatever the outside answers, the session ends by closing the terminal,
    and it makes a request (reading the key, the clock or the entropy,
    signing, calling the API) exactly in two cases: the choice is 1, the bet
    size and the implied odds typed parse to a number above 0 and to a
    number strictly between 0 and 1, and the confirmation is a yes in any
    case of letters; or the choice is 2, the order hash typed is not blank,
    and the confirmation is a yes. *)
Theorem session_asks_before_acting :
  forall (w : World) (answer : nat -> string),
    let events := main w answer in
    last events = Some RlClose /\
    (requests events <> [] <->
     (answer 0%nat = "1" /\
      (0 <? JsString.parseFloat (answer 3%nat))%float = true /\
      (0 <? JsString.parseFloat (answer 4%nat))%float = true /\
      (JsString.parseFloat (answer 4%nat) <? 1)%float = true /\
      JsString.toLowerCase (answer 5%nat) = "yes") \/
     (answer 0%nat = "2" /\
      JsString.trim (answer 1%nat) <> "" /\
      JsString.toLowerCase (answer 2%nat) = "yes")).
Proof.
  intros w answer. cbv zeta. split.
  { unfold main. cbv zeta. rewrite !app_assoc. apply last_snoc. }
  rewrite main_requests.
  destruct (String.eqb_spec (answer 0%nat) "1") as [Hone | Hnot1].
  { destruct (postNewOrder_requests w (later 1 answer)) as [[Hnone Hstay] | [Hgo (k & _ & Hsome)]];
      cbv zeta in *; unfold later in *; cbn [Nat.add] in *.
    - rewrite Hnone. split; [congruence |].
      intros [(_ & H) | (Htwo & _)]; [tauto | congruence].
    - rewrite Hsome. split; [intros _; left; tauto |].
      intros _. apply postOrder_requests_something. }
  destruct (String.eqb_spec (answer 0%nat) "2") as [Htwo | Hnot2].
  { destruct (cancelOrder_requests w (later 1 answer)) as [[Hnone Hstay] | [Hgo Hsome]];
      cbv zeta in *; unfold later in *; cbn [Nat.add] in *.
    - rewrite Hnone. split; [congruence |].
      intros [(Hone & _) | (_ & H)]; [congruence | tauto].
    - rewrite Hsome. split; [intros _; right; tauto |].
      intros _. apply cancelOrders_requests_something. }
  split; [congruence |]. intros [(H & _) | (H & _)]; congruence.
Qed.

(** X19. What a session of index.js sends to the API is what was typed,
    with the odds on the ladder. Every request of a session to the API is
    either one new order, for the market hash typed and the side typed (on
    outcome one exactly for a yes), whose percentageOdds is k * 25 * 10^16
    for a step k from 0 to 400 (both 0% and 100% can be posted); or one
    cancellation of exactly the order hash typed, without the white space
    around it. *)
Theorem session_sends_what_was_typed :
  forall (w : World) (answer : nat -> string) (ef : Effect),
    In ef (requests (main w answer)) -> request_as_typed answer ef.
Proof.
  intros w answer ef Hin. rewrite main_requests in Hin.
  destruct (String.eqb_spec (answer 0%nat) "1") as [Hone | Hnot1].
  { destruct (postNewOrder_requests w (later 1 answer)) as [[Hnone _] | [_ (k & Hk & Hsome)]];
      cbv zeta in *; unfold later in *; cbn [Nat.add] in *.
    { rewrite Hnone in Hin. destruct Hin. }
    rewrite Hsome in Hin.
    pose proof (all_effects_run _ _
                  (postOrder_posts_arguments (answer 1%nat)
                     (String.eqb (JsString.toLowerCase (answer 2%nat)) "yes")
                     (JsString.parseFloat (answer 3%nat))
                     (apiOddsToReadable (k * 25 * 10 ^ 16))) w at_start) as Hall.
    rewrite List.Forall_forall in Hall. specialize (Hall ef Hin).
    destruct ef as [| | | | | | | url [posted | |] |]; try exact I; try contradiction.
    destruct Hall as (order & sig & Hposted & Hodds & Hmarket & Hside).
    exists order, sig, k.
    split; [exact Hposted |]. split; [exact Hk |]. split; [| split; assumption].
    pose proof (holds_from_spec readable_reads_back _ 0 readable_reads_back_ladder k
                  ltac:(lia)) as H.
    unfold readable_reads_back in H. cbv zeta in H. rewrite Hodds in H.
    destruct (roundToNearestStep (apiOddsToReadable _)) as [b | e]; [| discriminate].
    apply andb_prop in H as [Ha _]. apply Z.eqb_eq in Ha. exact Ha. }
  destruct (String.eqb_spec (answer 0%nat) "2") as [Htwo | Hnot2]; [| destruct Hin].
  destruct (cancelOrder_requests w (later 1 answer)) as [[Hnone _] | [_ Hsome]];
    cbv zeta in *; unfold later in *; cbn [Nat.add] in *.
  { rewrite Hnone in Hin. destruct Hin. }
  rewrite Hsome in Hin.
  pose proof (all_effects_run _ _
                (cancelOrders_cancels_hashes [JsString.trim (answer 1%nat)]) w at_start)
    as Hall.
  rewrite List.Forall_forall in Hall. specialize (Hall ef Hin).
  destruct ef as [| | | | | | | url [| | payload] |];
    try exact I; try contradiction; exact Hall.
Qed.

Lemma session_sends_what_was_typed_witness :
  let answer := typed ["1"; example_marketHash; "Yes"; "10"; "0.001"; "YES"] in
  exists order,
    In (Fetch "https://api.sx.bet/orders/new"
          (NewOrdersBody [{| so_order := order; so_signature := "0x5197" |}]))
       (requests (main example_world answer)) /\
    no_percentageOdds order = 0 /\
    no_totalBetSize order = 10000000 /\
    no_marketHash order = example_marketHash /\
    no_isMakerBettingOutcomeOne order = true.
Proof.
  cbv zeta.
  assert (Hin : In (Fetch "https://api.sx.bet/orders/new"
                      (NewOrdersBody
                         [{| so_order :=
                               order_of_postOrder example_marketHash true 10000000 0
                                 1730000000123 (first_bytes example_world 32);
                             so_signature := "0x5197" |}]))
                   (requests (main example_world
                      (typed ["1"; example_marketHash; "Yes"; "10"; "0.001"; "YES"])))).
  { vm_compute. do 5 right. left. reflexivity. }
  pose proof (session_sends_what_was_typed example_world _ _ Hin)
    as (order & sig & k & Hposted & Hk & Hodds & Hmarket & Hside).
  injection Hposted as <- <-.
  eexists. split; [exact Hin |]. repeat split.
Defined.

End OrderManagement.

